(** * chat-game: world, characters, dialogue adapter and command interpreter

    A shallow embedding of the services of the text-adventure chat game
    (service_config.py, service_world.py, service_character.py,
    service_ai.py, service_game.py) and the properties of its specification.

    Python values are modelled as follows.
    - [str] is a Rocq [string] holding the UTF-8 bytes of the text.
    - [float] is [pyfloat]: a rational for a finite value, the two
      infinities and NaN, with Python's comparisons.
    - a [dict] that the code iterates over is an association list in
      insertion order; a [dict] that is only looked up is a [gmap].
    - a [list] object that several names can refer to (the session
      histories of the dialogue adapter) lives in a heap and is named by a
      location.
    - exceptions are values of [exn], threaded by a state-and-exception
      monad. *)

From Stdlib Require Import ZArith QArith Ascii String DecimalString.
From stdpp Require Import base option list gmap strings.

Set Warnings "-register-all".
Local Open Scope Z_scope.

(* ===================================================================== *)
(** * Python values *)
(* ===================================================================== *)

Module Py.

(** ** Floats *)

Inductive pyfloat : Type :=
  | Fin (q : Q)
  | PosInf
  | NegInf
  | NaN.

Definition Qltb (a b : Q) : bool := negb (Qle_bool b a).

(** [a < b]; every comparison with NaN is false. *)
Definition flt (a b : pyfloat) : bool :=
  match a, b with
  | NaN, _ | _, NaN => false
  | PosInf, _ => false
  | _, NegInf => false
  | NegInf, _ => true
  | Fin _, PosInf => true
  | Fin p, Fin q => Qltb p q
  end.

(** [a >= b] *)
Definition fge (a b : pyfloat) : bool :=
  match a, b with
  | NaN, _ | _, NaN => false
  | _, _ => negb (flt a b)
  end.

(** [a == b] *)
Definition feq (a b : pyfloat) : bool :=
  match a, b with
  | Fin p, Fin q => Qeq_bool p q
  | PosInf, PosInf | NegInf, NegInf => true
  | _, _ => false
  end.

(** [min(a, b)]: keeps [a] unless [b < a]. *)
Definition py_min (a b : pyfloat) : pyfloat := if flt b a then b else a.

(** [max(a, b)]: keeps [a] unless [b > a]. *)
Definition py_max (a b : pyfloat) : pyfloat := if flt a b then b else a.

(** Truth value of a float: false exactly for zero. *)
Definition float_truthy (x : pyfloat) : bool := negb (feq x (Fin 0)).

(** [x or d] where [x] is a float or [None]. *)
Definition float_or (x : option pyfloat) (d : pyfloat) : pyfloat :=
  match x with
  | Some v => if float_truthy v then v else d
  | None => d
  end.

(** [float(z)] for an [int]: the nearest binary64 value, ties to even;
    [None] stands for OverflowError. *)
Definition float_of_int (z : Z) : option pyfloat :=
  let a := Z.abs z in
  let e := Z.log2 a - 52 in
  if e <=? 0 then Some (Fin (inject_Z z))
  else
    let q := Z.shiftr a e in
    let r := Z.land a (Z.ones e) in
    let half := Z.shiftl 1 (e - 1) in
    let q' := if (half <? r) || ((r =? half) && Z.odd q) then q + 1 else q in
    let m := Z.shiftl q' e in
    if 2 ^ 1024 <=? m then None else Some (Fin (inject_Z (Z.sgn z * m))).

(** ** Strings *)

Definition dq : string := String (ascii_of_nat 34) EmptyString.
Definition nl : string := String (ascii_of_nat 10) EmptyString.

Definition str_of_nat (n : nat) : string :=
  NilZero.string_of_uint (Nat.to_uint n).

(** [s.startswith(p)] *)
Definition startswith (p s : string) : bool := String.prefix p s.

Definition str_rev (s : string) : string :=
  string_of_list_ascii (rev (list_ascii_of_string s)).

(** [s.endswith(p)] *)
Definition endswith (p s : string) : bool :=
  String.prefix (str_rev p) (str_rev s).

(** [s[n:]] for a prefix of [n] one-byte characters. *)
Definition str_drop (n : nat) (s : string) : string :=
  string_of_list_ascii (drop n (list_ascii_of_string s)).

(** [s[:-n]] for a suffix of [n] one-byte characters, [n > 0]. *)
Definition str_drop_end (n : nat) (s : string) : string :=
  let l := list_ascii_of_string s in
  string_of_list_ascii (take (length l - n) l).

(** [needle in hay] for two strings. *)
Fixpoint str_contains (needle hay : string) : bool :=
  String.prefix needle hay
  || match hay with
     | EmptyString => false
     | String _ hay' => str_contains needle hay'
     end.

(** [sep.join(l)] *)
Fixpoint join (sep : string) (l : list string) : string :=
  match l with
  | [] => EmptyString
  | [x] => x
  | x :: rest => x +:+ sep +:+ join sep rest
  end.

(** The characters for which [str.isspace] holds, as UTF-8 byte sequences:
    U+0009..U+000D, U+001C..U+0020, U+0085, U+00A0, U+1680, U+2000..U+200A,
    U+2028, U+2029, U+202F, U+205F, U+3000. *)
Definition bytes (l : list nat) : list ascii := map ascii_of_nat l.

Definition whitespace : list (list ascii) :=
  (map (fun n => bytes [n]) [9; 10; 11; 12; 13; 28; 29; 30; 31; 32]
   ++ [bytes [194; 133]; bytes [194; 160]; bytes [225; 154; 128]]
   ++ map (fun n => bytes [226; 128; n]) (seq 128 11)
   ++ [bytes [226; 128; 168]; bytes [226; 128; 169]; bytes [226; 128; 175];
       bytes [226; 129; 159]; bytes [227; 128; 128]])%nat.

Fixpoint is_prefix (p l : list ascii) : bool :=
  match p, l with
  | [], _ => true
  | a :: p', b :: l' => if Ascii.eqb a b then is_prefix p' l' else false
  | _ :: _, [] => false
  end.

(** The length of the whitespace character [l] starts with, if any. *)
Definition leading_space (l : list ascii) : option nat :=
  length <$> List.find (fun w => is_prefix w l) whitespace.

Fixpoint lstrip_fuel (fuel : nat) (l : list ascii) : list ascii :=
  match fuel with
  | O => l
  | S fuel' =>
      match leading_space l with
      | Some n => lstrip_fuel fuel' (drop n l)
      | None => l
      end
  end.

Definition lstrip_bytes (l : list ascii) : list ascii :=
  lstrip_fuel (length l) l.

(** A whitespace character ends [l] exactly when its reversed encoding
    starts the reversed [l]. *)
Definition trailing_space (r : list ascii) : option nat :=
  length <$> List.find (fun w => is_prefix (rev w) r) whitespace.

Fixpoint rstrip_fuel (fuel : nat) (r : list ascii) : list ascii :=
  match fuel with
  | O => r
  | S fuel' =>
      match trailing_space r with
      | Some n => rstrip_fuel fuel' (drop n r)
      | None => r
      end
  end.

Definition rstrip_bytes (l : list ascii) : list ascii :=
  rev (rstrip_fuel (length l) (rev l)).

(** [s.strip()] *)
Definition strip (s : string) : string :=
  string_of_list_ascii (rstrip_bytes (lstrip_bytes (list_ascii_of_string s))).

(** [s.split()]: maximal runs of non-whitespace characters. *)
Fixpoint split_fuel (fuel : nat) (cur : list ascii) (l : list ascii)
  : list string :=
  let flush := match cur with
               | [] => []
               | _ => [string_of_list_ascii (rev cur)]
               end in
  match fuel with
  | O => flush
  | S fuel' =>
      match l with
      | [] => flush
      | c :: l' =>
          match leading_space l with
          | Some n => flush ++ split_fuel fuel' [] (drop n l)
          | None => split_fuel fuel' (c :: cur) l'
          end
      end
  end.

Definition split (s : string) : list string :=
  let l := list_ascii_of_string s in split_fuel (S (length l)) [] l.

(** ** Decoded JSON values *)

Inductive json : Type :=
  | JNull
  | JBool (b : bool)
  | JInt (z : Z)
  | JFloat (x : pyfloat)
  | JStr (s : string)
  | JArr (items : list json)
  | JObj (fields : list (string * json)).

(** [d.get(k)] on the dict of a decoded object. *)
Fixpoint assoc {A} (k : string) (d : list (string * A)) : option A :=
  match d with
  | [] => None
  | (k', v) :: d' => if String.eqb k k' then Some v else assoc k d'
  end.

(** An insertion-ordered dict with string keys: [d[k] = v] keeps the
    position of an existing key and appends a new one. *)
Fixpoint oset {A} (k : string) (v : A) (d : list (string * A))
  : list (string * A) :=
  match d with
  | [] => [(k, v)]
  | (k', v') :: d' =>
      if String.eqb k k' then (k, v) :: d' else (k', v') :: oset k v d'
  end.

(** [del d[k]] *)
Fixpoint odel {A} (k : string) (d : list (string * A)) : list (string * A) :=
  match d with
  | [] => []
  | (k', v') :: d' => if String.eqb k k' then d' else (k', v') :: odel k d'
  end.

(** [x in l] for a list of strings. *)
Definition mem (x : string) (l : list string) : bool :=
  existsb (String.eqb x) l.

(** ** Exceptions *)

Inductive exn : Type :=
  | OpenAIError (text : string)
  | JSONDecodeError
  | ValueError (text : string)
  | TypeError
  | AttributeError
  | OverflowError
  | RuntimeError (text : string)
  | Exception (text : string).

(** The classes that derive from [BaseException] without deriving from
    [Exception]: no [except] clause of the program names them, so that
    [except Exception] lets them through. *)
Inductive exit_exn : Type :=
  | CancelledError
  | KeyboardInterrupt
  | SystemExit.

(** What ends a computation early: an exception of class [Exception],
    or one outside it. *)
Inductive raised : Type :=
  | Raised (e : exn)
  | Exited (x : exit_exn).

(** [isinstance(e, ValueError)]: JSONDecodeError derives from ValueError. *)
Definition is_ValueError (e : exn) : bool :=
  match e with
  | JSONDecodeError | ValueError _ => true
  | _ => false
  end.

(** ** Builtins of the interpreter and its libraries

    Library functions whose definition is outside the repository are taken
    as given: [str.lower], [json.loads] ([None] is JSONDecodeError),
    [float] on a string ([None] is ValueError), the format [:.2f],
    [str] on a decoded value that is not a string, the message of an
    exception that the interpreter raises, and [os.getenv]. *)

Record Builtins : Type := {
  lower : string -> string;
  json_loads : string -> option json;
  float_of_str : string -> option pyfloat;
  format_2f : pyfloat -> string;
  repr_json : json -> string;
  exn_message : exn -> string;
  getenv : string -> option string;
}.

(** [str(v)], as an f-string formats a value. *)
Definition str_of (rt : Builtins) (v : json) : string :=
  match v with
  | JStr s => s
  | _ => repr_json rt v
  end.

(** [str(e)]: the text an exception was built with, or the message the
    interpreter gave it. *)
Definition str_exn (rt : Builtins) (e : exn) : string :=
  match e with
  | OpenAIError text | ValueError text | RuntimeError text
  | Exception text => text
  | JSONDecodeError | TypeError | AttributeError | OverflowError =>
      exn_message rt e
  end.

Definition is_OpenAIError (e : exn) : bool :=
  match e with
  | OpenAIError _ => true
  | _ => false
  end.

(** [float(v)] *)
Definition py_float (rt : Builtins) (v : json) : exn + pyfloat :=
  match v with
  | JFloat x => inr x
  | JInt z =>
      match float_of_int z with
      | Some x => inr x
      | None => inl OverflowError
      end
  | JBool b => inr (Fin (if b then 1 else 0))
  | JStr s =>
      match float_of_str rt s with
      | Some x => inr x
      | None => inl (ValueError "could not convert string to float")
      end
  | JNull | JArr _ | JObj _ => inl TypeError
  end.

End Py.

(* ===================================================================== *)
(** * State and exceptions *)
(* ===================================================================== *)

Module Eff.
Import Py.

(** A computation over a state [S] that returns a value or is ended by
    an exception. *)
Definition M (S A : Type) : Type := S -> (raised + A) * S.

Definition ret {S A} (a : A) : M S A := fun s => (inr a, s).

Definition raise {S A} (e : exn) : M S A := fun s => (inl (Raised e), s).

(** An exception outside [Exception] arrives. *)
Definition exit_with {S A} (x : exit_exn) : M S A :=
  fun s => (inl (Exited x), s).

Definition bind {S A B} (c : M S A) (k : A -> M S B) : M S B :=
  fun s =>
    match c s with
    | (inr a, s') => k a s'
    | (inl e, s') => (inl e, s')
    end.

(** [try: c except <those e with handles e = true> as e: h e]. The
    clauses of the program name classes of [Exception] only: an exception
    outside it passes. *)
Definition try_except {S A} (c : M S A) (handles : exn -> bool)
    (h : exn -> M S A) : M S A :=
  fun s =>
    match c s with
    | (inl (Raised e), s') =>
        if handles e then h e s' else (inl (Raised e), s')
    | r => r
    end.

Definition get {S} : M S S := fun s => (inr s, s).
Definition put {S} (s : S) : M S unit := fun _ => (inr tt, s).
Definition modify {S} (f : S -> S) : M S unit := fun s => (inr tt, f s).

(** Runs a computation on a component of a larger state. *)
Definition zoom {S T A} (proj : T -> S) (inj : S -> T -> T) (c : M S A)
  : M T A :=
  fun t => match c (proj t) with (r, s') => (r, inj s' t) end.

Definition lift_result {S A} (r : exn + A) : M S A :=
  fun s =>
    (match r with
     | inl e => inl (Raised e)
     | inr a => inr a
     end, s).

(** [wp c s Q]: running [c] from [s] ends with a result and a state that
    satisfy [Q]. Every computation here is a total function, so this is
    total correctness. *)
Definition wp {S A} (c : M S A) (s : S) (Q : raised + A -> S -> Prop)
  : Prop :=
  Q (fst (c s)) (snd (c s)).

End Eff.

Declare Scope eff_scope.
Delimit Scope eff_scope with eff.
Notation "'do' x <- c ; k" := (Eff.bind c (fun x => k))
  (at level 20, x name, c at level 100, k at level 200) : eff_scope.
Notation "c ;; k" := (Eff.bind c (fun _ => k))
  (at level 100, k at level 200, right associativity) : eff_scope.

(* ===================================================================== *)
(** * service_config.py *)
(* ===================================================================== *)

Module Config.
Import Py.

(** The entries of the configuration dict that the game reads. *)
Record ConfigService : Type := {
  game_title : string;
  game_version : string;
  max_response_length : nat;
  debug_mode : bool;
  default_mood : pyfloat;
}.

Section WithBuiltins.
Context (rt : Builtins).

(** [os.getenv(k)] when it is set and not empty. *)
Definition env_value (k : string) : option string :=
  match getenv rt k with
  | Some EmptyString => None
  | r => r
  end.

(** [ConfigService()]: the defaults, then the attributes of config.py,
    then the environment. config.py reads DEBUG_MODE from the environment
    the same way. *)
Definition _load_config : ConfigService :=
  {| game_title :=
       match env_value "GAME_TITLE" with
       | Some t => t
       | None => "AI Chat Game - WebCLI"
       end;
     game_version := "2.0.0-webcli";
     max_response_length := 500;
     debug_mode :=
       match env_value "DEBUG_MODE" with
       | Some v => mem (lower rt v) ["true"; "1"; "yes"]
       | None => false
       end;
     default_mood := Fin (5 # 10) |}.

Definition new : ConfigService := _load_config.

End WithBuiltins.

Definition get_game_title (c : ConfigService) : string := game_title c.
Definition is_debug_mode (c : ConfigService) : bool := debug_mode c.
Definition get_max_response_length (c : ConfigService) : nat :=
  max_response_length c.
Definition get_default_mood (c : ConfigService) : pyfloat := default_mood c.

End Config.

(* ===================================================================== *)
(** * service_world.py *)
(* ===================================================================== *)

Module World.
Import Py.

Record Location : Type := {
  name : string;
  description : string;
  exits : list (string * string);
  characters : list string;
}.

(** [Location(name, description, exits)] *)
Definition Location_new (name description : string)
    (exits : option (list (string * string))) : Location :=
  {| name := name;
     description := description;
     exits := match exits with
              | Some ((_ :: _) as e) => e
              | _ => []
              end;
     characters := [] |}.

Definition with_characters (cs : list string) (l : Location) : Location :=
  {| name := name l; description := description l; exits := exits l;
     characters := cs |}.

Definition add_character (character_id : string) (l : Location) : Location :=
  if mem character_id (characters l) then l
  else with_characters (characters l ++ [character_id]) l.

(** [list.remove(x)]: drops the first occurrence. *)
Fixpoint list_remove (x : string) (l : list string) : list string :=
  match l with
  | [] => []
  | y :: l' => if String.eqb x y then l' else y :: list_remove x l'
  end.

Definition remove_character (character_id : string) (l : Location)
  : Location :=
  if mem character_id (characters l)
  then with_characters (list_remove character_id (characters l)) l
  else l.

Definition direction_names : list (string * string) :=
  [("north", "北方"); ("south", "南方"); ("east", "东方"); ("west", "西方");
   ("up", "上方"); ("down", "下方")].

Definition get_exits_description (l : Location) : string :=
  match exits l with
  | [] => "这里没有明显的出路。"
  | _ =>
      let exit_list :=
        map (fun direction => default direction (assoc direction direction_names))
            (map fst (exits l)) in
      "可以前往: " +:+ join ", " exit_list
  end.

Record WorldService : Type := {
  locations : gmap string Location;
  current_location : string;
}.

Definition village_center : Location :=
  Location_new "村庄中心"
    "这里是一个宁静的小村庄的中心。古老的石井坐落在广场中央，周围是几座朴素的房屋。微风轻拂，带来远山的清香。"
    (Some [("north", "forest_entrance"); ("east", "village_shop");
           ("west", "village_house"); ("south", "river_bank")]).

Definition forest_entrance : Location :=
  Location_new "森林入口"
    "茂密的森林在你面前展开，高大的树木遮天蔽日。阳光透过树叶洒下斑驳的光影，空气中弥漫着泥土和青草的香味。"
    (Some [("south", "village_center"); ("north", "deep_forest")]).

Definition deep_forest : Location :=
  Location_new "深林"
    "你深入森林，周围变得更加幽暗神秘。古老的树木仿佛在窃窃私语，远处传来不明的声响。这里充满了未知的危险和机遇。"
    (Some [("south", "forest_entrance")]).

Definition village_shop : Location :=
  Location_new "村庄商店"
    "这是一间温馨的小商店，货架上摆满了各种日用品和冒险用具。店主是一位和蔼的老人，总是乐于助人。"
    (Some [("west", "village_center")]).

Definition village_house : Location :=
  Location_new "村民房屋"
    "这是一座典型的村庄房屋，木制的墙壁和茅草屋顶。房屋虽然简朴，但收拾得很整洁，透露出主人的勤劳。"
    (Some [("east", "village_center")]).

Definition river_bank : Location :=
  Location_new "河岸"
    "清澈的小河缓缓流淌，河水倒映着天空的蓝色。河岸边长满了芦苇和野花，偶尔有小鱼跃出水面，激起阵阵涟漪。"
    (Some [("north", "village_center")]).

Definition _initialize_world : gmap string Location :=
  <["river_bank" := river_bank]>
  (<["village_house" := village_house]>
  (<["village_shop" := village_shop]>
  (<["deep_forest" := deep_forest]>
  (<["forest_entrance" := forest_entrance]>
  (<["village_center" := village_center]> ∅))))).

(** [WorldService()] *)
Definition new : WorldService :=
  {| locations := _initialize_world; current_location := "village_center" |}.

Definition get_current_location (w : WorldService) : option Location :=
  locations w !! current_location w.

Definition get_location_description (w : WorldService) : string :=
  match get_current_location w with
  | None => "你似乎迷失在了未知的地方..."
  | Some location =>
      let description :=
        "📍 " +:+ name location +:+ nl +:+ nl +:+ description location
        +:+ nl +:+ nl +:+ get_exits_description location in
      match characters location with
      | [] => description
      | cs => description +:+ nl +:+ nl +:+ "👥 这里有: " +:+ join ", " cs
      end
  end.

Definition direction_map : list (string * string) :=
  [("北", "north"); ("南", "south"); ("东", "east"); ("西", "west");
   ("上", "up"); ("下", "down"); ("北方", "north"); ("南方", "south");
   ("东方", "east"); ("西方", "west"); ("上方", "up"); ("下方", "down")].

(** [direction_map.get(direction, direction)] *)
Definition normalize (direction : string) : string :=
  default direction (assoc direction direction_map).

Definition set_current_location (target : string) (w : WorldService)
  : WorldService :=
  {| locations := locations w; current_location := target |}.

(** [move_to(direction)]: the pair returned and the world afterwards. *)
Definition move_to (direction : string) (w : WorldService)
  : (bool * string) * WorldService :=
  match get_current_location w with
  | None => ((false, "当前位置未知，无法移动。"), w)
  | Some current_loc =>
      let normalized_direction := normalize direction in
      match assoc normalized_direction (exits current_loc) with
      | None => ((false, "无法向" +:+ direction +:+ "移动，那里没有路。"), w)
      | Some target_location =>
          match locations w !! target_location with
          | None =>
              ((false, "目标位置 " +:+ target_location +:+ " 不存在。"), w)
          | Some _ =>
              ((true, "你向" +:+ direction +:+ "移动了。"),
               set_current_location target_location w)
          end
      end
  end.

Definition get_available_directions (w : WorldService) : list string :=
  match get_current_location w with
  | None => []
  | Some current_loc => map fst (exits current_loc)
  end.

Definition add_character_to_location (character_id : string)
    (location_id : option string) (w : WorldService) : WorldService :=
  let location_id := default (current_location w) location_id in
  match locations w !! location_id with
  | Some l =>
      {| locations := <[location_id := add_character character_id l]> (locations w);
         current_location := current_location w |}
  | None => w
  end.

Definition remove_character_from_location (character_id : string)
    (location_id : option string) (w : WorldService) : WorldService :=
  let location_id := default (current_location w) location_id in
  match locations w !! location_id with
  | Some l =>
      {| locations :=
           <[location_id := remove_character character_id l]> (locations w);
         current_location := current_location w |}
  | None => w
  end.

Definition get_characters_in_current_location (w : WorldService)
  : list string :=
  match get_current_location w with
  | None => []
  | Some current_loc => characters current_loc
  end.

Definition reset_to_start (w : WorldService) : WorldService :=
  set_current_location "village_center" w.

End World.

(* ===================================================================== *)
(** * service_character.py *)
(* ===================================================================== *)

Module Character.
Import Py.

(** One entry of a conversation history: [{'user': ..., 'ai': ...}]. *)
Record Turn : Type := { user : string; ai : json }.

Record Character : Type := {
  character_id : string;
  name : string;
  personality : string;
  location : string;
  mood : pyfloat;
  conversation_history : list Turn;
}.

(** [l[-n:]] for [n > 0] *)
Definition lastn {A} (n : nat) (l : list A) : list A :=
  drop (length l - n) l.

Definition set_mood (m : pyfloat) (c : Character) : Character :=
  {| character_id := character_id c; name := name c;
     personality := personality c; location := location c;
     mood := m; conversation_history := conversation_history c |}.

Definition set_conversation_history (h : list Turn) (c : Character)
  : Character :=
  {| character_id := character_id c; name := name c;
     personality := personality c; location := location c;
     mood := mood c; conversation_history := h |}.

Definition set_location (l : string) (c : Character) : Character :=
  {| character_id := character_id c; name := name c;
     personality := personality c; location := l;
     mood := mood c; conversation_history := conversation_history c |}.

Definition add_conversation (user_message : string) (ai_response : json)
    (c : Character) : Character :=
  let h := conversation_history c
           ++ [{| user := user_message; ai := ai_response |}] in
  if decide (10 < length h)%nat
  then set_conversation_history (lastn 10 h) c
  else set_conversation_history h c.

Definition _get_mood_description (c : Character) : string :=
  if fge (mood c) (Fin (8 # 10)) then "非常友好"
  else if fge (mood c) (Fin (6 # 10)) then "友好"
  else if fge (mood c) (Fin (4 # 10)) then "普通"
  else if fge (mood c) (Fin (2 # 10)) then "冷淡"
  else "敌对".

Definition get_description (c : Character) : string :=
  name c +:+ " (" +:+ _get_mood_description c +:+ ")".

Definition update_mood (new_mood : pyfloat) (c : Character) : Character :=
  set_mood (py_max (Fin 0) (py_min (Fin 1) new_mood)) c.

Record CharacterService : Type := {
  characters : list (string * Character);
}.

Section WithBuiltins.
Context (rt : Builtins).

(** [Character(character_id, name, personality, location, mood)];
    [mood = None] is the omitted argument. *)
Definition Character_new (character_id name personality location : string)
    (mood : option pyfloat) : Character :=
  {| character_id := character_id;
     name := name;
     personality := personality;
     location := location;
     mood := float_or mood (Config.get_default_mood (Config.new rt));
     conversation_history := [] |}.

Definition _initialize_characters : list (string * Character) :=
  oset "fisherman"
    (Character_new "fisherman" "河边渔夫"
       "安静的渔夫，喜欢独自在河边钓鱼。他对河流和周围的自然环境非常了解，说话简洁但富有智慧。"
       "river_bank" (Some (Fin (6 # 10))))
  (oset "villager"
    (Character_new "villager" "村民"
       "朴实的村民，对村庄生活非常熟悉。他们勤劳善良，但对外来者有些谨慎。说话朴实无华。"
       "village_house" (Some (Fin (5 # 10))))
  (oset "traveler"
    (Character_new "traveler" "神秘旅者"
       "来自远方的神秘旅者，见多识广，知道许多外界的秘密。他的话语中总是带着一丝神秘感，让人捉摸不透。"
       "forest_entrance" (Some (Fin (5 # 10))))
  (oset "shopkeeper"
    (Character_new "shopkeeper" "商店老板"
       "精明但诚实的商人，对各种商品和价格了如指掌。他喜欢与顾客聊天，总是能提供有用的信息。说话直接但友善。"
       "village_shop" (Some (Fin (6 # 10))))
  (oset "elder"
    (Character_new "elder" "村庄长老"
       "智慧而和蔼的老人，对村庄的历史了如指掌。他总是乐于为年轻的冒险者提供建议和指导。说话温和但富有哲理。"
       "village_center" (Some (Fin (7 # 10))))
  [])))).

(** [CharacterService()] *)
Definition new : CharacterService :=
  {| characters := _initialize_characters |}.

(** Lines 32-42: the newest three turns, two lines each. *)
Definition get_conversation_context (c : Character) : string :=
  match conversation_history c with
  | [] => EmptyString
  | _ =>
      let context_lines :=
        flat_map
          (fun conv =>
             ["玩家: " +:+ user conv;
              name c +:+ ": " +:+ str_of rt (ai conv)])
          (lastn 3 (conversation_history c)) in
      join nl context_lines
  end.

Definition reset_all_moods (s : CharacterService) : CharacterService :=
  let default_mood := Config.get_default_mood (Config.new rt) in
  {| characters :=
       map (fun kv =>
              (fst kv,
               set_conversation_history [] (set_mood default_mood (snd kv))))
           (characters s) |}.

End WithBuiltins.

Definition get_character (character_id : string) (s : CharacterService)
  : option Character :=
  assoc character_id (characters s).

Definition get_characters_in_location (loc : string) (s : CharacterService)
  : list (string * Character) :=
  filter (fun kv => String.eqb (location (snd kv)) loc = true) (characters s).

(** A shallow copy: a new dict holding the same Character objects. *)
Definition get_all_characters (s : CharacterService)
  : list (string * Character) :=
  characters s.

Definition add_character (c : Character) (s : CharacterService)
  : CharacterService :=
  {| characters := oset (character_id c) c (characters s) |}.

Definition remove_character (character_id : string) (s : CharacterService)
  : CharacterService :=
  {| characters := odel character_id (characters s) |}.

(** Applies [f] to the Character object stored under [character_id]. *)
Definition on_character (character_id : string) (f : Character -> Character)
    (s : CharacterService) : CharacterService :=
  match assoc character_id (characters s) with
  | Some c => {| characters := oset character_id (f c) (characters s) |}
  | None => s
  end.

Definition move_character (character_id new_location : string)
    (s : CharacterService) : CharacterService :=
  on_character character_id (set_location new_location) s.

Definition update_character_mood (character_id : string) (new_mood : pyfloat)
    (s : CharacterService) : CharacterService :=
  on_character character_id (update_mood new_mood) s.

Definition get_character_list_for_location (loc : string)
    (s : CharacterService) : list string :=
  map fst (get_characters_in_location loc s).

End Character.

(* ===================================================================== *)
(** * service_ai.py *)
(* ===================================================================== *)

Module AI.
Import Py Eff.
Local Open Scope eff_scope.

(** A message dict [{"role": ..., "content": ...}]. The content is a
    string except for an assistant turn, which holds whatever value the
    reply had under [msg]. *)
Record Message : Type := { role : string; content : json }.

(** The name of a list object. *)
Definition loc : Type := nat.

(** [session_histories] maps a session id to a list object; the list
    objects themselves are in [heap], so that two names for one list see
    each other's updates and a newly built list is a different object. *)
Record AIService : Type := {
  config_service : Config.ConfigService;
  client : bool;
  session_histories : gmap string loc;
  heap : gmap loc (list Message);
}.

Definition with_heap (h : gmap loc (list Message)) (s : AIService)
  : AIService :=
  {| config_service := config_service s; client := client s;
     session_histories := session_histories s; heap := h |}.

Definition with_sessions (m : gmap string loc) (s : AIService) : AIService :=
  {| config_service := config_service s; client := client s;
     session_histories := m; heap := heap s |}.

(** The list stored for a session, as [session_histories[session_id]]
    reads it. *)
Definition stored_history (session_id : string) (s : AIService)
  : option (list Message) :=
  l ← session_histories s !! session_id; heap s !! l.

(** ** List objects *)

(** A list display or a slice: builds a new list object. *)
Definition list_new (v : list Message) : M AIService loc :=
  fun s =>
    let l := fresh (dom (heap s)) in
    (inr l, with_heap (<[l := v]> (heap s)) s).

Definition list_read (l : loc) : M AIService (list Message) :=
  fun s => (inr (default [] (heap s !! l)), s).

Definition list_update (l : loc) (f : list Message -> list Message)
  : M AIService unit :=
  fun s => (inr tt, with_heap (alter f l (heap s)) s).

(** [l.append(m)] *)
Definition list_append (l : loc) (m : Message) : M AIService unit :=
  list_update l (fun v => v ++ [m]).

(** [l.insert(0, m)] *)
Definition list_insert_front (l : loc) (m : Message) : M AIService unit :=
  list_update l (fun v => m :: v).

(** [l[0]["content"] = c] on a list that is not empty. *)
Definition list_set_first_content (l : loc) (c : json) : M AIService unit :=
  list_update l (fun v =>
    match v with
    | m :: rest => {| role := role m; content := c |} :: rest
    | [] => []
    end).

(** ** The service *)

(** [AIService()]; [client_ok] tells whether the client could be built. *)
Definition new (rt : Builtins) (client_ok : bool) : AIService :=
  {| config_service := Config.new rt;
     client := client_ok;
     session_histories := ∅;
     heap := ∅ |}.

Definition _get_session_history (session_id : string) : M AIService loc :=
  do self <- get;
  match session_histories self !! session_id with
  | Some l => ret l
  | None =>
      do l <- list_new [];
      modify (fun s => with_sessions (<[session_id := l]> (session_histories s)) s) ;;
      ret l
  end.

Definition _clear_session_history (session_id : string) : M AIService unit :=
  do l <- list_new [];
  modify (fun s => with_sessions (<[session_id := l]> (session_histories s)) s).

Definition clear_character_history (session_id : string) : M AIService unit :=
  _clear_session_history session_id.

Record SessionInfo : Type := {
  info_session_id : string;
  message_count : nat;
  has_system_prompt : bool;
}.

Definition get_session_info (session_id : string) : M AIService SessionInfo :=
  do history <- _get_session_history session_id;
  do h <- list_read history;
  ret {| info_session_id := session_id;
         message_count := length h;
         has_system_prompt :=
           match h with
           | m :: _ => String.eqb (role m) "system"
           | [] => false
           end |}.

(** What the completion endpoint does with a request: it raises, or it
    returns a response whose choices each carry a content that may be
    [None]; or the [await] of the request is left by an exception outside
    [Exception], as when the task is cancelled. *)
Inductive ApiOutcome : Type :=
  | ApiRaises (e : exn)
  | ApiResponse (choices : list (option string))
  | ApiExits (x : exit_exn).

(** The dict that [get_character_response] returns. *)
Record Reply : Type := {
  msg : json;
  mood : pyfloat;
  status : string;
  error : option string;
}.

(** [x in v] for a string [x] and a decoded value [v]. *)
Definition py_in (x : string) (v : json) : exn + bool :=
  match v with
  | JObj fields => inr (bool_decide (is_Some (assoc x fields)))
  | JArr items =>
      inr (existsb (fun i => match i with
                             | JStr s => String.eqb s x
                             | _ => false
                             end) items)
  | JStr s => inr (str_contains x s)
  | _ => inl TypeError
  end.

(** [v.get(k, d)] *)
Definition py_get (v : json) (k : string) (d : json) : exn + json :=
  match v with
  | JObj fields => inr (default d (assoc k fields))
  | _ => inl AttributeError
  end.

(** [v[k]] for a string key *)
Definition py_getitem (v : json) (k : string) : exn + json :=
  match v with
  | JObj fields =>
      match assoc k fields with
      | Some x => inr x
      | None => inl (Exception "KeyError")
      end
  | _ => inl TypeError
  end.

Section WithBuiltins.
Context (rt : Builtins).

Definition build_character_prompt (self : AIService)
    (character_name character_personality current_location : string)
    (mood : pyfloat) : string :=
  let mood_level :=
    if fge mood (Fin (7 # 10)) then "优秀"
    else if fge mood (Fin (4 # 10)) then "良好" else "差" in
  "你现在扮演游戏角色【" +:+ character_name +:+ "】，当前心情值="
  +:+ format_2f rt mood +:+ "（" +:+ mood_level +:+ "）。

角色设定: " +:+ character_personality +:+ "

当前位置: " +:+ current_location +:+ "

你需要:
- 始终保持角色身份，以" +:+ character_name +:+ "的身份回应
- 根据心情值调整语气：越接近 0 语气越差，越接近 1 越友善
- 保持对话的趣味性和吸引力
- 在适当的时候帮助玩家
- 回复保持在 "
  +:+ str_of_nat (Config.get_max_response_length (config_service self))
  +:+ " 字符以内
- 使用中文回复
- 只讨论与当前游戏场景、剧情相关的内容
- 如果玩家提出与游戏无关的问题，请礼貌地引导回游戏内容

请严格按照JSON格式返回：
{
  " +:+ dq +:+ "msg" +:+ dq +:+ ": " +:+ dq +:+ "你要说的话" +:+ dq +:+ ",
  " +:+ dq +:+ "mood" +:+ dq +:+ ": 新的心情值（0.0-1.0 之间的数字）
}

重要：绝不透露你是 AI 或任何技术细节，始终保持角色扮演。".

(** The request to the completion endpoint: its outcome is given. *)
Definition create_completion (api : ApiOutcome)
  : M AIService (list (option string)) :=
  match api with
  | ApiRaises e => raise e
  | ApiResponse choices => ret choices
  | ApiExits x => exit_with x
  end.

(** Lines 133-136: the two reassignments of [content]. They cannot raise,
    so the handler of the inner [try] sees their result. *)
Definition strip_fences (content : string) : string :=
  let content :=
    if startswith "```json" content then str_drop 7 content else content in
  if endswith "```" content then str_drop_end 3 content else content.

(** The message of the handler of OpenAIError. *)
Definition fallback_msg (character_name : string) (e : exn) : string :=
  let error_msg := lower rt (str_exn rt e) in
  if str_contains "404" error_msg || str_contains "not found" error_msg
  then "模型暂时不可用，请稍后再试。"
  else if str_contains "401" error_msg || str_contains "403" error_msg
  then "API  认证失败，请检查配置。"
  else if str_contains "quota" error_msg || str_contains "limit" error_msg
  then "API 配额已用完，请稍后再试。"
  else character_name +:+ " 似乎在思考什么，TA 暂时无法回答你的问题。".

Definition get_character_response
    (character_name character_personality player_message
       current_location : string)
    (mood : pyfloat) (session_id : string) (api : ApiOutcome)
  : M AIService Reply :=
  do self <- get;
  if negb (client self) then
    ret {| msg := JStr (character_name +:+ "看起来在思考什么，TA 似乎不想和你说话。");
           mood := mood;
           status := "error";
           error := Some "AI 客户端未初始化" |}
  else
    try_except
      (let system_prompt :=
         build_character_prompt self character_name character_personality
           current_location mood in
       do history <- _get_session_history session_id;
       do h <- list_read history;
       (match h with
        | m :: _ =>
            if String.eqb (role m) "system"
            then list_set_first_content history (JStr system_prompt)
            else list_insert_front history
                   {| role := "system"; content := JStr system_prompt |}
        | [] =>
            list_insert_front history
              {| role := "system"; content := JStr system_prompt |}
        end) ;;
       list_append history {| role := "user"; content := JStr player_message |} ;;
       do choices <- create_completion api;
       do content <-
         match choices with
         | Some c :: _ =>
             if String.eqb c EmptyString then raise (Exception "AI 返回空响应")
             else ret (strip c)
         | _ => raise (Exception "AI 返回空响应")
         end;
       let content := strip_fences content in
       try_except
         (do ai_response <-
            match json_loads rt content with
            | Some v => ret v
            | None => raise JSONDecodeError
            end;
          do has_msg <- lift_result (py_in "msg" ai_response);
          (if negb has_msg then raise (ValueError "AI 响应缺少 msg 字段")
           else ret tt) ;;
          do mood_value <- lift_result (py_get ai_response "mood" (JFloat mood));
          do new_mood <- lift_result (py_float rt mood_value);
          let new_mood := py_max (Fin 0) (py_min (Fin 1) new_mood) in
          do reply_msg <- lift_result (py_getitem ai_response "msg");
          list_append history {| role := "assistant"; content := reply_msg |} ;;
          do h <- list_read history;
          (* line 153 builds a new list and binds the local name to it *)
          do history <-
            (if decide (20 < length h)%nat
             then list_new (take 1 h ++ Character.lastn 19 h)
             else ret history);
          ret {| msg := reply_msg;
                 mood := new_mood;
                 status := "success";
                 error := None |})
         is_ValueError
         (fun e =>
            list_append history {| role := "assistant"; content := JStr content |} ;;
            ret {| msg := JStr content;
                   mood := mood;
                   status := "success_text";
                   error := None |}))
      (fun _ => true)
      (fun e =>
         if is_OpenAIError e then
           ret {| msg := JStr (fallback_msg character_name e);
                  mood := mood;
                  status := "error";
                  error := Some (str_exn rt e) |}
         else
           ret {| msg := JStr (character_name
                               +:+ " 看起来有些困惑，不如等 TA 消化一下你说了什么？");
                  mood := mood;
                  status := "error";
                  error := Some (str_exn rt e) |}).

End WithBuiltins.

End AI.

(* ===================================================================== *)
(** * service_game.py *)
(* ===================================================================== *)

Module Game.
Import Py Eff.
Local Open Scope eff_scope.

Record GameService : Type := {
  config_service : Config.ConfigService;
  world_service : World.WorldService;
  character_service : Character.CharacterService;
  ai_service : AI.AIService;
}.

(** An entry of the displayed history: [{'type': ..., 'content': ...}]. *)
Record HistoryEntry : Type := { entry_type : string; entry_content : string }.

(** The dict owned by the front end. *)
Record GameState : Type := {
  current_location : string;
  player_name : string;
  history : list HistoryEntry;
  game_started : bool;
}.

(** What a command handler works on: the service and the caller's dict. *)
Record Game : Type := { svc : GameService; game_state : GameState }.

Definition with_world (w : World.WorldService) (g : GameService)
  : GameService :=
  {| config_service := config_service g; world_service := w;
     character_service := character_service g; ai_service := ai_service g |}.

Definition with_characters (c : Character.CharacterService) (g : GameService)
  : GameService :=
  {| config_service := config_service g; world_service := world_service g;
     character_service := c; ai_service := ai_service g |}.

Definition with_ai (a : AI.AIService) (g : GameService) : GameService :=
  {| config_service := config_service g; world_service := world_service g;
     character_service := character_service g; ai_service := a |}.

Definition with_svc (s : GameService) (g : Game) : Game :=
  {| svc := s; game_state := game_state g |}.

Definition with_game_state (gs : GameState) (g : Game) : Game :=
  {| svc := svc g; game_state := gs |}.

Definition _sync_character_locations (g : GameService) : GameService :=
  with_world
    (fold_left
       (fun w kv =>
          World.add_character_to_location (fst kv)
            (Some (Character.location (snd kv))) w)
       (Character.get_all_characters (character_service g))
       (world_service g))
    g.

(** The environment of one [talk]: whether [asyncio.run] itself raises
    (it does inside a running event loop), and the outcome of the request
    to the completion endpoint. *)
Record TalkOracle : Type := {
  asyncio_error : option exn;
  api : AI.ApiOutcome;
}.

Definition asyncio_run {S A} (o : TalkOracle) (c : M S A) : M S A :=
  match asyncio_error o with
  | Some e => raise e
  | None => c
  end.

Definition _get_help_message : string :=
"Available Commands:

Exploration Commands:
  look / 看             - View current location
  where / 位置          - Show current location name
  go <direction> / 走 <方向>   - Move (north/south/east/west or 北/南/东/西)
  
Character Commands:
  characters / 角色     - List characters in current location
  talk <character> <message> / 说 <角色> <消息> - Chat with AI characters
  
System Commands:
  status / 状态         - Show game status
  help / 帮助           - Show this help information
  clear / 清空          - Clear screen

Examples:
  看                   - Look around
  北 or go north       - Move north
  说 elder 你好        - Greet the elder".

Definition direction_names : list (string * string) :=
  [("north", "北方"); ("south", "南方"); ("east", "东方"); ("west", "西方");
   ("up", "上方"); ("down", "下方")].

(** The tokens that [process_command] takes as a bare direction. *)
Definition direction_actions : list string :=
  ["north"; "n"; "south"; "s"; "east"; "e"; "west"; "w";
   "北"; "南"; "东"; "西"; "上"; "下"; "左"; "右"].

Section WithBuiltins.
Context (rt : Builtins).

(** [GameService()] *)
Definition new (client_ok : bool) : GameService :=
  _sync_character_locations
    {| config_service := Config.new rt;
       world_service := World.new;
       character_service := Character.new rt;
       ai_service := AI.new rt client_ok |}.

Definition _get_welcome_message (g : GameService) : string :=
  "Welcome to " +:+ Config.get_game_title (config_service g) +:+ "!

You are a young adventurer who has just arrived in a mysterious realm.
Explore this world and chat with AI-driven characters!

Tip: Type 'help' to see available commands
Tip: Type 'clear' to clear the screen

---".

Definition create_new_game : M GameService GameState :=
  modify (fun g => with_world (World.reset_to_start (world_service g)) g) ;;
  modify (fun g =>
            with_characters
              (Character.reset_all_moods rt (character_service g)) g) ;;
  modify _sync_character_locations ;;
  do self <- get;
  let welcome_msg := _get_welcome_message self in
  let location_desc := World.get_location_description (world_service self) in
  ret {| current_location := World.current_location (world_service self);
         player_name := "冒险者";
         history :=
           [{| entry_type := "system"; entry_content := welcome_msg |};
            {| entry_type := "system"; entry_content := location_desc |}];
         game_started := true |}.

Definition _handle_clear_command : M Game string :=
  modify (fun g =>
            with_game_state
              {| current_location := current_location (game_state g);
                 player_name := player_name (game_state g);
                 history := [];
                 game_started := game_started (game_state g) |} g) ;;
  ret "屏幕已清空。".

Definition _handle_look_command : M Game string :=
  do g <- get;
  ret (World.get_location_description (world_service (svc g))).

(** [location.name], AttributeError when the pointer is stale. *)
Definition current_location_name : M Game string :=
  do g <- get;
  match World.get_current_location (world_service (svc g)) with
  | Some location => ret (World.name location)
  | None => raise AttributeError
  end.

Definition _handle_where_command : M Game string :=
  do n <- current_location_name;
  ret ("Current Location: " +:+ n).

Definition _handle_characters_command : M Game string :=
  do g <- get;
  let current_location := World.current_location (world_service (svc g)) in
  let characters :=
    Character.get_characters_in_location current_location
      (character_service (svc g)) in
  match characters with
  | [] => ret "There are no other people here."
  | _ =>
      let char_list :=
        map (fun kv =>
               "  • " +:+ Character.name (snd kv) +:+ " (ID: " +:+ fst kv
               +:+ ") - " +:+ Character.get_description (snd kv))
            characters in
      ret ("Characters here:" +:+ nl +:+ join nl char_list +:+ nl +:+ nl
           +:+ "Tip: Use 'talk <character_id> <message>' to chat with them")
  end.

Definition _handle_move_command (args : list string) : M Game string :=
  do g <- get;
  match args with
  | [] =>
      let directions :=
        World.get_available_directions (world_service (svc g)) in
      let available :=
        map (fun d => default d (assoc d direction_names)) directions in
      ret ("去哪里？可用方向: " +:+ join ", " available)
  | direction :: _ =>
      match World.move_to direction (world_service (svc g)) with
      | ((true, message), w) =>
          put {| svc := with_world w (svc g);
                 game_state :=
                   {| current_location := World.current_location w;
                      player_name := player_name (game_state g);
                      history := history (game_state g);
                      game_started := game_started (game_state g) |} |} ;;
          ret (message +:+ nl +:+ nl +:+ World.get_location_description w)
      | ((false, message), w) =>
          put (with_svc (with_world w (svc g)) g) ;;
          ret message
      end
  end.

Definition _handle_direction_command (direction : string) : M Game string :=
  _handle_move_command [direction].

Definition _get_mock_ai_response (character : Character.Character)
    (message : string) : string :=
  let responses :=
    [("elder", "年轻的冒险者，我听到你说'" +:+ message
               +:+ "'。村庄的智慧告诉我们，每一次交流都是学习的机会。");
     ("shopkeeper", "欢迎光临！关于'" +:+ message
                    +:+ "'，我想我可能有些有用的东西给你。");
     ("traveler", "有趣...'" +:+ message +:+ "'让我想起了远方的一些传说...");
     ("villager", "哦，'" +:+ message +:+ "'啊，这让我想起了村里的一些事情。");
     ("fisherman", "嗯...'" +:+ message
                   +:+ "'...就像河水一样，话语也有它的流向。")] in
  default ("关于'" +:+ message +:+ "'，我需要想想...")
          (assoc (Character.character_id character) responses).

(** Updates the Character object that was fetched under [character_id]. *)
Definition on_character (character_id : string)
    (f : Character.Character -> Character.Character) : M Game unit :=
  modify (fun g =>
            with_svc
              (with_characters
                 (Character.on_character character_id f
                    (character_service (svc g)))
                 (svc g))
              g).

Definition _handle_talk_command (args : list string) (o : TalkOracle)
  : M Game string :=
  match args with
  | [] => ret ("和谁说话？使用: talk <角色ID> <消息>" +:+ nl
               +:+ "或者: 说 <角色ID> <消息>")
  | character_id :: rest =>
      let message :=
        match rest with
        | [] => "你好"
        | _ => join " " rest
        end in
      do g <- get;
      match Character.get_character character_id (character_service (svc g)) with
      | None =>
          ret ("没有找到角色 '" +:+ character_id +:+ "'。" +:+ nl
               +:+ "输入 'characters' 查看当前位置的角色。")
      | Some character =>
          let current_location :=
            World.current_location (world_service (svc g)) in
          if negb (String.eqb (Character.location character) current_location)
          then ret (Character.name character +:+ " 不在这里。")
          else
            let name := Character.name character in
            try_except
              (do location_name <- current_location_name;
               do ai_response <-
                 asyncio_run o
                   (zoom (fun g => ai_service (svc g))
                         (fun a g => with_svc (with_ai a (svc g)) g)
                      (AI.get_character_response rt
                         name (Character.personality character) message
                         location_name (Character.mood character)
                         ("char_" +:+ character_id) (api o)));
               let response_text := AI.msg ai_response in
               let new_mood := AI.mood ai_response in
               on_character character_id (Character.update_mood new_mood) ;;
               on_character character_id
                 (Character.add_conversation message response_text) ;;
               do g' <- get;
               let status_info :=
                 if Config.is_debug_mode (config_service (svc g')) then
                   nl +:+ "[调试: " +:+ AI.status ai_response +:+ ", 心情: "
                   +:+ format_2f rt
                         (Character.mood
                            (Character.update_mood new_mood character))
                   +:+ "]"
                 else EmptyString in
               ret ("You said to " +:+ name +:+ ": " +:+ dq +:+ message +:+ dq
                    +:+ nl +:+ nl +:+ name +:+ ": " +:+ dq
                    +:+ str_of rt response_text +:+ dq +:+ status_info))
              (fun _ => true)
              (fun e =>
                 do g' <- get;
                 if Config.is_debug_mode (config_service (svc g')) then
                   ret ("AI服务错误: " +:+ str_exn rt e +:+ nl
                        +:+ "使用备用回复...")
                 else
                   let response := _get_mock_ai_response character message in
                   on_character character_id
                     (Character.add_conversation message (JStr response)) ;;
                   ret ("You said to " +:+ name +:+ ": " +:+ dq +:+ message
                        +:+ dq +:+ nl +:+ nl +:+ name +:+ ": " +:+ dq
                        +:+ response +:+ dq))
      end
  end.

Definition _handle_status_command : M Game string :=
  do location_name <- current_location_name;
  do g <- get;
  let char_count :=
    length (World.get_characters_in_current_location (world_service (svc g))) in
  ret ("Game Status:" +:+ nl
       +:+ "Current Location: " +:+ location_name +:+ nl
       +:+ "Characters in Location: " +:+ str_of_nat char_count +:+ nl
       +:+ "Game Version: " +:+ Config.game_version (config_service (svc g))
       +:+ nl
       +:+ "History Count: " +:+ str_of_nat (length (history (game_state g)))).

(** The [if]/[elif] chain of [process_command] on the verb and its
    arguments. *)
Definition dispatch (action : string) (args : list string) (o : TalkOracle)
  : M Game string :=
  if mem action ["clear"; "清空"; "清屏"] then _handle_clear_command
  else if mem action ["help"; "h"; "帮助"; "命令"] then ret _get_help_message
  else if mem action ["look"; "l"; "看"; "查看"; "观察"]
  then _handle_look_command
  else if mem action ["where"; "位置"; "我在哪"] then _handle_where_command
  else if mem action ["characters"; "chars"; "角色"; "人物"; "npc"]
  then _handle_characters_command
  else if mem action ["go"; "move"; "走"; "去"; "移动"]
  then _handle_move_command args
  else if mem action direction_actions then _handle_direction_command action
  else if mem action ["talk"; "say"; "说"; "聊"; "对话"; "交谈"]
  then _handle_talk_command args o
  else if mem action ["status"; "stat"; "状态"] then _handle_status_command
  else ret ("未知命令: " +:+ action +:+ nl +:+ "输入 'help' 查看可用命令。").

Definition process_command (command : string) (o : TalkOracle)
  : M Game string :=
  let command := lower rt (strip command) in
  if String.eqb command EmptyString then ret "请输入一个命令。"
  else
    match split command with
    | [] => raise (Exception "IndexError")
    | action :: args =>
        try_except (dispatch action args o)
          (fun _ => true)
          (fun e =>
             do g <- get;
             if Config.is_debug_mode (config_service (svc g))
             then ret ("处理命令时出错: " +:+ str_exn rt e)
             else ret "出现了一些问题，请重试。")
    end.

End WithBuiltins.

End Game.

(* ===================================================================== *)
(** * Runs of operations *)
(* ===================================================================== *)

Module Runs.
Import Py.

(** A run of [add_conversation] calls on one character, oldest first. *)
Definition add_conversations (ts : list Character.Turn)
    (c : Character.Character) : Character.Character :=
  fold_left
    (fun c t => Character.add_conversation (Character.user t) (Character.ai t) c)
    ts c.

(** The canonical direction tokens. *)
Definition canonical_directions : list string :=
  ["north"; "south"; "east"; "west"; "up"; "down"].

(** Every session names a list object that exists, and no two sessions
    name the same one. *)
Definition sessions_ok (s : AI.AIService) : Prop :=
  (forall sid l,
     AI.session_histories s !! sid = Some l -> is_Some (AI.heap s !! l))
  /\ (forall sid1 sid2 l,
        AI.session_histories s !! sid1 = Some l ->
        AI.session_histories s !! sid2 = Some l -> sid1 = sid2).

Definition system_message (p : string) : AI.Message :=
  {| AI.role := "system"; AI.content := JStr p |}.

Definition user_message (m : string) : AI.Message :=
  {| AI.role := "user"; AI.content := JStr m |}.

Definition assistant_message (v : json) : AI.Message :=
  {| AI.role := "assistant"; AI.content := v |}.

(** A history once the system prompt [p] is written to its head: over an
    existing system entry, or in front of anything else. *)
Definition with_system_prompt (p : string) (h : list AI.Message)
  : list AI.Message :=
  match h with
  | m :: rest =>
      if String.eqb (AI.role m) "system" then system_message p :: rest
      else system_message p :: h
  | [] => [system_message p]
  end.

(** [max(0.0, min(1.0, x))] *)
Definition clamp (x : pyfloat) : pyfloat := py_max (Fin 0) (py_min (Fin 1) x).

(** The text that is decoded: the reply without surrounding whitespace
    and without the code-fence markers. *)
Definition cleaned (c : string) : string := AI.strip_fences (strip c).

(** Session [sid] names the list object [l], which holds [h]. *)
Definition holds (s : AI.AIService) (sid : string) (l : AI.loc)
    (h : list AI.Message) : Prop :=
  AI.session_histories s !! sid = Some l /\ AI.heap s !! l = Some h.

(** [s'] differs from [s] at most in the history of session [sid]. *)
Definition same_except (sid : string) (s s' : AI.AIService) : Prop :=
  AI.client s' = AI.client s
  /\ AI.config_service s' = AI.config_service s
  /\ forall sid', sid' <> sid ->
        AI.stored_history sid' s' = AI.stored_history sid' s.

(** The state [s'] reached from a well-formed [s0] while working on the
    list [l] of session [sid], which now holds [h]. *)
Definition working (s0 : AI.AIService) (sid : string) (l : AI.loc)
    (h : list AI.Message) (s' : AI.AIService) : Prop :=
  sessions_ok s0 ->
  holds s' sid l h /\ sessions_ok s' /\ same_except sid s0 s'.

Section Replies.
Context (rt : Builtins) (character_name : string) (mood : pyfloat).

(** The reply on an exception that reaches the outer handlers. *)
Definition error_reply (e : exn) : AI.Reply :=
  {| AI.msg :=
       JStr (if is_OpenAIError e then AI.fallback_msg rt character_name e
             else character_name
                  +:+ " 看起来有些困惑，不如等 TA 消化一下你说了什么？");
     AI.mood := mood;
     AI.status := "error";
     AI.error := Some (str_exn rt e) |}.

(** The reply of the handler of the inner [try]. *)
Definition text_reply (content : string) : AI.Reply :=
  {| AI.msg := JStr content;
     AI.mood := mood;
     AI.status := "success_text";
     AI.error := None |}.

Definition reply_on (content : string) (e : exn) : AI.Reply :=
  if is_ValueError e then text_reply content else error_reply e.

(** The reply of [get_character_response] for a decoded text, in closed
    form: it does not depend on the stored histories. *)
Definition decoded_reply (content : string) : AI.Reply :=
  match json_loads rt content with
  | None => text_reply content
  | Some ai_response =>
      match AI.py_in "msg" ai_response with
      | inl e => reply_on content e
      | inr false => text_reply content
      | inr true =>
          match AI.py_get ai_response "mood" (JFloat mood) with
          | inl e => reply_on content e
          | inr mood_value =>
              match py_float rt mood_value with
              | inl e => reply_on content e
              | inr new_mood =>
                  match AI.py_getitem ai_response "msg" with
                  | inl e => reply_on content e
                  | inr reply_msg =>
                      {| AI.msg := reply_msg;
                         AI.mood := clamp new_mood;
                         AI.status := "success";
                         AI.error := None |}
                  end
              end
          end
      end
  end.

(** What a call with a client ends with, in closed form: the reply, or
    the exception outside [Exception] that left the request. *)
Definition outcome_of (api : AI.ApiOutcome) : raised + AI.Reply :=
  match api with
  | AI.ApiRaises e => inr (error_reply e)
  | AI.ApiResponse (Some c :: _) =>
      inr (if String.eqb c EmptyString
           then error_reply (Exception "AI 返回空响应")
           else decoded_reply (cleaned c))
  | AI.ApiResponse _ => inr (error_reply (Exception "AI 返回空响应"))
  | AI.ApiExits x => inl (Exited x)
  end.

(** What a call appends after the user turn: the assistant turn, unless
    the reply is an error. *)
Definition assistant_turn (r : AI.Reply) : list AI.Message :=
  if String.eqb (AI.status r) "error" then []
  else [assistant_message (AI.msg r)].

(** The same for a call that may have been left by an exception, which
    appends nothing after the user turn. *)
Definition turn_after (o : raised + AI.Reply) : list AI.Message :=
  match o with
  | inr r => assistant_turn r
  | inl _ => []
  end.

End Replies.

(** What the system prompt shows of the mood, [{mood:.2f}（{mood_level}]:
    the value with two decimals and the level. *)
Definition mood_shown (rt : Builtins) (mood : pyfloat) : string :=
  format_2f rt mood +:+ "（"
  +:+ (if fge mood (Fin (7 # 10)) then "优秀"
       else if fge mood (Fin (4 # 10)) then "良好" else "差").

(** Every stored history that is not empty starts with a system entry that
    holds the prompt recorded for its session, and has no other system
    entry. *)
Definition prompt_first (prompts : string -> option string)
    (s : AI.AIService) : Prop :=
  forall sid h,
    AI.stored_history sid s = Some h ->
    match h with
    | [] => True
    | m :: rest =>
        exists prompt,
          m = system_message prompt
          /\ prompts sid = Some prompt
          /\ Forall (fun m' => AI.role m' <> "system") rest
    end.

(** The operations of the dialogue adapter. *)
Inductive Op : Type :=
  | Respond (character_name character_personality player_message
               current_location : string)
            (mood : pyfloat) (session_id : string) (api : AI.ApiOutcome)
  | ClearHistory (session_id : string)
  | GetSessionInfo (session_id : string).

Definition step (rt : Builtins) (op : Op) (s : AI.AIService) : AI.AIService :=
  match op with
  | Respond n p m l mood sid api =>
      snd (AI.get_character_response rt n p m l mood sid api s)
  | ClearHistory sid => snd (AI.clear_character_history sid s)
  | GetSessionInfo sid => snd (AI.get_session_info sid s)
  end.

Definition run (rt : Builtins) (ops : list Op) (s : AI.AIService)
  : AI.AIService :=
  fold_left (fun s op => step rt op s) ops s.

(** The system prompt last built for each session: a call with a working
    client builds one, clearing the session forgets it. *)
Definition note_prompt (rt : Builtins) (s0 : AI.AIService) (op : Op)
    (prompts : string -> option string) : string -> option string :=
  match op with
  | Respond n p m l mood sid api =>
      if AI.client s0
      then fun x =>
             if String.eqb x sid
             then Some (AI.build_character_prompt rt s0 n p l mood)
             else prompts x
      else prompts
  | ClearHistory sid => fun x => if String.eqb x sid then None else prompts x
  | GetSessionInfo _ => prompts
  end.

Definition last_prompts (rt : Builtins) (s0 : AI.AIService) (ops : list Op)
  : string -> option string :=
  fold_left (fun prompts op => note_prompt rt s0 op prompts) ops
    (fun _ => None).

End Runs.

(* ===================================================================== *)
(** * Sequences of world operations and of commands *)
(* ===================================================================== *)

Module Plays.
Import Py.

(** A mood of [0, 1]. *)
Definition mood_in_range (x : pyfloat) : Prop :=
  exists q, x = Fin q /\ (0 <= q)%Q /\ (q <= 1)%Q.

(** The operations of the world service that change it. *)
Inductive WorldOp : Type :=
  | Move (direction : string)
  | AddPresence (character_id : string) (location_id : option string)
  | RemovePresence (character_id : string) (location_id : option string)
  | ResetToStart.

Definition world_step (op : WorldOp) (w : World.WorldService)
  : World.WorldService :=
  match op with
  | Move d => snd (World.move_to d w)
  | AddPresence cid loc => World.add_character_to_location cid loc w
  | RemovePresence cid loc => World.remove_character_from_location cid loc w
  | ResetToStart => World.reset_to_start w
  end.

Definition world_run (ops : list WorldOp) (w : World.WorldService)
  : World.WorldService :=
  fold_left (fun w op => world_step op w) ops w.

(** What a location is made of apart from who is there. *)
Definition layout (l : World.Location)
  : string * string * list (string * string) :=
  (World.name l, World.description l, World.exits l).

(** The locations are those of the initial world, with their exits. *)
Definition same_layout (w : World.WorldService) : Prop :=
  forall id,
    layout <$> (World.locations w !! id)
    = layout <$> (World.locations World.new !! id).

(** Every exit of every location leads to a location. *)
Definition exits_closed (w : World.WorldService) : Prop :=
  forall id l d target,
    World.locations w !! id = Some l ->
    assoc d (World.exits l) = Some target ->
    is_Some (World.locations w !! target).

(** A command line with the environment of its [talk], if it is one. *)
Record Command : Type := {
  text : string;
  oracle : Game.TalkOracle;
}.

Definition play (rt : Builtins) (cmds : list Command) (g : Game.Game)
  : Game.Game :=
  fold_left
    (fun g c => snd (Game.process_command rt (text c) (oracle c) g))
    cmds g.

Definition character_ok (c : Character.Character) : Prop :=
  mood_in_range (Character.mood c)
  /\ (length (Character.conversation_history c) <= 10)%nat.

(** What holds of a game between two commands. *)
Definition game_ok (g : Game.Game) : Prop :=
  let w := Game.world_service (Game.svc g) in
  same_layout w
  /\ is_Some (World.get_current_location w)
  /\ Game.current_location (Game.game_state g) = World.current_location w
  /\ Forall (fun kv => character_ok (snd kv))
       (Character.characters (Game.character_service (Game.svc g)))
  /\ Runs.sessions_ok (Game.ai_service (Game.svc g)).

(** The message of a [talk] whose character id is followed by the words
    [rest]. *)
Definition talk_message (rest : list string) : string :=
  match rest with
  | [] => "你好"
  | _ => join " " rest
  end.

(** A game as the front end starts it: [GameService()], then
    [create_new_game()]. *)
Definition start (rt : Builtins) (client_ok : bool) : option Game.Game :=
  match Game.create_new_game rt (Game.new rt client_ok) with
  | (inr gs, s) => Some {| Game.svc := s; Game.game_state := gs |}
  | (inl _, _) => None
  end.

(** What no command changes of the characters: the ids in their order,
    and the name, personality and location of each. *)
Definition roster (s : Character.CharacterService)
  : list (string * (string * string * string)) :=
  map (fun kv =>
         (fst kv,
          (Character.name (snd kv), Character.personality (snd kv),
           Character.location (snd kv))))
      (Character.characters s).

(** The part of a game that no command changes: the configuration, the
    locations with their presence lists, the roster, the player's name
    and the started flag. *)
Definition fixed_part (g : Game.Game)
  : Config.ConfigService * gmap string World.Location
    * list (string * (string * string * string)) * string * bool :=
  (Game.config_service (Game.svc g),
   World.locations (Game.world_service (Game.svc g)),
   roster (Game.character_service (Game.svc g)),
   Game.player_name (Game.game_state g),
   Game.game_started (Game.game_state g)).

(** The character ids present at a location of the world. *)
Definition present_at (location_id : string) (w : World.WorldService)
  : list string :=
  match World.locations w !! location_id with
  | Some l => World.characters l
  | None => []
  end.

(** The verbs of the commands that only read the state. *)
Definition reading_verbs : list string :=
  ["help"; "h"; "帮助"; "命令"; "look"; "l"; "看"; "查看"; "观察";
   "where"; "位置"; "我在哪"; "characters"; "chars"; "角色"; "人物"; "npc";
   "status"; "stat"; "状态"].

(** Every verb that [process_command] knows. *)
Definition known_verbs : list string :=
  ["clear"; "清空"; "清屏"] ++ reading_verbs
  ++ ["go"; "move"; "走"; "去"; "移动"] ++ Game.direction_actions
  ++ ["talk"; "say"; "说"; "聊"; "对话"; "交谈"].

End Plays.

(* ===================================================================== *)
(** * Concrete builtins and inputs for the examples *)
(* ===================================================================== *)

Module Sample.
Import Py.

(** [str.lower] on text whose cased letters are ASCII. *)
Definition ascii_lower (s : string) : string :=
  string_of_list_ascii
    (map (fun c =>
            let n := nat_of_ascii c in
            if (65 <=? n)%nat && (n <=? 90)%nat then ascii_of_nat (n + 32)
            else c)
         (list_ascii_of_string s)).

Definition quoted (s : string) : string := dq +:+ s +:+ dq.

(** [{"msg":"hi","mood":1.7}] *)
Definition reply_mood_high : string :=
  "{" +:+ quoted "msg" +:+ ":" +:+ quoted "hi" +:+ ","
  +:+ quoted "mood" +:+ ":1.7}".

(** [{"msg":"hi","mood":0.5}] *)
Definition reply_mood_half : string :=
  "{" +:+ quoted "msg" +:+ ":" +:+ quoted "hi" +:+ ","
  +:+ quoted "mood" +:+ ":0.5}".

(** [{"msg":"hi"}] *)
Definition reply_no_mood : string :=
  "{" +:+ quoted "msg" +:+ ":" +:+ quoted "hi" +:+ "}".

(** [{"msg":"hi","mood":"abc"}] *)
Definition reply_mood_text : string :=
  "{" +:+ quoted "msg" +:+ ":" +:+ quoted "hi" +:+ ","
  +:+ quoted "mood" +:+ ":" +:+ quoted "abc" +:+ "}".

(** [{"msg":"hi","mood":null}] *)
Definition reply_mood_null : string :=
  "{" +:+ quoted "msg" +:+ ":" +:+ quoted "hi" +:+ ","
  +:+ quoted "mood" +:+ ":null}".

(** [{"text":"hi"}] *)
Definition reply_no_msg : string :=
  "{" +:+ quoted "text" +:+ ":" +:+ quoted "hi" +:+ "}".

(** What [json.loads] returns on the texts above and on [5] and [null];
    every other text used in the examples ([hello], [hello there]) is not
    JSON. *)
Definition decoded : list (string * json) :=
  [(reply_mood_high,
    JObj [("msg", JStr "hi"); ("mood", JFloat (Fin (17 # 10)))]);
   (reply_mood_half,
    JObj [("msg", JStr "hi"); ("mood", JFloat (Fin (5 # 10)))]);
   (reply_no_mood, JObj [("msg", JStr "hi")]);
   (reply_mood_text, JObj [("msg", JStr "hi"); ("mood", JStr "abc")]);
   (reply_mood_null, JObj [("msg", JStr "hi"); ("mood", JNull)]);
   (reply_no_msg, JObj [("text", JStr "hi")]);
   ("5", JInt 5);
   ("null", JNull)].

(** Rounds a rational to the nearest integer, ties to even. *)
Definition round_half_even (q : Q) : Z :=
  let d := Z.pos (Qden q) in
  let f := Qnum q / d in
  let r := Qnum q mod d in
  if 2 * r <? d then f
  else if d <? 2 * r then f + 1
  else if Z.even f then f else f + 1.

Definition two_digits (n : nat) : string :=
  if (n <? 10)%nat then "0" +:+ str_of_nat n else str_of_nat n.

(** The format [:.2f] of a value given exactly. Python formats the
    binary64 value, which differs from this on a decimal that lies
    halfway between two results (0.665); the examples use 0.5, 0.7, 0.701
    and 0.702, where both agree. *)
Definition format_2f (x : pyfloat) : string :=
  match x with
  | Fin q =>
      let n := Z.to_nat (round_half_even ((Z.abs (Qnum q) # Qden q) * 100)) in
      (if Qnum q <? 0 then "-" else EmptyString)
      +:+ str_of_nat (n / 100) +:+ "." +:+ two_digits (n mod 100)
  | PosInf => "inf"
  | NegInf => "-inf"
  | NaN => "nan"
  end.

Definition exn_message (e : exn) : string :=
  match e with
  | JSONDecodeError => "Expecting value: line 1 column 1 (char 0)"
  | TypeError =>
      "float() argument must be a string or a real number, not 'NoneType'"
  | AttributeError => "'NoneType' object has no attribute 'name'"
  | OverflowError => "int too large to convert to float"
  | _ => EmptyString
  end.

(** Builtins that agree with Python on the inputs of the examples: no
    environment variable is set, and [float] is only applied to the
    string [abc], which is not a number. *)
Definition rt : Builtins :=
  {| lower := ascii_lower;
     json_loads := fun s => assoc s decoded;
     float_of_str := fun _ => None;
     Py.format_2f := format_2f;
     repr_json := fun _ => "...";
     Py.exn_message := exn_message;
     getenv := fun _ => None |}.

Definition turn (n : nat) : Character.Turn :=
  {| Character.user := "q" +:+ str_of_nat n;
     Character.ai := JStr ("a" +:+ str_of_nat n) |}.

(** The elder as the registry creates it. *)
Definition elder : Character.Character :=
  Character.Character_new rt "elder" "村庄长老" "智慧而和蔼的老人"
    "village_center" (Some (Fin (7 # 10))).

(** A dialogue adapter with a working client and no session yet. *)
Definition ai0 : AI.AIService := AI.new rt true.

(** One call of the adapter for the elder, with the reply text [c]. *)
Definition respond (mood : pyfloat) (c : string)
  : Eff.M AI.AIService AI.Reply :=
  AI.get_character_response rt "村庄长老" "智慧而和蔼的老人" "你好" "村庄中心"
    mood "char_elder" (AI.ApiResponse [Some c]).

(** [n] calls in a row, each answered with [c]. *)
Fixpoint respond_times (n : nat) (c : string) (s : AI.AIService)
  : AI.AIService :=
  match n with
  | O => s
  | S n' => respond_times n' c (snd (respond (Fin (7 # 10)) c s))
  end.

(** A game in progress, before any command. *)
Definition game0 : Game.Game :=
  {| Game.svc := Game.new rt true;
     Game.game_state :=
       {| Game.current_location := "village_center";
          Game.player_name := "冒险者";
          Game.history := [];
          Game.game_started := true |} |}.

Definition oracle (c : string) : Game.TalkOracle :=
  {| Game.asyncio_error := None; Game.api := AI.ApiResponse [Some c] |}.

(** The same builtins with DEBUG_MODE set to [true]. *)
Definition rt_debug : Builtins :=
  {| lower := ascii_lower;
     json_loads := fun s => assoc s decoded;
     float_of_str := fun _ => None;
     Py.format_2f := format_2f;
     repr_json := fun _ => "...";
     Py.exn_message := exn_message;
     getenv := fun k => if String.eqb k "DEBUG_MODE" then Some "true"
                        else None |}.

(** A game whose location pointer names no location. *)
Definition game_lost : Game.Game :=
  {| Game.svc :=
       Game.with_world
         (World.set_current_location "nowhere"
            (Game.world_service (Game.svc game0)))
         (Game.svc game0);
     Game.game_state := Game.game_state game0 |}.

(** [asyncio.run] raising, as inside a running event loop. *)
Definition oracle_no_loop : Game.TalkOracle :=
  {| Game.asyncio_error :=
       Some (RuntimeError
               "asyncio.run() cannot be called from a running event loop");
     Game.api := AI.ApiResponse [] |}.

(** The elder as [_initialize_characters] registers it. *)
Definition village_elder : Character.Character :=
  Character.Character_new rt "elder" "村庄长老"
    "智慧而和蔼的老人，对村庄的历史了如指掌。他总是乐于为年轻的冒险者提供建议和指导。说话温和但富有哲理。"
    "village_center" (Some (Fin (7 # 10))).

(** The task of the request is cancelled while it waits. *)
Definition oracle_cancelled : Game.TalkOracle :=
  {| Game.asyncio_error := None; Game.api := AI.ApiExits CancelledError |}.

(** The endpoint answering that the model does not exist. *)
Definition api_not_found : AI.ApiOutcome :=
  AI.ApiRaises (OpenAIError "Error code: 404 - model Not Found").

End Sample.

(* ===================================================================== *)
(** * Properties of the character registry *)
(* ===================================================================== *)

Section CharacterProperties.
Import Py Character Runs.

Lemma lastn_short {A} (n : nat) (l : list A) :
  (length l <= n)%nat -> lastn n l = l.
Proof.
  intros Hle. unfold lastn.
  replace (length l - n)%nat with 0%nat by lia. reflexivity.
Qed.

Lemma length_lastn {A} (n : nat) (l : list A) :
  length (lastn n l) = (length l `min` n)%nat.
Proof. unfold lastn. rewrite length_drop. lia. Qed.

(** Cutting to the last [n] commutes with appending on the right. *)
Lemma lastn_app_lastn {A} (n : nat) (a b : list A) :
  lastn n (lastn n a ++ b) = lastn n (a ++ b).
Proof.
  destruct (decide (length a <= n)%nat) as [Hle|Hgt].
  - by rewrite (lastn_short n a).
  - unfold lastn. rewrite !length_app, length_drop.
    replace (length a - (length a - n) + length b - n)%nat
      with (length b) by lia.
    replace (length a + length b - n)%nat
      with ((length a - n) + length b)%nat by lia.
    rewrite <- drop_drop. f_equal.
    rewrite drop_app_le by lia. reflexivity.
Qed.

Lemma add_conversation_history (u : string) (a : json) (c : Character) :
  conversation_history (add_conversation u a c)
  = lastn 10 (conversation_history c ++ [{| user := u; ai := a |}]).
Proof.
  unfold add_conversation. case_decide; simpl; [done|].
  by rewrite lastn_short by lia.
Qed.

Lemma add_conversations_history (ts : list Turn) (c : Character) :
  (length (conversation_history c) <= 10)%nat ->
  conversation_history (add_conversations ts c)
  = lastn 10 (conversation_history c ++ ts).
Proof.
  revert c. induction ts as [|t ts IH]; intros c Hlen; simpl.
  - rewrite app_nil_r. by rewrite lastn_short.
  - unfold add_conversations in *. simpl. rewrite IH.
    + rewrite add_conversation_history. destruct t as [u a]; simpl.
      rewrite lastn_app_lastn. by rewrite <- app_assoc.
    + rewrite add_conversation_history, length_lastn. lia.
Qed.

(** C6: after any number of [add_conversation] calls on a character, at
    least one call or none on a history of at most 10 entries (as every
    history is, being empty at construction), the history has at most 10
    entries and is exactly the last 10 of the old entries followed by the
    new ones, in their order. *)
Theorem add_conversation_keeps_most_recent (ts : list Turn) (c : Character) :
  ts <> [] \/ (length (conversation_history c) <= 10)%nat ->
  (length (conversation_history (add_conversations ts c)) <= 10)%nat
  /\ conversation_history (add_conversations ts c)
     = lastn 10 (conversation_history c ++ ts).
Proof.
  intros Hstart.
  assert (Hhist : conversation_history (add_conversations ts c)
                  = lastn 10 (conversation_history c ++ ts)).
  { destruct ts as [|t ts].
    - destruct Hstart as [Hne|Hlen]; [done|].
      by apply add_conversations_history.
    - unfold add_conversations. cbn [fold_left].
      fold (add_conversations ts (add_conversation (user t) (ai t) c)).
      rewrite add_conversations_history.
      + rewrite add_conversation_history. destruct t as [u a]; simpl.
        rewrite lastn_app_lastn. by rewrite <- app_assoc.
      + rewrite add_conversation_history, length_lastn. lia. }
  split; [|done]. rewrite Hhist, length_lastn. lia.
Qed.

Context (rt : Builtins).

Lemma default_mood_value :
  Config.get_default_mood (Config.new rt) = Fin (5 # 10).
Proof. reflexivity. Qed.

(** C10: a mood argument of exactly 0.0 gives the configured default mood,
    0.5, as an omitted argument does; a mood strictly between 0 and 1 is
    kept. *)
Theorem character_mood_zero_is_default
    (character_id name personality location : string) :
  mood (Character_new rt character_id name personality location (Some (Fin 0)))
  = Config.get_default_mood (Config.new rt)
  /\ Config.get_default_mood (Config.new rt) = Fin (5 # 10)
  /\ Character_new rt character_id name personality location (Some (Fin 0))
     = Character_new rt character_id name personality location None
  /\ forall q : Q, (0 < q)%Q -> (q < 1)%Q ->
       mood (Character_new rt character_id name personality location
               (Some (Fin q)))
       = Fin q.
Proof.
  repeat split.
  intros q Hpos _. simpl. unfold float_or, float_truthy, feq.
  destruct (Qeq_bool q 0) eqn:E; [|done].
  apply Qeq_bool_iff in E. rewrite E in Hpos. by apply Qlt_irrefl in Hpos.
Qed.

End CharacterProperties.

(** Fifteen appends on a new character: the last ten remain, in order. *)
Lemma add_conversation_keeps_most_recent_witness :
  (length (Character.conversation_history Sample.elder) <= 10)%nat
  /\ (length (Character.conversation_history
                (Runs.add_conversations (map Sample.turn (seq 1 15))
                   Sample.elder)) <= 10)%nat
  /\ Character.conversation_history
       (Runs.add_conversations (map Sample.turn (seq 1 15)) Sample.elder)
     = map Sample.turn (seq 6 10).
Proof.
  split; [simpl; lia|].
  destruct (add_conversation_keeps_most_recent
              (map Sample.turn (seq 1 15)) Sample.elder) as [Hlen ->];
    [right; simpl; lia|].
  split; [exact Hlen|reflexivity].
Defined.

(** A mood of 0.3 is kept by the constructor. *)
Lemma character_mood_zero_is_default_witness :
  (0 < 3 # 10)%Q /\ (3 # 10 < 1)%Q
  /\ Character.mood
       (Character.Character_new Sample.rt "elder" "村庄长老" "智慧而和蔼的老人"
          "village_center" (Some (Py.Fin (3 # 10))))
     = Py.Fin (3 # 10).
Proof.
  split; [reflexivity|]. split; [reflexivity|].
  apply (character_mood_zero_is_default Sample.rt); reflexivity.
Defined.

(* ===================================================================== *)
(** * Properties of the world model *)
(* ===================================================================== *)

Section WorldProperties.
Import Py World Runs.

Lemma normalize_canonical (d : string) :
  In d canonical_directions -> normalize d = d.
Proof.
  simpl. intros [<-|[<-|[<-|[<-|[<-|[<-|[]]]]]]]; reflexivity.
Qed.

(** Every key of the direction map goes to its canonical token. *)
Lemma normalize_variant (v c : string) :
  In (v, c) direction_map -> normalize v = c /\ In c canonical_directions.
Proof.
  unfold direction_map. intros H.
  repeat (destruct H as [[= <- <-]|H]; [split; [reflexivity|simpl; tauto]|]).
  destruct H.
Qed.

(** A mapped variant moves exactly as its canonical token does: same
    success flag, same world afterwards. *)
Lemma move_to_variant (v c : string) (w : WorldService) :
  In (v, c) direction_map ->
  fst (fst (move_to v w)) = fst (fst (move_to c w))
  /\ snd (move_to v w) = snd (move_to c w).
Proof.
  intros H. destruct (normalize_variant v c H) as [Hv Hc].
  apply normalize_canonical in Hc.
  unfold move_to. rewrite Hv, Hc.
  destruct (get_current_location w) as [l|]; [|done].
  destruct (assoc c (exits l)) as [t|]; [|done].
  destruct (locations w !! t); done.
Qed.

(** A direction whose normal form has an exit to an existing location
    moves there. *)
Lemma move_to_success (w : WorldService) (loc : Location)
    (d target : string) :
  get_current_location w = Some loc ->
  assoc (normalize d) (exits loc) = Some target ->
  is_Some (locations w !! target) ->
  move_to d w
  = ((true, "你向" +:+ d +:+ "移动了。"), set_current_location target w).
Proof.
  intros Hloc Hexit [l Hl]. unfold move_to. by rewrite Hloc, Hexit, Hl.
Qed.

(** C3: with the current location [loc], a canonical direction that has
    an exit to an existing location succeeds and moves the pointer there,
    leaving the location set as it was; a direction whose normal form has
    no exit, or an exit to a missing location, fails and leaves the world
    as it was. *)
Theorem move_to_follows_exits (w : WorldService) (loc : Location)
    (d : string) :
  get_current_location w = Some loc ->
  (In d canonical_directions ->
   forall target,
     assoc d (exits loc) = Some target ->
     is_Some (locations w !! target) ->
     fst (fst (move_to d w)) = true
     /\ current_location (snd (move_to d w)) = target
     /\ locations (snd (move_to d w)) = locations w)
  /\ (assoc (normalize d) (exits loc) = None ->
      fst (fst (move_to d w)) = false /\ snd (move_to d w) = w)
  /\ (forall target,
        assoc (normalize d) (exits loc) = Some target ->
        locations w !! target = None ->
        fst (fst (move_to d w)) = false /\ snd (move_to d w) = w).
Proof.
  intros Hloc. split; [|split].
  - intros Hd target Hexit Htarget.
    rewrite <- (normalize_canonical d Hd) in Hexit.
    by rewrite (move_to_success w loc d target).
  - intros Hexit. unfold move_to. by rewrite Hloc, Hexit.
  - intros target Hexit Hmissing. unfold move_to.
    by rewrite Hloc, Hexit, Hmissing.
Qed.

(** C2, on the code: the interpreter takes the letters n, s, e and w as
    bare directions, but [move_to] has no entry for them, so at the start
    location, which has a north exit, [n] fails while [north] moves. *)
Theorem letter_direction_is_not_normalized :
  Forall (fun a => mem a Game.direction_actions = true) ["n"; "s"; "e"; "w"]
  /\ Forall (fun a => normalize a = a) ["n"; "s"; "e"; "w"]
  /\ move_to "n" World.new
     = ((false, "无法向n移动，那里没有路。"), World.new)
  /\ fst (fst (move_to "north" World.new)) = true
  /\ current_location (snd (move_to "north" World.new)) = "forest_entrance"
  /\ (forall o,
        fst (Game.process_command Sample.rt "n" o Sample.game0)
        = inr "无法向n移动，那里没有路。")
  /\ (forall o,
        World.current_location
          (Game.world_service
             (Game.svc (snd (Game.process_command Sample.rt "n" o Sample.game0))))
        = "village_center").
Proof.
  split; [repeat constructor|]. split; [repeat constructor|].
  repeat split; vm_compute; reflexivity.
Qed.

End WorldProperties.

(** From the village centre, north leads to the forest entrance. *)
Lemma move_to_follows_exits_witness :
  World.get_current_location World.new = Some World.village_center
  /\ World.current_location (snd (World.move_to "north" World.new))
     = "forest_entrance".
Proof.
  split; [reflexivity|].
  destruct (move_to_follows_exits World.new World.village_center "north")
    as (Hmove & _); [reflexivity|].
  destruct (Hmove ltac:(simpl; tauto) "forest_entrance") as (_ & Hptr & _);
    [reflexivity|eexists; reflexivity|exact Hptr].
Defined.

(* ===================================================================== *)
(** * Properties of the command interpreter *)
(* ===================================================================== *)

Section GameProperties.
Import Py Eff Game.
Context (rt : Builtins).

(** The verbs of the talk command. *)
Lemma dispatch_talk (verb : string) (args : list string) (o : TalkOracle) :
  In verb ["talk"; "say"; "说"; "聊"; "对话"; "交谈"] ->
  dispatch rt verb args o = _handle_talk_command rt args o.
Proof.
  simpl. intros [<-|[<-|[<-|[<-|[<-|[<-|[]]]]]]]; reflexivity.
Qed.

(** A command whose handler returns is answered with what the handler
    returns. *)
Lemma process_command_returns (command action : string) (args : list string)
    (o : TalkOracle) (g g' : Game) (answer : string) :
  split (lower rt (strip command)) = action :: args ->
  dispatch rt action args o g = (inr answer, g') ->
  process_command rt command o g = (inr answer, g').
Proof.
  intros Hsplit Hrun. unfold process_command.
  destruct (String.eqb_spec (lower rt (strip command)) EmptyString) as [E|_].
  - rewrite E in Hsplit. discriminate Hsplit.
  - rewrite Hsplit. unfold try_except. by rewrite Hrun.
Qed.

Lemma talk_unknown_character (character_id : string) (rest : list string)
    (o : TalkOracle) (g : Game) :
  Character.get_character character_id (character_service (svc g)) = None ->
  _handle_talk_command rt (character_id :: rest) o g
  = (inr ("没有找到角色 '" +:+ character_id +:+ "'。" +:+ nl
          +:+ "输入 'characters' 查看当前位置的角色。"), g).
Proof.
  intros Hnone. unfold _handle_talk_command, bind, get. simpl.
  by rewrite Hnone.
Qed.

Lemma talk_character_elsewhere (character_id : string) (rest : list string)
    (o : TalkOracle) (g : Game) (c : Character.Character) :
  Character.get_character character_id (character_service (svc g)) = Some c ->
  Character.location c <> World.current_location (world_service (svc g)) ->
  _handle_talk_command rt (character_id :: rest) o g
  = (inr (Character.name c +:+ " 不在这里。"), g).
Proof.
  intros Hc Hloc. unfold _handle_talk_command, bind, get. simpl.
  rewrite Hc.
  destruct (String.eqb_spec (Character.location c)
              (World.current_location (world_service (svc g))));
    [contradiction|reflexivity].
Qed.

(** C8: a command line that reads as a talk verb followed by a character
    id and possibly a message is answered, when the id is not in the
    registry, that the character was not found, and, when the character
    is registered but at another location, that it is not here; in both
    cases the service (world, characters, dialogue adapter) and the
    caller's game state are left exactly as they were. *)
Theorem talk_absent_character_changes_nothing (command verb : string)
    (character_id : string) (rest : list string) (o : TalkOracle) (g : Game) :
  split (lower rt (strip command)) = verb :: character_id :: rest ->
  In verb ["talk"; "say"; "说"; "聊"; "对话"; "交谈"] ->
  (Character.get_character character_id (character_service (svc g)) = None ->
   process_command rt command o g
   = (inr ("没有找到角色 '" +:+ character_id +:+ "'。" +:+ nl
           +:+ "输入 'characters' 查看当前位置的角色。"), g))
  /\ (forall c,
        Character.get_character character_id (character_service (svc g))
        = Some c ->
        Character.location c
        <> World.current_location (world_service (svc g)) ->
        process_command rt command o g
        = (inr (Character.name c +:+ " 不在这里。"), g)).
Proof.
  intros Hsplit Hverb. split.
  - intros Hnone. eapply process_command_returns; [exact Hsplit|].
    rewrite dispatch_talk by done. by apply talk_unknown_character.
  - intros c Hc Hloc. eapply process_command_returns; [exact Hsplit|].
    rewrite dispatch_talk by done. by apply talk_character_elsewhere.
Qed.

Lemma sync_keeps_pointer (g : GameService) :
  World.current_location (world_service (_sync_character_locations g))
  = World.current_location (world_service g)
  /\ character_service (_sync_character_locations g) = character_service g.
Proof.
  split; [|reflexivity].
  unfold _sync_character_locations. simpl.
  generalize (Character.get_all_characters (character_service g)).
  generalize (world_service g).
  intros w l. revert w. induction l as [|kv l IH]; intros w; simpl; [done|].
  rewrite IH. unfold World.add_character_to_location. simpl.
  by destruct (World.locations w !! Character.location kv.2).
Qed.

(** C9: whatever the state before, [create_new_game] returns a game state
    and leaves the location pointer on the start identifier, with every
    character of the roster at the configured default mood and with an
    empty conversation history. *)
Theorem create_new_game_resets (g : GameService) :
  exists gs,
    fst (create_new_game rt g) = inr gs
    /\ current_location gs = "village_center"
    /\ World.current_location (world_service (snd (create_new_game rt g)))
       = "village_center"
    /\ map fst (Character.characters
                  (character_service (snd (create_new_game rt g))))
       = map fst (Character.characters (character_service g))
    /\ Forall (fun kv =>
                 Character.mood (snd kv)
                 = Config.get_default_mood (Config.new rt)
                 /\ Character.conversation_history (snd kv) = [])
         (Character.characters
            (character_service (snd (create_new_game rt g)))).
Proof.
  set (g' := _sync_character_locations
               (with_characters
                  (Character.reset_all_moods rt (character_service g))
                  (with_world (World.reset_to_start (world_service g)) g))).
  assert (Hrun : snd (create_new_game rt g) = g') by reflexivity.
  assert (Hgs : fst (create_new_game rt g)
                = inr {| current_location :=
                           World.current_location (world_service g');
                         player_name := "冒险者";
                         history :=
                           [{| entry_type := "system";
                               entry_content := _get_welcome_message g' |};
                            {| entry_type := "system";
                               entry_content :=
                                 World.get_location_description
                                   (world_service g') |}];
                         game_started := true |}) by reflexivity.
  rewrite Hrun, Hgs. clear Hrun Hgs.
  destruct (sync_keeps_pointer
              (with_characters
                 (Character.reset_all_moods rt (character_service g))
                 (with_world (World.reset_to_start (world_service g)) g)))
    as [Hptr Hchars].
  fold g' in Hptr, Hchars.
  eexists. split; [reflexivity|]. cbn [current_location].
  rewrite Hptr, Hchars.
  repeat split.
  - cbn. rewrite map_map. reflexivity.
  - cbn. apply Forall_map. apply Forall_forall. intros kv _. done.
Qed.

End GameProperties.

(** At the start nobody is called [nobody], and the shopkeeper is in the
    shop, not in the village centre. *)
Lemma talk_absent_character_changes_nothing_witness :
  Py.split (Py.lower Sample.rt (Py.strip "talk nobody hello"))
  = ["talk"; "nobody"; "hello"]
  /\ In "talk" ["talk"; "say"; "说"; "聊"; "对话"; "交谈"]
  /\ Character.get_character "nobody"
       (Game.character_service (Game.svc Sample.game0)) = None
  /\ Game.process_command Sample.rt "talk nobody hello"
       (Sample.oracle Sample.reply_mood_high) Sample.game0
     = (inr ("没有找到角色 'nobody'。" +:+ Py.nl
             +:+ "输入 'characters' 查看当前位置的角色。"), Sample.game0).
Proof.
  split; [reflexivity|]. split; [simpl; tauto|]. split; [reflexivity|].
  destruct (talk_absent_character_changes_nothing Sample.rt
              "talk nobody hello" "talk" "nobody" ["hello"]
              (Sample.oracle Sample.reply_mood_high) Sample.game0)
    as [Hnone _]; [reflexivity|simpl; tauto|].
  apply Hnone. reflexivity.
Defined.

(* ===================================================================== *)
(** * Properties of the dialogue adapter *)
(* ===================================================================== *)

(** ** Rules for computations *)

Section Hoare.
Import Py Eff.
Context {S : Type}.

Lemma wp_ret {A} (a : A) (s : S) Q : Q (inr a) s -> wp (ret a) s Q.
Proof. done. Qed.

Lemma wp_raise {A} (e : exn) (s : S) (Q : raised + A -> S -> Prop) :
  Q (inl (Raised e)) s -> wp (raise e) s Q.
Proof. done. Qed.

Lemma wp_exit_with {A} (x : exit_exn) (s : S)
    (Q : raised + A -> S -> Prop) :
  Q (inl (Exited x)) s -> wp (exit_with x) s Q.
Proof. done. Qed.

Lemma wp_lift_result {A} (r : exn + A) (s : S)
    (Q : raised + A -> S -> Prop) :
  Q (match r with
     | inl e => inl (Raised e)
     | inr a => inr a
     end) s ->
  wp (lift_result r) s Q.
Proof. done. Qed.

Lemma wp_get (s : S) Q : Q (inr s) s -> wp get s Q.
Proof. done. Qed.

Lemma wp_bind {A B} (c : M S A) (k : A -> M S B) (s : S) Q :
  wp c s (fun r s' =>
            match r with
            | inr a => wp (k a) s' Q
            | inl e => Q (inl e) s'
            end) ->
  wp (bind c k) s Q.
Proof.
  unfold wp, bind. destruct (c s) as [[e|a] s']; simpl; done.
Qed.

Lemma wp_try_except {A} (c : M S A) (handles : exn -> bool)
    (h : exn -> M S A) (s : S) Q :
  wp c s (fun r s' =>
            match r with
            | inl (Raised e) =>
                if handles e then wp (h e) s' Q else Q (inl (Raised e)) s'
            | inl (Exited x) => Q (inl (Exited x)) s'
            | inr a => Q (inr a) s'
            end) ->
  wp (try_except c handles h) s Q.
Proof.
  unfold wp, try_except. destruct (c s) as [[[e|x]|a] s']; simpl; [|done..].
  destruct (handles e); done.
Qed.

End Hoare.

(** ** List objects and sessions *)

Section Lists.
Import Py Eff AI Runs.

Lemma fresh_not_allocated (s : AIService) (l : loc) :
  is_Some (heap s !! l) -> l <> fresh (dom (heap s)).
Proof.
  intros Hl ->. apply (is_fresh (dom (heap s))). by apply elem_of_dom.
Qed.

Lemma stored_of_holds (s : AIService) sid l h :
  holds s sid l h -> stored_history sid s = Some h.
Proof. intros [Hs Hh]. unfold stored_history. rewrite Hs. simpl. done. Qed.

Lemma sessions_ok_new (rt : Builtins) (client_ok : bool) :
  sessions_ok (AI.new rt client_ok).
Proof. split; intros ? *; simpl; by rewrite lookup_empty. Qed.

(** Reading the list of the session gives what it holds. *)
Lemma wp_list_read s0 sid l h s Q :
  working s0 sid l h s ->
  (forall h', (sessions_ok s0 -> h' = h) -> Q (inr h') s) ->
  wp (list_read l) s Q.
Proof.
  intros Hw HQ. unfold wp, list_read. simpl. apply HQ.
  intros Hok. destruct (Hw Hok) as ((_ & Hh) & _). by rewrite Hh.
Qed.

Lemma wp_list_update s0 sid l h f s Q :
  working s0 sid l h s ->
  (forall s', working s0 sid l (f h) s' -> Q (inr tt) s') ->
  wp (list_update l f) s Q.
Proof.
  intros Hw HQ. unfold wp, list_update. simpl. apply HQ.
  intros Hok.
  destruct (Hw Hok) as ((Hs & Hh) & (Hwf & Hinj) & Hc & Hcfg & Hframe).
  repeat split; simpl; try done.
  - by rewrite lookup_alter_eq, Hh.
  - intros sid' l' Hl'. rewrite lookup_alter. case_decide; subst.
    + rewrite Hh. by eexists.
    + by eapply Hwf.
  - intros sid' Hne. rewrite <- (Hframe _ Hne). unfold stored_history. simpl.
    destruct (session_histories s !! sid') as [l'|] eqn:E; simpl; [|done].
    rewrite lookup_alter_ne; [done|]. intros ->. apply Hne. by eapply Hinj.
Qed.

(** A new list object is not the list of any session. *)
Lemma wp_list_new s0 sid l h v s Q :
  working s0 sid l h s ->
  (forall l' s', working s0 sid l h s' -> Q (inr l') s') ->
  wp (list_new v) s Q.
Proof.
  intros Hw HQ. unfold wp, list_new. simpl. apply HQ.
  intros Hok.
  destruct (Hw Hok) as ((Hs & Hh) & (Hwf & Hinj) & Hc & Hcfg & Hframe).
  repeat split; simpl; try done.
  - rewrite lookup_insert_ne; [done|].
    apply not_eq_sym, fresh_not_allocated. by eexists.
  - intros sid' l' Hl'. rewrite lookup_insert.
    case_decide; [by eexists|by eapply Hwf].
  - intros sid' Hne. rewrite <- (Hframe _ Hne). unfold stored_history. simpl.
    destruct (session_histories s !! sid') as [l'|] eqn:E; simpl; [|done].
    rewrite lookup_insert_ne; [done|].
    apply not_eq_sym, fresh_not_allocated. by eapply Hwf.
Qed.

(** A session without a list gets a new empty one. *)
Lemma sessions_ok_fresh_session (s : AIService) (sid : string) :
  sessions_ok s ->
  let l := fresh (dom (heap s)) in
  let s' := with_sessions (<[sid := l]> (session_histories s))
              (with_heap (<[l := []]> (heap s)) s) in
  holds s' sid l [] /\ sessions_ok s' /\ same_except sid s s'.
Proof.
  intros [Hwf Hinj]. repeat split; simpl.
  - by rewrite lookup_insert_eq.
  - by rewrite lookup_insert_eq.
  - intros sid' l'. rewrite !lookup_insert.
    repeat case_decide; subst; try by eexists.
    + intros [= <-]. done.
    + intros H'. by eapply Hwf.
  - intros sid1 sid2 l'. rewrite !lookup_insert.
    repeat case_decide; subst; try done.
    + intros [= <-] H2. apply Hwf in H2. by apply fresh_not_allocated in H2.
    + intros H2 [= <-]. apply Hwf in H2. by apply fresh_not_allocated in H2.
    + apply Hinj.
  - intros sid' Hne. unfold stored_history. simpl.
    rewrite lookup_insert_ne by done.
    destruct (session_histories s !! sid') as [l'|] eqn:E'; simpl; [|done].
    rewrite lookup_insert_ne; [done|].
    apply not_eq_sym, fresh_not_allocated. by eapply Hwf.
Qed.

Lemma wp__get_session_history sid s Q :
  (forall l s',
     working s sid l (default [] (stored_history sid s)) s' -> Q (inr l) s') ->
  wp (_get_session_history sid) s Q.
Proof.
  intros HQ. unfold wp, _get_session_history, bind, get. simpl.
  destruct (session_histories s !! sid) as [l|] eqn:E; simpl.
  - apply HQ. intros [Hwf Hinj].
    destruct (Hwf _ _ E) as [h Hh]. repeat split; try done.
    unfold stored_history. rewrite E. simpl. by rewrite Hh.
  - apply HQ. intros Hok. unfold stored_history. rewrite E. simpl.
    by apply sessions_ok_fresh_session.
Qed.

End Lists.

(** ** One call of [get_character_response] *)

Section Respond.
Import Py Eff AI Runs.
Context (rt : Builtins) (n p m loc : string) (mood : pyfloat) (sid : string).

Lemma wp_write_system s0 l h h' s prompt
    (Q : raised + unit -> AIService -> Prop) :
  working s0 sid l h s ->
  (sessions_ok s0 -> h' = h) ->
  (forall s',
     working s0 sid l (with_system_prompt prompt h) s' -> Q (inr tt) s') ->
  wp (match h' with
      | m :: _ =>
          if String.eqb (role m) "system"
          then list_set_first_content l (JStr prompt)
          else list_insert_front l
                 {| role := "system"; content := JStr prompt |}
      | [] =>
          list_insert_front l {| role := "system"; content := JStr prompt |}
      end) s Q.
Proof.
  intros Hw Heq HQ. destruct h' as [|m0 rest].
  - eapply wp_list_update; [exact Hw|]. intros s' Hw'. apply HQ.
    intros Hok. specialize (Hw' Hok). specialize (Heq Hok). subst h.
    exact Hw'.
  - destruct (String.eqb_spec (role m0) "system") as [Hr|Hr].
    + eapply wp_list_update; [exact Hw|]. intros s' Hw'. apply HQ.
      intros Hok. specialize (Hw' Hok). specialize (Heq Hok). subst h.
      unfold with_system_prompt. cbn in Hw'. rewrite Hr in *. exact Hw'.
    + eapply wp_list_update; [exact Hw|]. intros s' Hw'. apply HQ.
      intros Hok. specialize (Hw' Hok). specialize (Heq Hok). subst h.
      unfold with_system_prompt.
      destruct (String.eqb_spec (role m0) "system"); [done|]. exact Hw'.
Qed.

Ltac wp_red :=
  cbn beta iota zeta delta [is_ValueError is_OpenAIError negb].

Ltac wp_leave :=
  wp_red;
  repeat (first [apply wp_raise | apply wp_ret | apply wp_lift_result];
          wp_red).

(** The outer handlers: the reply is the error reply and nothing more is
    appended. *)
Ltac close_error l :=
  wp_leave;
  first [ split; [reflexivity | by exists l]
        | match goal with
          | |- context [is_OpenAIError ?e] =>
              destruct (is_OpenAIError e); wp_leave;
              (split; [reflexivity | by exists l])
          end ].

(** The handler of the inner [try]: the cleaned text is appended and
    returned. *)
Ltac close_text l :=
  wp_red;
  repeat (first [apply wp_raise | apply wp_lift_result]; wp_red);
  apply wp_bind; eapply wp_list_update; [eassumption|];
  let s' := fresh "s" in
  let Hw' := fresh "Hw" in
  intros s' Hw'; wp_red; apply wp_ret; wp_red;
  split; [reflexivity | exists l; rewrite <- app_assoc in Hw'; exact Hw'].

Ltac on_raise l e :=
  wp_red;
  repeat (first [apply wp_raise | apply wp_lift_result]; wp_red);
  destruct (is_ValueError e) eqn:?; [close_text l | close_error l].

(** With a client, a call ends as [outcome_of] says, a function of the
    arguments and of the outcome of the request alone: it returns a
    reply, unless the request was left by an exception outside
    [Exception], which then leaves the call. The list of the session ends
    up holding the old history with the system prompt at its head, the
    user turn and, when there is a reply that is not an error, the
    assistant turn. Nothing is ever removed from it. *)
Lemma wp_get_character_response api s :
  client s = true ->
  wp (get_character_response rt n p m loc mood sid api) s
    (fun r s' =>
       r = outcome_of rt n mood api
       /\ exists l,
           working s sid l
             (with_system_prompt (build_character_prompt rt s n p loc mood)
                (default [] (stored_history sid s))
              ++ user_message m :: turn_after (outcome_of rt n mood api))
             s').
Proof.
  intros Hclient. unfold get_character_response.
  apply wp_bind, wp_get. rewrite Hclient. wp_red.
  apply wp_try_except, wp_bind, wp__get_session_history.
  intros l s1 Hw1. wp_red.
  apply wp_bind. eapply wp_list_read; [exact Hw1|]. intros h0 Hh0. wp_red.
  apply wp_bind. eapply wp_write_system; [exact Hw1|exact Hh0|].
  intros s2 Hw2. wp_red.
  apply wp_bind. eapply wp_list_update; [exact Hw2|]. intros s3 Hw3. wp_red.
  fold (user_message m) in Hw3.
  set (h1 := with_system_prompt (build_character_prompt rt s n p loc mood)
               (default [] (stored_history sid s))) in *.
  clearbody h1. clear Hw1 Hw2 Hh0 s1 s2 h0.
  unfold outcome_of, turn_after, decoded_reply, reply_on, cleaned,
    error_reply.
  apply wp_bind.
  destruct api as [e|choices|x]; wp_red; [close_error l| |].
  2:{ apply wp_exit_with. wp_red. split; [reflexivity|by exists l]. }
  apply wp_ret. wp_red. apply wp_bind.
  destruct choices as [|[c|] more]; wp_red; try close_error l.
  destruct (String.eqb c EmptyString); wp_red; [close_error l|].
  apply wp_ret. wp_red.
  set (content := strip_fences (strip c)) in *. clearbody content.
  apply wp_try_except. apply wp_bind.
  destruct (json_loads rt content) as [ai_response|]; [|close_text l].
  apply wp_ret. wp_red. apply wp_bind.
  destruct (py_in "msg" ai_response) as [e|[|]]; [on_raise l e| |].
  2:{ apply wp_lift_result. wp_red. apply wp_bind. close_text l. }
  apply wp_lift_result. wp_red. apply wp_bind, wp_ret. wp_red. apply wp_bind.
  destruct (py_get ai_response "mood" (JFloat mood)) as [e|mood_value];
    [on_raise l e|].
  apply wp_lift_result. wp_red. apply wp_bind.
  destruct (py_float rt mood_value) as [e|new_mood]; [on_raise l e|].
  apply wp_lift_result. wp_red. apply wp_bind.
  destruct (py_getitem ai_response "msg") as [e|reply_msg]; [on_raise l e|].
  apply wp_lift_result. wp_red. apply wp_bind.
  eapply wp_list_update; [exact Hw3|]. intros s4 Hw4. wp_red.
  apply wp_bind. eapply wp_list_read; [exact Hw4|]. intros h4 _. wp_red.
  apply wp_bind. case_decide.
  - eapply wp_list_new; [exact Hw4|]. intros l' s5 Hw5. wp_red.
    apply wp_ret. wp_red. split; [reflexivity|]. exists l.
    rewrite <- app_assoc in Hw5. exact Hw5.
  - apply wp_ret. wp_red.
    apply wp_ret. wp_red. split; [reflexivity|]. exists l.
    rewrite <- app_assoc in Hw4. exact Hw4.
Qed.

(** How a call with a client ends, whatever the state. *)
Lemma reply_with_client api s :
  client s = true ->
  fst (get_character_response rt n p m loc mood sid api s)
  = outcome_of rt n mood api.
Proof. intros Hc. by destruct (wp_get_character_response api s Hc). Qed.

(** The stored history after a call with a client. *)
Lemma stored_after_call api s :
  client s = true -> sessions_ok s ->
  let s' := snd (get_character_response rt n p m loc mood sid api s) in
  stored_history sid s'
  = Some (with_system_prompt (build_character_prompt rt s n p loc mood)
            (default [] (stored_history sid s))
          ++ user_message m :: turn_after (outcome_of rt n mood api))
  /\ sessions_ok s'
  /\ same_except sid s s'.
Proof.
  intros Hc Hok.
  destruct (wp_get_character_response api s Hc) as (_ & l & Hw).
  destruct (Hw Hok) as (Hh & Hok' & Hsame).
  split; [by eapply stored_of_holds|done].
Qed.

(** Without a client a call changes nothing. *)
Lemma call_without_client api s :
  client s = false ->
  get_character_response rt n p m loc mood sid api s
  = (inr {| msg := JStr (n +:+ "看起来在思考什么，TA 似乎不想和你说话。");
            AI.mood := mood;
            status := "error";
            error := Some "AI 客户端未初始化" |}, s).
Proof.
  intros Hc. unfold get_character_response, bind, get. by rewrite Hc.
Qed.

End Respond.

(** ** Replies *)

Section ReplyProperties.
Import Py Eff AI Runs.
Context (rt : Builtins) (n p m loc : string) (mood : pyfloat) (sid : string).

Lemma Qltb_lt (a b : Q) : Qltb a b = true <-> (a < b)%Q.
Proof.
  unfold Qltb. rewrite negb_true_iff.
  destruct (Qle_bool b a) eqn:E.
  - apply Qle_bool_iff in E. split; [done|]. intros H.
    exfalso. by apply (Qlt_not_le a b).
  - split; [|done]. intros _. apply Qnot_le_lt. intros H.
    apply Qle_bool_iff in H. congruence.
Qed.

(** The clamp always lands in [0, 1], also on NaN and the infinities. *)
Lemma clamp_range (x : pyfloat) :
  exists q, clamp x = Fin q /\ (0 <= q)%Q /\ (q <= 1)%Q.
Proof.
  unfold clamp, py_max, py_min.
  destruct x as [q| | |]; cbn [flt].
  - destruct (Qltb q 1) eqn:E1; cbn [flt].
    + destruct (Qltb 0 q) eqn:E0.
      * exists q. apply Qltb_lt in E1, E0.
        split; [done|]. split; by apply Qlt_le_weak.
      * by exists 0%Q.
    + by exists 1%Q.
  - by exists 1%Q.
  - by exists 0%Q.
  - by exists 1%Q.
Qed.

(** A value of [0, 1] is its own clamp, as [==] compares floats. *)
Lemma clamp_fixed (q : Q) :
  (0 <= q)%Q -> (q <= 1)%Q -> feq (clamp (Fin q)) (Fin q) = true.
Proof.
  intros H0 H1. unfold clamp, py_max, py_min. cbn [flt].
  destruct (Qltb q 1) eqn:E1; cbn [flt].
  - destruct (Qltb 0 q) eqn:E0; cbn [feq]; apply Qeq_bool_iff; [reflexivity|].
    apply Qle_antisym; [done|].
    apply Qnot_lt_le. intros H. apply Qltb_lt in H. congruence.
  - cbn [feq]. apply Qeq_bool_iff. apply Qle_antisym; [|done].
    apply Qnot_lt_le. intros H. apply Qltb_lt in H. congruence.
Qed.

(** What the code does with a reply that decodes to an object with a
    [msg] field: status success with the mood clamped to [0, 1] whenever
    the [mood] field converts to a float, and status success with the
    clamped prior mood (the prior mood itself when it lies in [0, 1]) when
    the field is absent. A [mood] string that is not a number falls into
    the handler of the text path: the prior mood with status success_text
    and the cleaned text as message; a [mood] that is null, an array or
    an object falls into the last handler: the prior mood with status
    error. *)
Lemma reply_for_decoded_object (s : AIService) (c : string)
    (more : list (option string)) (fields : list (string * json))
    (reply_msg : json) :
  client s = true ->
  c <> EmptyString ->
  json_loads rt (cleaned c) = Some (JObj fields) ->
  assoc "msg" fields = Some reply_msg ->
  let r := fst (get_character_response rt n p m loc mood sid
                  (ApiResponse (Some c :: more)) s) in
  (forall v x,
     assoc "mood" fields = Some v -> py_float rt v = inr x ->
     r = inr {| msg := reply_msg; AI.mood := clamp x;
                status := "success"; error := None |}
     /\ exists q, clamp x = Fin q /\ (0 <= q)%Q /\ (q <= 1)%Q)
  /\ (assoc "mood" fields = None ->
       r = inr {| msg := reply_msg; AI.mood := clamp mood;
                  status := "success"; error := None |}
       /\ forall q, mood = Fin q -> (0 <= q)%Q -> (q <= 1)%Q ->
            feq (clamp mood) mood = true)
  /\ (forall t,
        assoc "mood" fields = Some (JStr t) -> float_of_str rt t = None ->
        r = inr {| msg := JStr (cleaned c); AI.mood := mood;
                   status := "success_text"; error := None |})
  /\ (forall v,
        assoc "mood" fields = Some v ->
        v = JNull \/ (exists items, v = JArr items)
        \/ (exists o, v = JObj o) ->
        r = inr {| msg := JStr (n +:+ " 看起来有些困惑，不如等 TA 消化一下你说了什么？");
                   AI.mood := mood;
                   status := "error";
                   error := Some (exn_message rt TypeError) |}).
Proof.
  intros Hclient Hc Hjson Hmsg r. subst r.
  rewrite reply_with_client by done.
  unfold outcome_of. destruct (String.eqb_spec c EmptyString); [done|].
  unfold decoded_reply. rewrite Hjson.
  cbn [py_in py_get py_getitem]. rewrite Hmsg.
  assert (Hhas : bool_decide (is_Some (Some reply_msg)) = true)
    by (apply bool_decide_eq_true; by eexists).
  rewrite Hhas. split; [|split; [|split]].
  - intros v x Hv Hx. rewrite Hv. cbn [from_option id]. rewrite Hx.
    split; [reflexivity|apply clamp_range].
  - intros Hnone. rewrite Hnone. split; [reflexivity|].
    intros q -> H0 H1. by apply clamp_fixed.
  - intros t Ht Hnone. rewrite Ht. cbn [from_option id py_float].
    by rewrite Hnone.
  - intros v Hv Hkind. rewrite Hv. cbn [from_option id].
    destruct Hkind as [->|[[items ->]|[o ->]]]; reflexivity.
Qed.




(** ** Sequences of calls *)

Lemma build_prompt_config (s s' : AIService) :
  config_service s = config_service s' ->
  build_character_prompt rt s n p loc mood
  = build_character_prompt rt s' n p loc mood.
Proof. intros H. unfold build_character_prompt. by rewrite H. Qed.

Lemma clear_history_effect (s : AIService) :
  sessions_ok s ->
  let s' := snd (clear_character_history sid s) in
  stored_history sid s' = Some [] /\ sessions_ok s' /\ same_except sid s s'.
Proof.
  intros Hok.
  destruct (sessions_ok_fresh_session s sid Hok) as (Hh & Hok' & Hsame).
  split; [|done]. by eapply stored_of_holds.
Qed.

Lemma session_info_effect (s : AIService) :
  sessions_ok s ->
  let s' := snd (get_session_info sid s) in
  stored_history sid s' = Some (default [] (stored_history sid s))
  /\ sessions_ok s' /\ same_except sid s s'.
Proof.
  intros Hok. unfold get_session_info.
  set (Q := fun (_ : raised + SessionInfo) s' =>
              stored_history sid s' = Some (default [] (stored_history sid s))
              /\ sessions_ok s' /\ same_except sid s s').
  change (wp (bind (_get_session_history sid)
                (fun history =>
                   bind (list_read history)
                     (fun h =>
                        ret {| info_session_id := sid;
                               message_count := length h;
                               has_system_prompt :=
                                 match h with
                                 | m0 :: _ => String.eqb (role m0) "system"
                                 | [] => false
                                 end |}))) s Q).
  apply wp_bind, wp__get_session_history. intros l s1 Hw.
  apply wp_bind. eapply wp_list_read; [exact Hw|]. intros h' _.
  apply wp_ret. destruct (Hw Hok) as (Hh & Hok' & Hsame).
  split; [by eapply stored_of_holds|done].
Qed.

End ReplyProperties.

(** ** The system prompt stays first *)

Section Strings.

Lemma list_ascii_of_string_app (a b : string) :
  list_ascii_of_string (a +:+ b)
  = list_ascii_of_string a ++ list_ascii_of_string b.
Proof. induction a as [|c a IH]; simpl; [done|]. f_equal. exact IH. Qed.

Lemma str_app_assoc (a b c : string) : (a +:+ b) +:+ c = a +:+ (b +:+ c).
Proof.
  induction a as [|x a IH]; [reflexivity|].
  change (String x ((a +:+ b) +:+ c) = String x (a +:+ (b +:+ c))).
  by rewrite IH.
Qed.

Lemma str_app_inv_tail (a b c : string) : a +:+ c = b +:+ c -> a = b.
Proof.
  intros H. apply (f_equal list_ascii_of_string) in H.
  rewrite !list_ascii_of_string_app in H. apply app_inv_tail in H.
  apply (f_equal string_of_list_ascii) in H.
  by rewrite !string_of_list_ascii_of_string in H.
Qed.

End Strings.

Section Sessions.
Import Py Eff AI Runs.
Context (rt : Builtins).

(** The system prompt is a text around what it shows of the mood. *)
Lemma prompt_shape (s : AIService) (n p loc : string) :
  exists after,
    forall mood,
      build_character_prompt rt s n p loc mood
      = "你现在扮演游戏角色【"
        +:+ (n +:+ ("】，当前心情值="
                    +:+ (format_2f rt mood
                         +:+ ("（"
                              +:+ ((if fge mood (Fin (7 # 10)) then "优秀"
                                    else if fge mood (Fin (4 # 10))
                                         then "良好" else "差")
                                   +:+ after))))).
Proof. eexists. intros mood. reflexivity. Qed.

(** Two moods give the same prompt exactly when the prompt shows the
    same of them. *)
Lemma prompt_eq_iff (s : AIService) (n p loc : string)
    (mood mood' : pyfloat) :
  build_character_prompt rt s n p loc mood'
  = build_character_prompt rt s n p loc mood
  <-> mood_shown rt mood' = mood_shown rt mood.
Proof.
  destruct (prompt_shape s n p loc) as (after & Hshape).
  rewrite !Hshape. unfold mood_shown.
  assert (Hre : forall f l : string,
             f +:+ ("（" +:+ (l +:+ after)) = (f +:+ ("（" +:+ l)) +:+ after).
  { intros f l. by rewrite !str_app_assoc. }
  rewrite !Hre. split.
  - intros H. do 3 apply String.app_inj in H.
    by apply str_app_inv_tail in H.
  - by intros ->.
Qed.

Lemma with_system_prompt_head (prompts : string -> option string)
    (s : AIService) (sid prompt : string) :
  prompt_first prompts s ->
  exists rest,
    with_system_prompt prompt (default [] (stored_history sid s))
    = system_message prompt :: rest
    /\ Forall (fun m' => role m' <> "system") rest.
Proof.
  intros Hinv. destruct (stored_history sid s) as [h|] eqn:E; simpl.
  - specialize (Hinv _ _ E). destruct h as [|m0 rest]; simpl.
    + by exists [].
    + destruct Hinv as (p0 & -> & _ & Hrest). simpl. by exists rest.
  - by exists [].
Qed.

(** One operation keeps the invariant, with the prompt it records. *)
Lemma prompt_first_step (s0 s : AIService) (op : Op)
    (prompts : string -> option string) :
  client s = client s0 ->
  config_service s = config_service s0 ->
  sessions_ok s ->
  prompt_first prompts s ->
  client (step rt op s) = client s0
  /\ config_service (step rt op s) = config_service s0
  /\ sessions_ok (step rt op s)
  /\ prompt_first (note_prompt rt s0 op prompts) (step rt op s).
Proof.
  intros Hcl Hcfg Hok Hinv.
  destruct op as [n p m loc mood sid api|sid|sid]; cbn [step note_prompt].
  - destruct (client s) eqn:Hc.
    + destruct (stored_after_call rt n p m loc mood sid api s Hc Hok)
        as (Hst & Hok' & Hc' & Hcfg' & Hframe).
      rewrite <- Hcl.
      split; [congruence|]. split; [congruence|]. split; [done|].
      intros sid' h Hh.
      destruct (String.eqb_spec sid' sid) as [->|Hne].
      * rewrite Hst in Hh. injection Hh as <-.
        destruct (with_system_prompt_head prompts s sid
                    (build_character_prompt rt s n p loc mood) Hinv)
          as (rest & -> & Hrest).
        cbn [app]. eexists. split; [reflexivity|].
        split; [by rewrite (build_prompt_config rt n p loc mood s s0)|].
        apply Forall_app. split; [done|].
        apply Forall_cons. split; [done|].
        destruct (outcome_of rt n mood api) as [x|r]; cbn [turn_after];
          [done|].
        unfold assistant_turn.
        destruct (String.eqb (status r) "error"); [done|].
        apply Forall_cons. split; done.
      * rewrite (Hframe _ Hne) in Hh. by apply Hinv.
    + rewrite (call_without_client rt n p m loc mood sid api s Hc).
      rewrite <- Hcl. done.
  - destruct (clear_history_effect sid s Hok)
      as (Hst & Hok' & Hc' & Hcfg' & Hframe).
    split; [congruence|]. split; [congruence|]. split; [done|].
    intros sid' h Hh.
    destruct (String.eqb_spec sid' sid) as [->|Hne].
    + rewrite Hst in Hh. by injection Hh as <-.
    + rewrite (Hframe _ Hne) in Hh. by apply Hinv.
  - destruct (session_info_effect sid s Hok)
      as (Hst & Hok' & Hc' & Hcfg' & Hframe).
    split; [congruence|]. split; [congruence|]. split; [done|].
    intros sid' h Hh.
    destruct (decide (sid' = sid)) as [->|Hne].
    + rewrite Hst in Hh. injection Hh as <-.
      destruct (stored_history sid s) as [h|] eqn:E; [|done].
      by apply Hinv.
    + rewrite (Hframe _ Hne) in Hh. by apply Hinv.
Qed.

Lemma prompt_first_run (s0 : AIService) (ops : list Op) :
  forall (s : AIService) (prompts : string -> option string),
    client s = client s0 ->
    config_service s = config_service s0 ->
    sessions_ok s ->
    prompt_first prompts s ->
    client (run rt ops s) = client s0
    /\ config_service (run rt ops s) = config_service s0
    /\ sessions_ok (run rt ops s)
    /\ prompt_first
         (fold_left (fun prompts op => note_prompt rt s0 op prompts) ops prompts)
         (run rt ops s).
Proof.
  induction ops as [|op ops IH]; intros s prompts Hcl Hcfg Hok Hinv.
  - done.
  - destruct (prompt_first_step s0 s op prompts Hcl Hcfg Hok Hinv)
      as (Hcl' & Hcfg' & Hok' & Hinv').
    cbn [run fold_left]. by apply IH.
Qed.

(** Without a client no prompt is ever recorded. *)
Lemma no_client_no_prompt (s0 : AIService) (ops : list Op) :
  client s0 = false ->
  forall prompts : string -> option string,
    (forall x, prompts x = None) ->
    forall x,
      fold_left (fun prompts op => note_prompt rt s0 op prompts) ops prompts x
      = None.
Proof.
  intros Hc. induction ops as [|op ops IH]; intros prompts Hnone x; [done|].
  cbn [fold_left]. apply IH. intros y.
  destruct op as [n p m loc mood sid api|sid|sid]; cbn [note_prompt].
  - by rewrite Hc.
  - by destruct (String.eqb y sid).
  - done.
Qed.

(** A call never shortens the stored history of its session. *)
Lemma call_never_shortens_history (n p m loc : string) (mood : pyfloat)
    (sid : string) (api : ApiOutcome) (s : AIService) :
  client s = true -> sessions_ok s ->
  exists h',
    stored_history sid
      (snd (get_character_response rt n p m loc mood sid api s)) = Some h'
    /\ (length (default [] (stored_history sid s)) < length h')%nat.
Proof.
  intros Hc Hok.
  destruct (stored_after_call rt n p m loc mood sid api s Hc Hok) as (-> & _).
  eexists. split; [reflexivity|].
  rewrite length_app. cbn [length].
  assert (length (default [] (stored_history sid s))
          <= length (with_system_prompt
                       (build_character_prompt rt s n p loc mood)
                       (default [] (stored_history sid s))))%nat; [|lia].
  unfold with_system_prompt.
  destruct (default [] (stored_history sid s)) as [|m0 rest]; cbn [length];
    [lia|].
  destruct (String.eqb (role m0) "system"); cbn [length]; lia.
Qed.

(** A call that does not end in an error adds exactly the user turn and
    the assistant turn to a history that starts with a system entry. *)
Lemma successful_call_adds_two (n p m loc : string) (mood : pyfloat)
    (sid : string) (api : ApiOutcome) (s : AIService)
    (m0 : Message) (rest : list Message) (r : Reply) :
  client s = true -> sessions_ok s ->
  stored_history sid s = Some (m0 :: rest) ->
  role m0 = "system" ->
  outcome_of rt n mood api = inr r ->
  String.eqb (status r) "error" = false ->
  let s' := snd (get_character_response rt n p m loc mood sid api s) in
  stored_history sid s'
  = Some (system_message (build_character_prompt rt s n p loc mood)
          :: rest ++ [user_message m; assistant_message (msg r)])
  /\ sessions_ok s' /\ client s' = true.
Proof.
  intros Hc Hok Hh Hrole Hr Hst s'. subst s'.
  destruct (stored_after_call rt n p m loc mood sid api s Hc Hok)
    as (Hs & Hok' & Hc' & _).
  split; [|split; [done|congruence]].
  rewrite Hs, Hh, Hr. cbn [turn_after]. unfold assistant_turn. rewrite Hst.
  cbn [from_option id with_system_prompt]. rewrite Hrole.
  reflexivity.
Qed.

(** C7, as the code has it: after any sequence of calls, clears and
    session queries on a new adapter, a stored history that is not empty
    starts with a system entry holding the prompt built by the last call
    for that session, and holds no other system entry. A further call
    for the session, with whatever mood, writes its prompt over that
    first entry, keeps the other entries and appends the user turn and
    the assistant turn, and no system entry. The first entry it writes is
    the one that was there, for the same character at the same place,
    exactly when the prompt shows the same of the two moods: the value
    with two decimals and the level. *)
Theorem system_prompt_stays_first (client_ok : bool) (ops : list Op)
    (sid : string) (h : list Message) :
  stored_history sid (run rt ops (AI.new rt client_ok)) = Some h ->
  h <> [] ->
  exists prompt rest,
    h = system_message prompt :: rest
    /\ last_prompts rt (AI.new rt client_ok) ops sid = Some prompt
    /\ Forall (fun m' => role m' <> "system") rest
    /\ (forall n p m loc mood api,
          stored_history sid
            (step rt (Respond n p m loc mood sid api)
               (run rt ops (AI.new rt client_ok)))
          = Some (system_message
                    (build_character_prompt rt (AI.new rt client_ok)
                       n p loc mood)
                  :: rest ++ user_message m
                           :: turn_after (outcome_of rt n mood api)))
    /\ (forall n p loc mood0 mood,
          prompt
          = build_character_prompt rt (AI.new rt client_ok) n p loc mood0 ->
          system_message
            (build_character_prompt rt (AI.new rt client_ok) n p loc mood)
          = system_message prompt
          <-> mood_shown rt mood = mood_shown rt mood0).
Proof.
  intros Hh Hne.
  assert (Hstart : prompt_first (fun _ => None) (AI.new rt client_ok)).
  { intros sid' h'. unfold stored_history. simpl. by rewrite lookup_empty. }
  destruct (prompt_first_run (AI.new rt client_ok) ops (AI.new rt client_ok)
              (fun _ => None) eq_refl eq_refl
              (sessions_ok_new rt client_ok) Hstart)
    as (Hcl & Hcfg & Hok & Hinv).
  pose proof (Hinv _ _ Hh) as Hhead. destruct h as [|m0 rest]; [done|].
  destruct Hhead as (prompt & -> & Hp & Hrest). exists prompt, rest.
  split; [done|]. split; [done|]. split; [done|]. split.
  - intros n p m loc mood api. cbn [step].
    destruct client_ok.
    + destruct (stored_after_call rt n p m loc mood sid api
                  (run rt ops (AI.new rt true)) Hcl Hok) as (-> & _).
      rewrite Hh. cbn [from_option id with_system_prompt system_message role].
      cbn [String.eqb Ascii.eqb Bool.eqb]. cbn [app].
      by rewrite (build_prompt_config rt n p loc mood _ (AI.new rt true)).
    + unfold last_prompts in Hp.
      by rewrite (no_client_no_prompt (AI.new rt false) ops) in Hp.
  - intros n p loc mood0 mood ->. unfold system_message. split.
    + intros H.
      apply (f_equal (fun e => match content e with
                               | JStr text => text
                               | _ => EmptyString
                               end)) in H.
      by apply (prompt_eq_iff (AI.new rt client_ok) n p loc mood0 mood).
    + intros H.
      apply (prompt_eq_iff (AI.new rt client_ok) n p loc mood0 mood) in H.
      by rewrite H.
Qed.

End Sessions.

(** ** Examples *)

(** The reply [{"msg":"hi","mood":1.7}] gives the mood 1.0 and status
    success. *)
Lemma reply_for_decoded_object_witness :
  AI.client Sample.ai0 = true
  /\ Sample.reply_mood_high <> EmptyString
  /\ Py.json_loads Sample.rt (Runs.cleaned Sample.reply_mood_high)
     = Some (Py.JObj [("msg", Py.JStr "hi");
                      ("mood", Py.JFloat (Py.Fin (17 # 10)))])
  /\ fst (Sample.respond (Py.Fin (7 # 10)) Sample.reply_mood_high Sample.ai0)
     = inr {| AI.msg := Py.JStr "hi"; AI.mood := Py.Fin 1;
              AI.status := "success"; AI.error := None |}.
Proof.
  split; [reflexivity|].
  split; [vm_compute; discriminate|].
  split; [vm_compute; reflexivity|].
  destruct (reply_for_decoded_object Sample.rt
              "村庄长老" "智慧而和蔼的老人" "你好" "村庄中心" (Py.Fin (7 # 10))
              "char_elder" Sample.ai0 Sample.reply_mood_high []
              [("msg", Py.JStr "hi"); ("mood", Py.JFloat (Py.Fin (17 # 10)))]
              (Py.JStr "hi"))
    as (Hmood & _);
    [reflexivity|vm_compute; discriminate|vm_compute; reflexivity
    |reflexivity|].
  destruct (Hmood (Py.JFloat (Py.Fin (17 # 10))) (Py.Fin (17 # 10)))
    as [Hreply _]; [reflexivity|reflexivity|].
  exact Hreply.
Defined.

(** C4, on the code: a reply that decodes to an object with a usable
    [msg] loses it when its [mood] cannot be converted. For
    [{"msg":"hi","mood":"abc"}], [float] raises ValueError, which the
    handler written for a reply that is not JSON catches: the message
    returned is the whole reply text, with status success_text. For
    [{"msg":"hi","mood":null}], [float] raises TypeError, which only the
    last handler catches: the message is the fallback line, with status
    error. The reply [{"msg":"hi"}] without a mood keeps its message, with
    status success and the prior mood. *)
Theorem unusable_mood_discards_the_message :
  Py.json_loads Sample.rt (Runs.cleaned Sample.reply_mood_text)
  = Some (Py.JObj [("msg", Py.JStr "hi"); ("mood", Py.JStr "abc")])
  /\ fst (Sample.respond (Py.Fin (7 # 10)) Sample.reply_mood_text Sample.ai0)
     = inr {| AI.msg := Py.JStr Sample.reply_mood_text;
              AI.mood := Py.Fin (7 # 10);
              AI.status := "success_text"; AI.error := None |}
  /\ Py.json_loads Sample.rt (Runs.cleaned Sample.reply_mood_null)
     = Some (Py.JObj [("msg", Py.JStr "hi"); ("mood", Py.JNull)])
  /\ (exists r,
        fst (Sample.respond (Py.Fin (7 # 10)) Sample.reply_mood_null
               Sample.ai0) = inr r
        /\ AI.msg r
           = Py.JStr ("村庄长老"
                      +:+ " 看起来有些困惑，不如等 TA 消化一下你说了什么？")
        /\ AI.mood r = Py.Fin (7 # 10)
        /\ AI.status r = "error")
  /\ Py.json_loads Sample.rt (Runs.cleaned Sample.reply_no_mood)
     = Some (Py.JObj [("msg", Py.JStr "hi")])
  /\ fst (Sample.respond (Py.Fin (7 # 10)) Sample.reply_no_mood Sample.ai0)
     = inr {| AI.msg := Py.JStr "hi"; AI.mood := Py.Fin (7 # 10);
              AI.status := "success"; AI.error := None |}.
Proof.
  split; [vm_compute; reflexivity|]. split; [vm_compute; reflexivity|].
  split; [vm_compute; reflexivity|]. split.
  - eexists. split; [vm_compute; reflexivity|].
    split; [vm_compute; reflexivity|]. split; reflexivity.
  - split; vm_compute; reflexivity.
Qed.



(** After a first call, each further successful call of the example adds
    two entries. *)
Lemma respond_times_length (k : nat) :
  forall (s : AI.AIService) (m0 : AI.Message) (rest : list AI.Message),
    AI.client s = true -> Runs.sessions_ok s ->
    AI.stored_history "char_elder" s = Some (m0 :: rest) ->
    AI.role m0 = "system" ->
    (length <$> AI.stored_history "char_elder"
                  (Sample.respond_times k Sample.reply_mood_half s))
    = Some (S (length rest) + 2 * k)%nat.
Proof.
  induction k as [|k IH]; intros s m0 rest Hc Hok Hh Hrole.
  - cbn [Sample.respond_times]. rewrite Hh. cbn [fmap option_fmap option_map length].
    f_equal. lia.
  - cbn [Sample.respond_times].
    destruct (successful_call_adds_two Sample.rt
                "村庄长老" "智慧而和蔼的老人" "你好" "村庄中心" (Py.Fin (7 # 10))
                "char_elder" (AI.ApiResponse [Some Sample.reply_mood_half])
                s m0 rest
                {| AI.msg := Py.JStr "hi"; AI.mood := Py.Fin (5 # 10);
                   AI.status := "success"; AI.error := None |}
                Hc Hok Hh Hrole eq_refl eq_refl) as (Hh' & Hok' & Hc').
    unfold Sample.respond.
    rewrite (IH _ _ _ Hc' Hok' Hh' eq_refl).
    f_equal. rewrite length_app. cbn [length]. lia.
Qed.

(** C1, on the code: after ten successful calls in one session the stored
    history holds 21 entries, and after [n] calls it holds [2 * n + 1]:
    line 153 binds the shortened list to the local name only, the list
    stored under the session key keeps every entry. *)
Theorem stored_history_is_never_truncated :
  (length <$> AI.stored_history "char_elder"
                (Sample.respond_times 10 Sample.reply_mood_half Sample.ai0))
  = Some 21%nat
  /\ fst (Sample.respond (Py.Fin (7 # 10)) Sample.reply_mood_half
            (Sample.respond_times 9 Sample.reply_mood_half Sample.ai0))
     = inr {| AI.msg := Py.JStr "hi"; AI.mood := Py.Fin (5 # 10);
              AI.status := "success"; AI.error := None |}
  /\ forall n,
       (length <$> AI.stored_history "char_elder"
                     (Sample.respond_times (S n) Sample.reply_mood_half
                        Sample.ai0))
       = Some (2 * S n + 1)%nat.
Proof.
  split; [vm_compute; reflexivity|].
  split; [vm_compute; reflexivity|].
  intros n. cbn [Sample.respond_times].
  destruct (stored_after_call Sample.rt
              "村庄长老" "智慧而和蔼的老人" "你好" "村庄中心" (Py.Fin (7 # 10))
              "char_elder" (AI.ApiResponse [Some Sample.reply_mood_half])
              Sample.ai0 eq_refl (sessions_ok_new Sample.rt true))
    as (Hh & Hok & Hc & _).
  unfold Sample.respond.
  erewrite respond_times_length; [|exact Hc|exact Hok|exact Hh|reflexivity].
  f_equal. set (turn := Runs.turn_after _). vm_compute in turn.
  subst turn. cbn [length]. lia.
Qed.

(** A call for the elder with mood 0.7, then one with mood 0.5: the
    stored history then starts with the prompt of the second call, which
    is not the prompt of the first, since the prompt shows 0.50 and the
    level 良好 where it showed 0.70 and 优秀; no system entry is added. *)
Lemma system_prompt_stays_first_witness :
  let first :=
    Runs.Respond "村庄长老" "智慧而和蔼的老人" "你好" "村庄中心" (Py.Fin (7 # 10))
      "char_elder" (AI.ApiResponse [Some Sample.reply_mood_half]) in
  let second :=
    Runs.Respond "村庄长老" "智慧而和蔼的老人" "再见" "村庄中心" (Py.Fin (5 # 10))
      "char_elder" (AI.ApiResponse [Some Sample.reply_mood_half]) in
  exists h prompt rest,
    AI.stored_history "char_elder" (Runs.run Sample.rt [first] Sample.ai0)
    = Some h
    /\ h <> []
    /\ h = Runs.system_message prompt :: rest
    /\ prompt = AI.build_character_prompt Sample.rt Sample.ai0
                  "村庄长老" "智慧而和蔼的老人" "村庄中心" (Py.Fin (7 # 10))
    /\ Runs.mood_shown Sample.rt (Py.Fin (7 # 10)) = "0.70（优秀"
    /\ Runs.mood_shown Sample.rt (Py.Fin (5 # 10)) = "0.50（良好"
    /\ AI.stored_history "char_elder"
         (Runs.run Sample.rt [first; second] Sample.ai0)
       = Some (Runs.system_message
                 (AI.build_character_prompt Sample.rt Sample.ai0
                    "村庄长老" "智慧而和蔼的老人" "村庄中心" (Py.Fin (5 # 10)))
               :: rest ++ [Runs.user_message "再见";
                           Runs.assistant_message (Py.JStr "hi")])
    /\ Runs.system_message
         (AI.build_character_prompt Sample.rt Sample.ai0
            "村庄长老" "智慧而和蔼的老人" "村庄中心" (Py.Fin (5 # 10)))
       <> Runs.system_message prompt
    /\ length rest = 2%nat.
Proof.
  intros first second.
  destruct (AI.stored_history "char_elder"
              (Runs.run Sample.rt [first] Sample.ai0))
    as [h|] eqn:Hh; [|vm_compute in Hh; discriminate].
  assert (Hlen : length h = 3%nat).
  { assert (H3 : length <$> AI.stored_history "char_elder"
                              (Runs.run Sample.rt [first] Sample.ai0)
                 = Some 3%nat)
      by (vm_compute; reflexivity).
    rewrite Hh in H3. by injection H3. }
  assert (Hne : h <> []).
  { intros Hnil. rewrite Hnil in Hlen. discriminate Hlen. }
  destruct (system_prompt_stays_first Sample.rt true [first] "char_elder"
              h Hh Hne)
    as (prompt & rest & -> & Hprompt & _ & Hnext & Hchange).
  assert (Hp : prompt = AI.build_character_prompt Sample.rt Sample.ai0
                          "村庄长老" "智慧而和蔼的老人" "村庄中心"
                          (Py.Fin (7 # 10))).
  { assert (Hlast : Runs.last_prompts Sample.rt (AI.new Sample.rt true)
                      [first] "char_elder"
                    = Some (AI.build_character_prompt Sample.rt Sample.ai0
                              "村庄长老" "智慧而和蔼的老人" "村庄中心"
                              (Py.Fin (7 # 10)))) by reflexivity.
    rewrite Hlast in Hprompt. by injection Hprompt. }
  exists (Runs.system_message prompt :: rest), prompt, rest.
  split; [reflexivity|]. split; [exact Hne|]. split; [reflexivity|].
  split; [exact Hp|].
  split; [vm_compute; reflexivity|]. split; [vm_compute; reflexivity|].
  split; [|split].
  - exact (Hnext "村庄长老" "智慧而和蔼的老人" "再见" "村庄中心" (Py.Fin (5 # 10))
             (AI.ApiResponse [Some Sample.reply_mood_half])).
  - intros Hsame.
    apply (Hchange "村庄长老" "智慧而和蔼的老人" "村庄中心" (Py.Fin (7 # 10))
             (Py.Fin (5 # 10)) Hp) in Hsame.
    vm_compute in Hsame. discriminate Hsame.
  - simpl in Hlen. by injection Hlen.
Defined.

(** C7 as stated fails: a call for the elder with mood 0.701 and then one
    with mood 0.702 leave the same first entry, although the mood has
    changed: the prompt shows 0.70 and the level 优秀 for both. *)
Lemma close_moods_share_the_prompt :
  let first :=
    Runs.Respond "村庄长老" "智慧而和蔼的老人" "你好" "村庄中心"
      (Py.Fin (701 # 1000)) "char_elder"
      (AI.ApiResponse [Some Sample.reply_mood_half]) in
  let second :=
    Runs.Respond "村庄长老" "智慧而和蔼的老人" "再见" "村庄中心"
      (Py.Fin (702 # 1000)) "char_elder"
      (AI.ApiResponse [Some Sample.reply_mood_half]) in
  Py.feq (Py.Fin (701 # 1000)) (Py.Fin (702 # 1000)) = false
  /\ Runs.mood_shown Sample.rt (Py.Fin (701 # 1000)) = "0.70（优秀"
  /\ Runs.mood_shown Sample.rt (Py.Fin (702 # 1000)) = "0.70（优秀"
  /\ exists entry,
       head <$> AI.stored_history "char_elder"
                  (Runs.run Sample.rt [first] Sample.ai0)
       = Some (Some entry)
       /\ head <$> AI.stored_history "char_elder"
                     (Runs.run Sample.rt [first; second] Sample.ai0)
          = Some (Some entry)
       /\ AI.role entry = "system"
       /\ (length <$> AI.stored_history "char_elder"
                         (Runs.run Sample.rt [first; second] Sample.ai0))
          = Some 5%nat.
Proof.
  intros first second.
  split; [reflexivity|]. split; [vm_compute; reflexivity|].
  split; [vm_compute; reflexivity|].
  eexists. split; [vm_compute; reflexivity|].
  split; [vm_compute; reflexivity|]. split; [reflexivity|].
  vm_compute. reflexivity.
Qed.

(* ===================================================================== *)
(** * Further properties of the world model *)
(* ===================================================================== *)

Section Dicts.
Import Py.
Context {A : Type}.

Lemma mem_In (x : string) (l : list string) : mem x l = true <-> In x l.
Proof.
  unfold mem. rewrite existsb_exists. split.
  - intros (y & Hy & Heq). apply String.eqb_eq in Heq. by subst.
  - intros H. exists x. split; [done|apply String.eqb_refl].
Qed.

Lemma mem_not_In (x : string) (l : list string) : mem x l = false <-> ~ In x l.
Proof.
  rewrite <- mem_In. destruct (mem x l); split; intros H; done.
Qed.

Lemma assoc_oset_eq (k : string) (v : A) (d : list (string * A)) :
  assoc k (oset k v d) = Some v.
Proof.
  induction d as [|[k' v'] d IH]; simpl.
  - by rewrite String.eqb_refl.
  - destruct (String.eqb k k') eqn:E; simpl.
    + by rewrite String.eqb_refl.
    + by rewrite E.
Qed.

Lemma assoc_oset_ne (k k' : string) (v : A) (d : list (string * A)) :
  k <> k' -> assoc k' (oset k v d) = assoc k' d.
Proof.
  intros Hne. induction d as [|[k0 v0] d IH]; simpl.
  - destruct (String.eqb_spec k' k); [congruence|done].
  - destruct (String.eqb_spec k k0) as [->|Hk]; simpl.
    + destruct (String.eqb_spec k' k0); [congruence|done].
    + destruct (String.eqb k' k0); [done|apply IH].
Qed.

Lemma assoc_None (k : string) (d : list (string * A)) :
  assoc k d = None <-> ~ In k (map fst d).
Proof.
  induction d as [|[k' v'] d IH]; simpl; [tauto|].
  destruct (String.eqb_spec k k') as [->|Hne].
  - split; [done|]. intros H. destruct H. by left.
  - rewrite IH. split; [intros H [?|?]; [congruence|done]|tauto].
Qed.

Lemma assoc_In (k : string) (v : A) (d : list (string * A)) :
  assoc k d = Some v -> In (k, v) d.
Proof.
  induction d as [|[k' v'] d IH]; simpl; [done|].
  destruct (String.eqb_spec k k') as [->|Hne].
  - intros [= ->]. by left.
  - intros H. right. by apply IH.
Qed.

Lemma In_assoc (k : string) (v : A) (d : list (string * A)) :
  NoDup (map fst d) -> In (k, v) d -> assoc k d = Some v.
Proof.
  induction d as [|[k' v'] d IH]; simpl; [done|].
  intros Hnd [Heq|Hin].
  - injection Heq as -> ->. by rewrite String.eqb_refl.
  - apply NoDup_cons in Hnd as [Hk' Hnd].
    destruct (String.eqb_spec k k') as [->|Hne]; [|by apply IH].
    exfalso. apply Hk'. apply list_elem_of_In.
    change k' with (fst (k', v)). by apply in_map.
Qed.

(** Assigning to a key keeps the keys and their order, or appends the key
    when it is new. *)
Lemma keys_oset (k : string) (v : A) (d : list (string * A)) :
  map fst (oset k v d)
  = if mem k (map fst d) then map fst d else map fst d ++ [k].
Proof.
  induction d as [|[k' v'] d IH]; simpl; [done|].
  destruct (String.eqb_spec k k') as [->|Hne]; simpl; [done|].
  rewrite IH. by destruct (mem k (map fst d)).
Qed.

Lemma assoc_odel_eq (k : string) (d : list (string * A)) :
  NoDup (map fst d) -> assoc k (odel k d) = None.
Proof.
  induction d as [|[k' v'] d IH]; simpl; [done|].
  intros Hnd. apply NoDup_cons in Hnd as [Hk' Hnd].
  destruct (String.eqb_spec k k') as [->|Hne]; simpl.
  - apply assoc_None. by rewrite <- list_elem_of_In.
  - destruct (String.eqb_spec k k'); [done|]. by apply IH.
Qed.

Lemma assoc_odel_ne (k k' : string) (d : list (string * A)) :
  k <> k' -> assoc k' (odel k d) = assoc k' d.
Proof.
  intros Hne. induction d as [|[k0 v0] d IH]; simpl; [done|].
  destruct (String.eqb_spec k k0) as [->|Hk]; simpl.
  - destruct (String.eqb_spec k' k0); [congruence|done].
  - destruct (String.eqb k' k0); [done|apply IH].
Qed.

End Dicts.

Section Presence.
Import Py World.

Lemma with_characters_same (l : Location) : with_characters (characters l) l = l.
Proof. by destruct l. Qed.

Lemma list_remove_absent (x : string) (l : list string) :
  ~ In x l -> list_remove x l = l.
Proof.
  induction l as [|y l IH]; simpl; [done|]. intros H.
  destruct (String.eqb_spec x y) as [->|Hne]; [tauto|]. f_equal. tauto.
Qed.

Lemma list_remove_app_last (x : string) (l : list string) :
  ~ In x l -> list_remove x (l ++ [x]) = l.
Proof.
  induction l as [|y l IH]; simpl.
  - by rewrite String.eqb_refl.
  - intros H. destruct (String.eqb_spec x y) as [->|Hne]; [tauto|].
    f_equal. tauto.
Qed.

Lemma In_list_remove (x y : string) (l : list string) :
  In y (list_remove x l) -> In y l.
Proof.
  induction l as [|z l IH]; simpl; [done|].
  destruct (String.eqb x z); simpl; tauto.
Qed.

Lemma list_remove_NoDup (x : string) (l : list string) :
  NoDup l -> NoDup (list_remove x l) /\ ~ In x (list_remove x l).
Proof.
  induction l as [|y l IH]; simpl; [intros _; split; [apply NoDup_nil_2|tauto]|].
  intros Hnd. apply NoDup_cons in Hnd as [Hy Hnd].
  rewrite list_elem_of_In in Hy.
  destruct (String.eqb_spec x y) as [->|Hne]; [done|].
  destruct (IH Hnd) as [IH1 IH2]. split.
  - apply NoDup_cons. split; [|done]. rewrite list_elem_of_In.
    intros H. by apply In_list_remove in H.
  - simpl. intros [Heq|Hin']; [by subst|done].
Qed.

Lemma remove_add_character (character_id : string) (l : Location) :
  ~ In character_id (characters l) ->
  remove_character character_id (add_character character_id l) = l.
Proof.
  intros Habsent. unfold add_character. pose proof Habsent as Hm.
  apply mem_not_In in Hm. rewrite Hm.
  unfold remove_character. simpl.
  assert (Hlast : mem character_id (characters l ++ [character_id]) = true).
  { apply mem_In, in_or_app. right. by left. }
  rewrite Hlast. rewrite list_remove_app_last by done.
  by destruct l.
Qed.

(** X1: adding a character to a location puts it in the presence list,
    at the end when it is new, and any number of times the same id leaves
    one entry: adding again changes nothing and a list without duplicates
    stays so. Name, description and exits are untouched. *)
Theorem add_character_is_idempotent (character_id : string) (l : Location) :
  In character_id (characters (add_character character_id l))
  /\ add_character character_id (add_character character_id l)
     = add_character character_id l
  /\ (In character_id (characters l) -> add_character character_id l = l)
  /\ (~ In character_id (characters l) ->
      characters (add_character character_id l)
      = characters l ++ [character_id])
  /\ (NoDup (characters l) ->
      NoDup (characters (add_character character_id l)))
  /\ Plays.layout (add_character character_id l) = Plays.layout l.
Proof.
  assert (Hin : In character_id (characters (add_character character_id l))).
  { unfold add_character.
    destruct (mem character_id (characters l)) eqn:E.
    - by apply mem_In.
    - simpl. apply in_or_app. right. by left. }
  split; [done|]. split; [|split; [|split; [|split]]].
  - unfold add_character at 1. apply mem_In in Hin. by rewrite Hin.
  - intros H. unfold add_character. apply mem_In in H. by rewrite H.
  - intros H. unfold add_character. apply mem_not_In in H. by rewrite H.
  - intros Hnd. unfold add_character.
    destruct (mem character_id (characters l)) eqn:E; [done|]. simpl.
    apply mem_not_In in E. apply NoDup_app. split; [done|].
    split; [|apply NoDup_singleton].
    intros x Hx Hx'. apply list_elem_of_In in Hx.
    apply list_elem_of_In in Hx'. destruct Hx' as [<-|[]]. done.
  - unfold add_character. by destruct (mem character_id (characters l)).
Qed.

(** X2: removing a character that is not at a location changes nothing;
    removing one just added to a location it was not at gives the
    location back; and after a removal from a list without duplicates the
    id is gone. *)
Theorem remove_character_undoes_add (character_id : string) (l : Location) :
  (~ In character_id (characters l) ->
   remove_character character_id l = l
   /\ remove_character character_id (add_character character_id l) = l)
  /\ (NoDup (characters l) ->
      ~ In character_id (characters (remove_character character_id l))
      /\ NoDup (characters (remove_character character_id l)))
  /\ Plays.layout (remove_character character_id l) = Plays.layout l.
Proof.
  split; [|split].
  - intros Habsent. split.
    + unfold remove_character. apply mem_not_In in Habsent.
      by rewrite Habsent.
    + by apply remove_add_character.
  - intros Hnd. unfold remove_character.
    destruct (mem character_id (characters l)) eqn:E; simpl.
    + destruct (list_remove_NoDup character_id _ Hnd). done.
    + split; [by apply mem_not_In|done].
  - unfold remove_character. by destruct (mem character_id (characters l)).
Qed.

End Presence.

Section WorldRuns.
Import Py World Plays.

Lemma initial_exits_closed : exits_closed World.new.
Proof.
  intros id l d target Hl Hd. unfold World.new, _initialize_world in *.
  cbn [locations] in *.
  repeat (rewrite lookup_insert in Hl; case_decide;
          [injection Hl as <-; cbn in Hd;
           repeat (match type of Hd with
                   | (if ?b then _ else _) = _ => destruct b
                   end; [injection Hd as <-; eexists; reflexivity|]);
           discriminate Hd|]).
  by rewrite lookup_empty in Hl.
Qed.

Lemma same_layout_closed (w : WorldService) : same_layout w -> exits_closed w.
Proof.
  intros Hsame id l d target Hl Hd.
  pose proof (Hsame id) as Hid. rewrite Hl in Hid.
  destruct (locations World.new !! id) as [l0|] eqn:E0;
    [|discriminate Hid].
  injection Hid as _ _ Hexits. rewrite Hexits in Hd.
  destruct (initial_exits_closed id l0 d target E0 Hd) as [t0 Ht0].
  pose proof (Hsame target) as Ht. rewrite Ht0 in Ht.
  destruct (locations w !! target); [by eexists|done].
Qed.

Lemma same_layout_start (w : WorldService) :
  same_layout w -> is_Some (locations w !! "village_center").
Proof.
  intros Hsame. pose proof (Hsame "village_center") as H.
  destruct (locations w !! "village_center"); [by eexists|done].
Qed.

Lemma move_to_keeps_locations (d : string) (w : WorldService) :
  locations (snd (move_to d w)) = locations w.
Proof.
  unfold move_to. destruct (get_current_location w) as [l|]; [|done].
  destruct (assoc (normalize d) (exits l)) as [t|]; [|done].
  by destruct (locations w !! t).
Qed.

Lemma move_to_keeps_pointer_valid (d : string) (w : WorldService) :
  is_Some (get_current_location w) ->
  is_Some (get_current_location (snd (move_to d w))).
Proof.
  intros Hcur. unfold move_to.
  destruct (get_current_location w) as [l|] eqn:E; [|done].
  destruct (assoc (normalize d) (exits l)) as [t|];
    [|cbn [snd]; by rewrite E].
  destruct (locations w !! t) as [lt|] eqn:Et; [|cbn [snd]; by rewrite E].
  unfold get_current_location. cbn. rewrite Et. by eexists.
Qed.

(** Changing who is at a location keeps the layout and the pointer. *)
Lemma presence_change_keeps_layout (f : Location -> Location)
    (id : string) (w : WorldService) (l : Location) :
  (forall l', layout (f l') = layout l') ->
  locations w !! id = Some l ->
  let w' := {| locations := <[id := f l]> (locations w);
               current_location := current_location w |} in
  (same_layout w -> same_layout w')
  /\ (is_Some (get_current_location w) -> is_Some (get_current_location w')).
Proof.
  intros Hf Hl w'. split.
  - intros Hsame id'. subst w'. cbn. rewrite lookup_insert. case_decide.
    + subst. cbn. rewrite Hf. rewrite <- Hsame. by rewrite Hl.
    + apply Hsame.
  - unfold get_current_location. subst w'. cbn.
    rewrite lookup_insert. case_decide; [by eexists|done].
Qed.

Lemma layout_add_character cid l : layout (add_character cid l) = layout l.
Proof. unfold add_character. by destruct (mem cid (characters l)). Qed.

Lemma layout_remove_character cid l : layout (remove_character cid l) = layout l.
Proof. unfold remove_character. by destruct (mem cid (characters l)). Qed.

Lemma world_step_keeps (op : WorldOp) (w : WorldService) :
  same_layout w -> is_Some (get_current_location w) ->
  same_layout (world_step op w)
  /\ is_Some (get_current_location (world_step op w)).
Proof.
  intros Hsame Hcur. destruct op as [d|cid loc|cid loc|]; cbn [world_step].
  - split; [|by apply move_to_keeps_pointer_valid].
    intros id. rewrite move_to_keeps_locations. apply Hsame.
  - unfold add_character_to_location.
    destruct (locations w !! default (current_location w) loc) as [l|] eqn:E;
      [|done].
    destruct (presence_change_keeps_layout (add_character cid) _ w l
                (layout_add_character cid) E). auto.
  - unfold remove_character_from_location.
    destruct (locations w !! default (current_location w) loc) as [l|] eqn:E;
      [|done].
    destruct (presence_change_keeps_layout (remove_character cid) _ w l
                (layout_remove_character cid) E). auto.
  - split; [done|]. unfold get_current_location. cbn.
    by apply same_layout_start.
Qed.

Lemma world_run_keeps (ops : list WorldOp) :
  forall w,
    same_layout w -> is_Some (get_current_location w) ->
    same_layout (world_run ops w)
    /\ is_Some (get_current_location (world_run ops w)).
Proof.
  induction ops as [|op ops IH]; intros w Hsame Hcur; [done|].
  cbn [world_run fold_left].
  destruct (world_step_keeps op w Hsame Hcur). by apply IH.
Qed.

(** In a world with the initial layout, a move succeeds exactly when the
    normal form of the direction is one of the available directions. *)
Lemma move_to_succeeds_iff (d : string) (w : WorldService) :
  same_layout w ->
  fst (fst (move_to d w)) = true
  <-> In (normalize d) (get_available_directions w).
Proof.
  intros Hsame. unfold move_to, get_available_directions.
  destruct (get_current_location w) as [l|] eqn:E; [|done].
  destruct (assoc (normalize d) (exits l)) as [t|] eqn:Et.
  - destruct (same_layout_closed w Hsame _ l _ t E Et) as [lt Hlt].
    rewrite Hlt. cbn. split; [intros _|done].
    apply assoc_In in Et. apply (in_map fst) in Et. exact Et.
  - cbn. split; [done|]. intros Hin. by apply assoc_None in Et.
Qed.

(** X3: adding a character to a location named by an unknown id changes
    nothing; otherwise it changes the presence list of that one location
    (the current one when no id is given) and neither the pointer nor any
    other location, and removing the character again gives the world
    back when it was not there before. *)
Theorem presence_touches_one_location (character_id : string)
    (location_id : option string) (w : WorldService) :
  let id := default (current_location w) location_id in
  let w' := add_character_to_location character_id location_id w in
  current_location w' = current_location w
  /\ (locations w !! id = None -> w' = w)
  /\ (is_Some (locations w !! id) -> In character_id (present_at id w'))
  /\ (forall id', id' <> id -> locations w' !! id' = locations w !! id')
  /\ (~ In character_id (present_at id w) ->
      remove_character_from_location character_id (Some id) w' = w).
Proof.
  intros id w'. subst w'. unfold add_character_to_location. fold id.
  destruct (locations w !! id) as [l|] eqn:E.
  - cbn. split; [done|]. split; [done|]. split; [|split].
    + intros _. unfold present_at. cbn. rewrite lookup_insert_eq.
      unfold add_character. destruct (mem character_id (characters l)) eqn:Em.
      * by apply mem_In.
      * cbn. apply in_or_app. right. by left.
    + intros id' Hne. by rewrite lookup_insert_ne.
    + unfold present_at. rewrite E. intros Habsent.
      unfold remove_character_from_location. cbn. rewrite lookup_insert_eq.
      rewrite insert_insert_eq.
      rewrite remove_add_character, insert_id by done. by destruct w.
  - split; [done|]. split; [done|]. split; [by intros [? ?]|].
    split; [done|]. intros _.
    unfold remove_character_from_location. cbn. by rewrite E.
Qed.

(** X4: after any sequence of moves, presence changes and resets on the
    initial world, the locations and their exits are those of the start,
    the pointer names a location, every exit leads to a location, and a
    move succeeds exactly when the normal form of its direction is one of
    the available directions. *)
Theorem world_stays_well_formed (ops : list WorldOp) :
  let w := world_run ops World.new in
  same_layout w
  /\ is_Some (get_current_location w)
  /\ exits_closed w
  /\ forall d,
       fst (fst (move_to d w)) = true
       <-> In (normalize d) (get_available_directions w).
Proof.
  intros w.
  destruct (world_run_keeps ops World.new) as [Hsame Hcur].
  - done.
  - by eexists.
  - split; [done|]. split; [done|].
    split; [by apply same_layout_closed|].
    intros d. by apply move_to_succeeds_iff.
Qed.

End WorldRuns.

(* ===================================================================== *)
(** * Further properties of the character registry *)
(* ===================================================================== *)

Section RegistryProperties.
Import Py Character Plays.

(** X5: [update_mood] leaves a mood of [0, 1] whatever it is given, the
    infinities and NaN included (-5 gives 0, 5 gives 1, NaN gives 1), keeps
    a value strictly between 0 and 1 as it is, and touches nothing else
    of the character. *)
Theorem update_mood_stays_in_range (x : pyfloat) (c : Character) :
  mood_in_range (mood (update_mood x c))
  /\ set_mood (mood c) (update_mood x c) = c
  /\ mood (update_mood (Fin (-5)) c) = Fin 0
  /\ mood (update_mood (Fin 5) c) = Fin 1
  /\ mood (update_mood PosInf c) = Fin 1
  /\ mood (update_mood NegInf c) = Fin 0
  /\ mood (update_mood NaN c) = Fin 1
  /\ forall q : Q, (0 < q)%Q -> (q < 1)%Q ->
       mood (update_mood (Fin q) c) = Fin q.
Proof.
  split; [apply clamp_range|]. split; [by destruct c|].
  repeat (split; [reflexivity|]).
  intros q H0 H1. cbn. unfold py_max, py_min. cbn [flt].
  apply Qltb_lt in H0, H1. rewrite H1. cbn [flt]. by rewrite H0.
Qed.

Lemma odel_absent {A} (k : string) (d : list (string * A)) :
  assoc k d = None -> odel k d = d.
Proof.
  induction d as [|[k' v'] d IH]; simpl; [done|].
  destruct (String.eqb k k'); [done|]. intros H. f_equal. by apply IH.
Qed.

(** X6: a character added to the registry is found under its id, in the
    place of a character that had the id or else last, and no other id is
    affected; removing an id that is not registered changes nothing, and
    after removing an id from a registry with distinct ids, the id is not
    found and every other id is found as before. *)
Theorem registry_add_get_remove (c : Character) (s : CharacterService) :
  get_character (character_id c) (add_character c s) = Some c
  /\ (forall id, id <> character_id c ->
        get_character id (add_character c s) = get_character id s)
  /\ map fst (characters (add_character c s))
     = (if mem (character_id c) (map fst (characters s))
        then map fst (characters s)
        else map fst (characters s) ++ [character_id c])
  /\ (forall id, get_character id s = None -> remove_character id s = s)
  /\ (forall id id', id <> id' ->
        get_character id' (remove_character id s) = get_character id' s)
  /\ (NoDup (map fst (characters s)) ->
      forall id, get_character id (remove_character id s) = None).
Proof.
  unfold get_character, add_character, remove_character. cbn.
  split; [apply assoc_oset_eq|].
  split; [intros id Hne; by apply assoc_oset_ne|].
  split; [apply keys_oset|].
  split; [intros id Hnone; rewrite odel_absent by done; by destruct s|].
  split; [intros id id' Hne; by apply assoc_odel_ne|].
  intros Hnd id. by apply assoc_odel_eq.
Qed.

Lemma on_character_lookup (cid : string) (f : Character -> Character)
    (s : CharacterService) :
  get_character cid (on_character cid f s) = f <$> get_character cid s.
Proof.
  unfold on_character, get_character.
  destruct (assoc cid (characters s)) as [c|] eqn:E; cbn.
  - apply assoc_oset_eq.
  - by rewrite E.
Qed.

Lemma on_character_other (cid id : string) (f : Character -> Character)
    (s : CharacterService) :
  id <> cid ->
  get_character id (on_character cid f s) = get_character id s.
Proof.
  intros Hne. unfold on_character, get_character.
  destruct (assoc cid (characters s)) as [c|] eqn:E; cbn; [|done].
  by apply assoc_oset_ne.
Qed.

Lemma on_character_keys (cid : string) (f : Character -> Character)
    (s : CharacterService) :
  map fst (characters (on_character cid f s)) = map fst (characters s).
Proof.
  unfold on_character.
  destruct (assoc cid (characters s)) as [c|] eqn:E; cbn; [|done].
  rewrite keys_oset.
  assert (Hin : mem cid (map fst (characters s)) = true); [|by rewrite Hin].
  apply mem_In. destruct (mem cid (map fst (characters s))) eqn:Em.
  - by apply mem_In.
  - apply mem_not_In, assoc_None in Em. congruence.
Qed.

Lemma on_character_absent (cid : string) (f : Character -> Character)
    (s : CharacterService) :
  get_character cid s = None -> on_character cid f s = s.
Proof. unfold on_character, get_character. by intros ->. Qed.

(** What [on_character] does to the entries of the registry. *)
Lemma on_character_Forall (P : Character -> Prop) (cid : string)
    (f : Character -> Character) (s : CharacterService) :
  (forall c, P c -> P (f c)) ->
  Forall (fun kv => P (snd kv)) (characters s) ->
  Forall (fun kv => P (snd kv)) (characters (on_character cid f s)).
Proof.
  intros Hf Hall. unfold on_character.
  destruct (assoc cid (characters s)) as [c|] eqn:E; cbn; [|done].
  assert (Hc : P (f c)).
  { apply Hf. apply assoc_In in E. rewrite Forall_forall in Hall.
    apply list_elem_of_In in E. by apply (Hall _ E). }
  clear E. induction Hall as [|[k v] d Hv Hd IH]; cbn.
  - by constructor.
  - destruct (String.eqb cid k); constructor; done.
Qed.

(** X7: [update_character_mood] and [move_character] do nothing for an
    id that is not registered; for a registered one they change that
    character alone (its mood, clamped, or its location), keep the ids
    and their order, and the moved character is listed at its new
    location. *)
Theorem registry_updates_one_character (cid : string) (x : pyfloat)
    (new_location : string) (s : CharacterService) :
  (get_character cid s = None ->
   update_character_mood cid x s = s /\ move_character cid new_location s = s)
  /\ (forall c, get_character cid s = Some c ->
        get_character cid (update_character_mood cid x s)
        = Some (update_mood x c)
        /\ get_character cid (move_character cid new_location s)
           = Some (set_location new_location c)
        /\ In cid (get_character_list_for_location new_location
                     (move_character cid new_location s)))
  /\ (forall id, id <> cid ->
        get_character id (update_character_mood cid x s) = get_character id s
        /\ get_character id (move_character cid new_location s)
           = get_character id s)
  /\ map fst (characters (update_character_mood cid x s))
     = map fst (characters s)
  /\ map fst (characters (move_character cid new_location s))
     = map fst (characters s).
Proof.
  unfold update_character_mood, move_character.
  split; [intros Hnone; by rewrite !on_character_absent|].
  split; [|split; [|split; apply on_character_keys]].
  - intros c Hc. rewrite !on_character_lookup, Hc. cbn.
    split; [done|]. split; [done|].
    unfold get_character_list_for_location, get_characters_in_location.
    apply (in_map fst _ (cid, set_location new_location c)).
    apply list_elem_of_In, list_elem_of_filter. split.
    + cbn. apply String.eqb_refl.
    + apply list_elem_of_In. apply assoc_In.
      pose proof (on_character_lookup cid (set_location new_location) s) as H.
      unfold get_character in H. rewrite H.
      unfold get_character in Hc. by rewrite Hc.
  - intros id Hne. by rewrite !on_character_other.
Qed.

Context (rt : Builtins).

(** X8: [reset_all_moods] moves nobody and renames nobody: ids, their
    order, names, personalities and locations stay, so each location
    lists the same characters; resetting twice is resetting once, and the
    result does not depend on the moods and histories before. *)
Theorem reset_all_moods_keeps_places (s : CharacterService) :
  map (fun kv => (fst kv, name (snd kv), personality (snd kv),
                  location (snd kv)))
      (characters (reset_all_moods rt s))
  = map (fun kv => (fst kv, name (snd kv), personality (snd kv),
                    location (snd kv)))
        (characters s)
  /\ (forall loc,
        get_character_list_for_location loc (reset_all_moods rt s)
        = get_character_list_for_location loc s)
  /\ reset_all_moods rt (reset_all_moods rt s) = reset_all_moods rt s
  /\ (forall cid x,
        reset_all_moods rt (update_character_mood cid x s)
        = reset_all_moods rt s).
Proof.
  split; [|split; [|split]].
  - cbn. rewrite map_map. reflexivity.
  - intros loc. unfold get_character_list_for_location,
      get_characters_in_location, reset_all_moods. cbn.
    induction (characters s) as [|[k c] d IH]; [done|].
    cbn [map]. rewrite !filter_cons. cbn.
    destruct (decide ((location c =? loc)%string = true)); cbn;
      by rewrite IH.
  - unfold reset_all_moods. cbn. f_equal. rewrite map_map.
    apply map_ext. by intros [k c].
  - intros cid x. unfold reset_all_moods, update_character_mood, on_character.
    destruct (assoc cid (characters s)) as [c|] eqn:E; [|done]. cbn. f_equal.
    revert E. induction (characters s) as [|[k v] d IH]; cbn; [done|].
    destruct (String.eqb_spec cid k) as [->|Hne]; cbn.
    + by intros [= ->].
    + intros E. by rewrite IH.
Qed.

End RegistryProperties.

Section ContextProperties.
Import Py Character.
Context (rt : Builtins).

Lemma lastn_lastn {A} (n k : nat) (l : list A) :
  (n <= k)%nat -> lastn n (lastn k l) = lastn n l.
Proof.
  intros Hle. unfold lastn. rewrite length_drop, drop_drop. f_equal. lia.
Qed.

Lemma lastn_snoc {A} (n : nat) (l : list A) (x : A) :
  lastn (S n) (l ++ [x]) = lastn n l ++ [x].
Proof.
  unfold lastn. rewrite length_app. cbn [length].
  replace (length l + 1 - S n)%nat with (length l - n)%nat by lia.
  rewrite drop_app_le by lia. reflexivity.
Qed.

Lemma lastn_nil_inv {A} (n : nat) (l : list A) :
  (0 < n)%nat -> lastn n l = [] -> l = [].
Proof.
  intros Hn H. apply (f_equal length) in H. rewrite length_lastn in H.
  destruct l as [|a l]; [done|]. cbn [length] in H. lia.
Qed.

(** The two lines of one turn. *)
Lemma context_of_history (c : Character) (m : Turn) (h : list Turn) :
  conversation_history c = m :: h ->
  get_conversation_context rt c
  = join nl
      (flat_map
         (fun conv =>
            ["玩家: " +:+ user conv; name c +:+ ": " +:+ str_of rt (ai conv)])
         (lastn 3 (m :: h))).
Proof. intros H. unfold get_conversation_context. by rewrite H. Qed.

(** X9: the conversation context of a character without history is
    empty; otherwise it is made of the newest three turns only, oldest
    first, and after a turn is added it ends with the two lines of that
    turn, after those of the two turns before it. *)
Theorem conversation_context_shows_newest_turns (c : Character) :
  (conversation_history c = [] ->
   get_conversation_context rt c = EmptyString)
  /\ get_conversation_context rt c
     = get_conversation_context rt
         (set_conversation_history (lastn 3 (conversation_history c)) c)
  /\ forall u a,
       get_conversation_context rt (add_conversation u a c)
       = join nl
           (flat_map
              (fun conv =>
                 ["玩家: " +:+ user conv;
                  name c +:+ ": " +:+ str_of rt (ai conv)])
              (lastn 2 (conversation_history c))
            ++ ["玩家: " +:+ u; name c +:+ ": " +:+ str_of rt a]).
Proof.
  split; [|split].
  - intros H. unfold get_conversation_context. by rewrite H.
  - destruct (conversation_history c) as [|m h] eqn:E.
    + unfold get_conversation_context. cbn. by rewrite E.
    + rewrite (context_of_history c m h E).
      destruct (lastn 3 (m :: h)) as [|m' h'] eqn:E3.
      { by apply lastn_nil_inv in E3; [|lia]. }
      rewrite (context_of_history (set_conversation_history (m' :: h') c)
                 m' h' eq_refl).
      rewrite <- E3, lastn_lastn by lia. reflexivity.
  - intros u a.
    pose proof (add_conversation_history u a c) as Hh.
    destruct (conversation_history (add_conversation u a c)) as [|m h] eqn:E.
    { symmetry in Hh. apply lastn_nil_inv in Hh; [|lia].
      by destruct (conversation_history c). }
    rewrite (context_of_history _ m h E), Hh.
    rewrite lastn_lastn by lia. rewrite (lastn_snoc 2).
    rewrite flat_map_app. cbn [flat_map app].
    assert (Hname : name (add_conversation u a c) = name c).
    { unfold add_conversation. by case_decide. }
    by rewrite Hname.
Qed.

End ContextProperties.

(* ===================================================================== *)
(** * Further properties of the dialogue adapter *)
(* ===================================================================== *)

Section Fences.
Import Py AI.

Lemma str_drop_end_app (x : string) :
  str_drop_end 3 (x +:+ "```") = x.
Proof.
  unfold str_drop_end. rewrite list_ascii_of_string_app, length_app.
  cbn [list_ascii_of_string length].
  replace (length (list_ascii_of_string x) + 3 - 3)%nat
    with (length (list_ascii_of_string x)) by lia.
  rewrite take_app_length. apply string_of_list_ascii_of_string.
Qed.

Lemma endswith_app (x : string) : endswith "```" (x +:+ "```") = true.
Proof.
  unfold endswith, str_rev. rewrite list_ascii_of_string_app, rev_app_distr.
  cbn. by destruct (string_of_list_ascii (rev (list_ascii_of_string x))).
Qed.

Lemma startswith_fence (x : string) : startswith "```json" ("```json" +:+ x) = true.
Proof. unfold startswith. cbn. by destruct x. Qed.

Lemma str_drop_prefix (x : string) : str_drop 7 ("```json" +:+ x) = x.
Proof. unfold str_drop. cbn. apply string_of_list_ascii_of_string. Qed.

Lemma strip_fences_fenced (body : string) :
  strip_fences ("```json" +:+ body +:+ "```") = body.
Proof.
  unfold strip_fences.
  rewrite startswith_fence, str_drop_prefix, endswith_app.
  apply str_drop_end_app.
Qed.

End Fences.

Section AdapterProperties.
Import Py Eff AI Runs Plays.
Context (rt : Builtins) (n p m loc : string) (mood : pyfloat) (sid : string).

(** The shape of every reply of a call with a client. *)
Lemma reply_of_shape (api : ApiOutcome) (r : Reply) :
  outcome_of rt n mood api = inr r ->
  In (status r) ["success"; "success_text"; "error"]
  /\ (status r = "success" -> mood_in_range (AI.mood r))
  /\ (status r <> "success" -> AI.mood r = mood)
  /\ (status r = "error" <-> is_Some (error r)).
Proof.
  assert (Herr : forall e,
             let r := error_reply rt n mood e in
             In (status r) ["success"; "success_text"; "error"]
             /\ (status r = "success" -> mood_in_range (AI.mood r))
             /\ (status r <> "success" -> AI.mood r = mood)
             /\ (status r = "error" <-> is_Some (error r))).
  { intros e. cbn. split; [tauto|]. split; [done|]. split; [done|].
    split; [by eexists|done]. }
  assert (Htext : forall c,
             let r := text_reply mood c in
             In (status r) ["success"; "success_text"; "error"]
             /\ (status r = "success" -> mood_in_range (AI.mood r))
             /\ (status r <> "success" -> AI.mood r = mood)
             /\ (status r = "error" <-> is_Some (error r))).
  { intros c. cbn. split; [tauto|]. split; [done|]. split; [done|].
    split; [done|by intros [? ?]]. }
  assert (Hon : forall c e,
             let r := reply_on rt n mood c e in
             In (status r) ["success"; "success_text"; "error"]
             /\ (status r = "success" -> mood_in_range (AI.mood r))
             /\ (status r <> "success" -> AI.mood r = mood)
             /\ (status r = "error" <-> is_Some (error r))).
  { intros c e. unfold reply_on. destruct (is_ValueError e); auto. }
  unfold outcome_of.
  destruct api as [e|[|[c|] more]|x]; intros [= <-]; auto.
  destruct (String.eqb c EmptyString); auto.
  unfold decoded_reply.
  destruct (json_loads rt (cleaned c)) as [v|]; auto.
  destruct (py_in "msg" v) as [e|[|]]; auto.
  destruct (py_get v "mood" (JFloat mood)) as [e|mv]; auto.
  destruct (py_float rt mv) as [e|x]; auto.
  destruct (py_getitem v "msg") as [e|reply_msg]; auto.
  cbn. split; [tauto|]. split; [intros _; apply clamp_range|].
  split; [done|]. split; [done|by intros [? ?]].
Qed.

(** A call returns a reply unless, with a client, the request is left
    by an exception outside [Exception]. *)
Lemma call_returns (api : ApiOutcome) (s : AIService) :
  client s = false \/ (forall x, api <> ApiExits x) ->
  exists r,
    fst (get_character_response rt n p m loc mood sid api s) = inr r
    /\ (mood_in_range (AI.mood r) \/ AI.mood r = mood).
Proof.
  intros Hcase. destruct (client s) eqn:Hc.
  - destruct Hcase as [Hf|Hapi]; [done|].
    rewrite reply_with_client by done.
    destruct (outcome_of rt n mood api) as [e|r] eqn:Hr.
    { unfold outcome_of in Hr.
      destruct api as [e'|[|[c|] more]|x]; try discriminate Hr.
      by destruct (Hapi x). }
    exists r. split; [done|].
    destruct (reply_of_shape api r Hr) as (_ & H2 & H3 & _).
    destruct (String.eqb_spec (status r) "success"); [left; auto|right; auto].
  - rewrite (call_without_client rt n p m loc mood sid api s Hc).
    eexists. split; [reflexivity|]. by right.
Qed.

(** A call keeps the sessions well formed, however it ends. *)
Lemma call_keeps_sessions_ok (api : ApiOutcome) (s : AIService) :
  sessions_ok s ->
  sessions_ok (snd (get_character_response rt n p m loc mood sid api s)).
Proof.
  intros Hok. destruct (client s) eqn:Hc.
  - by destruct (stored_after_call rt n p m loc mood sid api s Hc Hok)
      as (_ & Hok' & _).
  - by rewrite (call_without_client rt n p m loc mood sid api s Hc).
Qed.

(** A call that does not return is left by the exception that left the
    request. *)
Lemma call_exits (api : ApiOutcome) (s : AIService) (e : raised) :
  fst (get_character_response rt n p m loc mood sid api s) = inl e ->
  client s = true /\ exists x, api = ApiExits x /\ e = Exited x.
Proof.
  intros He. destruct (client s) eqn:Hc.
  - split; [done|]. rewrite reply_with_client in He by done.
    unfold outcome_of in He.
    destruct api as [e'|[|[c|] more]|x]; try discriminate He.
    injection He as <-. by exists x.
  - by rewrite (call_without_client rt n p m loc mood sid api s Hc) in He.
Qed.

(** X10: a call catches every exception of class Exception: whatever
    the state, for every response of the endpoint and every such
    exception raised by the request, and always without a client, it
    returns a reply whose status is success, success_text or error; the
    mood of a success reply lies in [0, 1], the mood of any other reply
    is the caller's; the error field is set exactly for status error;
    and without a client the reply is an error and the state is left as
    it was. An exception outside Exception that leaves the request
    (CancelledError, KeyboardInterrupt, SystemExit) is not caught: with a
    client it leaves the call, after the system prompt and the user turn
    have been stored. *)
Theorem call_returns_unless_exited (api : ApiOutcome) (s : AIService) :
  (client s = false \/ (forall x, api <> ApiExits x) ->
   exists r,
     fst (get_character_response rt n p m loc mood sid api s) = inr r
     /\ In (status r) ["success"; "success_text"; "error"]
     /\ (status r = "success" -> mood_in_range (AI.mood r))
     /\ (status r <> "success" -> AI.mood r = mood)
     /\ (status r = "error" <-> is_Some (error r))
     /\ (client s = false ->
         status r = "error"
         /\ snd (get_character_response rt n p m loc mood sid api s) = s))
  /\ (forall x,
        client s = true ->
        api = ApiExits x ->
        fst (get_character_response rt n p m loc mood sid api s)
        = inl (Exited x)
        /\ (sessions_ok s ->
            stored_history sid
              (snd (get_character_response rt n p m loc mood sid api s))
            = Some (with_system_prompt
                      (build_character_prompt rt s n p loc mood)
                      (default [] (stored_history sid s))
                    ++ [user_message m]))).
Proof.
  split.
  - intros Hcase. destruct (client s) eqn:Hc.
    + destruct Hcase as [Hf|Hapi]; [done|].
      rewrite reply_with_client by done.
      destruct (outcome_of rt n mood api) as [e|r] eqn:Hr.
      { unfold outcome_of in Hr.
        destruct api as [e'|[|[c|] more]|x]; try discriminate Hr.
        by destruct (Hapi x). }
      exists r. split; [done|].
      destruct (reply_of_shape api r Hr) as (H1 & H2 & H3 & H4). done.
    + rewrite (call_without_client rt n p m loc mood sid api s Hc).
      eexists. split; [reflexivity|]. cbn. split; [tauto|].
      split; [done|]. split; [done|]. split; [|done].
      split; [by eexists|done].
  - intros x Hc ->. split; [by rewrite reply_with_client|].
    intros Hok.
    by destruct (stored_after_call rt n p m loc mood sid (ApiExits x) s
                   Hc Hok) as (-> & _).
Qed.

(** X11: when a call with a client ends in an error (the request raised,
    the response was empty, or the reply could not be used), the user
    turn it had already appended stays in the stored history, after the
    system prompt, with no assistant turn after it; the reply carries the
    caller's mood. For an error of the client library whose text contains
    404 the message is the model-unavailable line. *)
Theorem failed_call_keeps_the_user_turn (api : ApiOutcome) (s : AIService)
    (r : Reply) :
  client s = true ->
  sessions_ok s ->
  fst (get_character_response rt n p m loc mood sid api s) = inr r ->
  status r = "error" ->
  stored_history sid
    (snd (get_character_response rt n p m loc mood sid api s))
  = Some (with_system_prompt (build_character_prompt rt s n p loc mood)
            (default [] (stored_history sid s))
          ++ [user_message m])
  /\ AI.mood r = mood
  /\ (forall text,
        api = ApiRaises (OpenAIError text) ->
        str_contains "404" (lower rt text) = true ->
        msg r = JStr "模型暂时不可用，请稍后再试。").
Proof.
  intros Hc Hok Hr Herr.
  rewrite reply_with_client in Hr by done.
  destruct (stored_after_call rt n p m loc mood sid api s Hc Hok)
    as (Hst & _).
  split; [|split].
  - rewrite Hst, Hr. cbn [turn_after]. unfold assistant_turn.
    by rewrite Herr.
  - destruct (reply_of_shape api r Hr) as (_ & _ & H3 & _). apply H3.
    rewrite Herr. discriminate.
  - intros text -> H404. cbn in Hr. injection Hr as <-. cbn.
    unfold fallback_msg. cbn [str_exn]. by rewrite H404.
Qed.

(** X12: the sessions are isolated: on a well-formed adapter a call, a
    clear or a session query for one session leaves the stored history
    of every other session as it was. *)
Theorem sessions_are_isolated (api : ApiOutcome) (s : AIService)
    (other : string) :
  sessions_ok s ->
  other <> sid ->
  stored_history other
    (snd (get_character_response rt n p m loc mood sid api s))
  = stored_history other s
  /\ stored_history other (snd (clear_character_history sid s))
     = stored_history other s
  /\ stored_history other (snd (get_session_info sid s))
     = stored_history other s.
Proof.
  intros Hok Hne. split; [|split].
  - destruct (client s) eqn:Hc.
    + destruct (stored_after_call rt n p m loc mood sid api s Hc Hok)
        as (_ & _ & _ & _ & Hframe). by apply Hframe.
    + by rewrite (call_without_client rt n p m loc mood sid api s Hc).
  - destruct (clear_history_effect sid s Hok) as (_ & _ & _ & _ & Hframe).
    by apply Hframe.
  - destruct (session_info_effect sid s Hok) as (_ & _ & _ & _ & Hframe).
    by apply Hframe.
Qed.

(** What [get_session_info] reports. *)
Lemma session_info_reply (s : AIService) :
  sessions_ok s ->
  fst (get_session_info sid s)
  = inr {| info_session_id := sid;
           message_count := length (default [] (stored_history sid s));
           has_system_prompt :=
             match default [] (stored_history sid s) with
             | m0 :: _ => String.eqb (role m0) "system"
             | [] => false
             end |}.
Proof.
  intros Hok. unfold get_session_info.
  set (Q := fun (r : raised + SessionInfo) (_ : AIService) =>
              r = inr {| info_session_id := sid;
                         message_count :=
                           length (default [] (stored_history sid s));
                         has_system_prompt :=
                           match default [] (stored_history sid s) with
                           | m0 :: _ => String.eqb (role m0) "system"
                           | [] => false
                           end |}).
  change (wp (bind (_get_session_history sid)
                (fun history =>
                   bind (list_read history)
                     (fun h =>
                        ret {| info_session_id := sid;
                               message_count := length h;
                               has_system_prompt :=
                                 match h with
                                 | m0 :: _ => String.eqb (role m0) "system"
                                 | [] => false
                                 end |}))) s Q).
  apply wp_bind, wp__get_session_history. intros l s1 Hw.
  apply wp_bind. eapply wp_list_read; [exact Hw|]. intros h' Hh'.
  apply wp_ret. unfold Q. by rewrite (Hh' Hok).
Qed.

(** X13: on a well-formed adapter, a session query after a clear reports
    no message and no system prompt; a query for a session that was never
    used reports the same and leaves an empty history stored for it; and
    a query after a call with a client reports a system prompt and at
    least two messages. *)
Theorem session_info_after_clear_and_call (api : ApiOutcome)
    (s : AIService) :
  sessions_ok s ->
  fst (get_session_info sid (snd (clear_character_history sid s)))
  = inr {| info_session_id := sid; message_count := 0;
           has_system_prompt := false |}
  /\ (stored_history sid s = None ->
      fst (get_session_info sid s)
      = inr {| info_session_id := sid; message_count := 0;
               has_system_prompt := false |}
      /\ stored_history sid (snd (get_session_info sid s)) = Some [])
  /\ (client s = true ->
      exists k,
        fst (get_session_info sid
               (snd (get_character_response rt n p m loc mood sid api s)))
        = inr {| info_session_id := sid; message_count := k;
                 has_system_prompt := true |}
        /\ (2 <= k)%nat).
Proof.
  intros Hok. split; [|split].
  - destruct (clear_history_effect sid s Hok) as (Hst & Hok' & _).
    rewrite session_info_reply by done. by rewrite Hst.
  - intros Hnone. rewrite session_info_reply by done.
    destruct (session_info_effect sid s Hok) as (Hst & _).
    rewrite Hst, Hnone. done.
  - intros Hc.
    destruct (stored_after_call rt n p m loc mood sid api s Hc Hok)
      as (Hst & Hok' & _).
    rewrite session_info_reply by done. rewrite Hst. cbn [from_option id].
    unfold with_system_prompt.
    destruct (default [] (stored_history sid s)) as [|m0 rest].
    + eexists. split; [reflexivity|]. rewrite length_app. cbn [length]. lia.
    + destruct (String.eqb (role m0) "system");
        (eexists; split; [reflexivity|];
         rewrite length_app; cbn [length]; lia).
Qed.

(** X14: a reply wrapped in a fence that opens with [```json] and closes
    with [```] is decoded without the fence, so that a fenced object
    with a [msg] field and no [mood] gives status success; a fence that
    opens with a bare [```] followed by a line break only loses its
    closing marker. *)
Theorem fenced_reply_is_unwrapped (body : string) :
  strip_fences ("```json" +:+ body +:+ "```") = body
  /\ strip_fences ("```" +:+ nl +:+ body +:+ "```") = "```" +:+ nl +:+ body
  /\ forall (s : AIService) (c : string) (more : list (option string))
       (fields : list (string * json)) (reply_msg : json),
       client s = true ->
       c <> EmptyString ->
       strip c = "```json" +:+ body +:+ "```" ->
       json_loads rt body = Some (JObj fields) ->
       assoc "msg" fields = Some reply_msg ->
       assoc "mood" fields = None ->
       fst (get_character_response rt n p m loc mood sid
              (ApiResponse (Some c :: more)) s)
       = inr {| msg := reply_msg; AI.mood := clamp mood;
                status := "success"; error := None |}.
Proof.
  split; [apply strip_fences_fenced|]. split.
  - unfold strip_fences.
    assert (Hno : startswith "```json" ("```" +:+ nl +:+ body +:+ "```")
                  = false) by reflexivity.
    rewrite Hno.
    assert (Hassoc : "```" +:+ nl +:+ body +:+ "```"
                     = ("```" +:+ nl +:+ body) +:+ "```") by reflexivity.
    rewrite Hassoc, endswith_app. apply str_drop_end_app.
  - intros s c more fields reply_msg Hc Hne Hstrip Hjson Hmsg Hmood.
    rewrite reply_with_client by done. unfold outcome_of.
    destruct (String.eqb_spec c EmptyString); [done|].
    unfold decoded_reply, cleaned. rewrite Hstrip, strip_fences_fenced, Hjson.
    cbn [py_in py_get py_getitem]. rewrite Hmsg, Hmood.
    assert (Hhas : bool_decide (is_Some (Some reply_msg)) = true)
      by (apply bool_decide_eq_true; by eexists).
    rewrite Hhas. reflexivity.
Qed.

End AdapterProperties.

(* ===================================================================== *)
(** * Further properties of the command interpreter *)
(* ===================================================================== *)

Section CommandProperties.
Import Py Eff Game Plays.
Context (rt : Builtins).

Lemma game_eta (g : Game) :
  {| svc := svc g; game_state := game_state g |} = g.
Proof. by destruct g. Qed.

Lemma with_world_same (s : GameService) : with_world (world_service s) s = s.
Proof. by destruct s. Qed.

(** The state after a command is the state after its handler, and the
    command is answered unless an exception outside [Exception] left the
    handler. *)
Lemma process_command_state (command action : string) (args : list string)
    (o : TalkOracle) (g : Game) :
  split (lower rt (strip command)) = action :: args ->
  snd (process_command rt command o g) = snd (dispatch rt action args o g)
  /\ ((forall x, fst (dispatch rt action args o g) <> inl (Exited x)) ->
      exists answer, fst (process_command rt command o g) = inr answer).
Proof.
  intros Hsplit. unfold process_command.
  destruct (String.eqb_spec (lower rt (strip command)) EmptyString) as [E|_].
  { rewrite E in Hsplit. discriminate Hsplit. }
  rewrite Hsplit. unfold try_except.
  destruct (dispatch rt action args o g) as [[[e|x]|answer] g'].
  - unfold bind, get. cbn.
    destruct (Config.is_debug_mode (config_service (svc g')));
      split; try done; intros _; by eexists.
  - split; [done|]. intros Hno. by destruct (Hno x).
  - split; [done|]. intros _. by eexists.
Qed.

(** An exception outside [Exception] that leaves the handler leaves the
    command. *)
Lemma process_command_exits (command action : string) (args : list string)
    (o : TalkOracle) (g g' : Game) (x : exit_exn) :
  split (lower rt (strip command)) = action :: args ->
  dispatch rt action args o g = (inl (Exited x), g') ->
  process_command rt command o g = (inl (Exited x), g').
Proof.
  intros Hsplit Hrun. unfold process_command.
  destruct (String.eqb_spec (lower rt (strip command)) EmptyString) as [E|_].
  { rewrite E in Hsplit. discriminate Hsplit. }
  rewrite Hsplit. unfold try_except. by rewrite Hrun.
Qed.

Ltac verb_cases :=
  let H := fresh "H" in
  cbn [In]; intros H;
  repeat (destruct H as [<-|H]; [reflexivity|]); destruct H.

Lemma dispatch_clear (action : string) (args : list string) (o : TalkOracle) :
  In action ["clear"; "清空"; "清屏"] ->
  dispatch rt action args o = _handle_clear_command.
Proof. verb_cases. Qed.

Lemma dispatch_help (action : string) (args : list string) (o : TalkOracle) :
  In action ["help"; "h"; "帮助"; "命令"] ->
  dispatch rt action args o = ret _get_help_message.
Proof. verb_cases. Qed.

Lemma dispatch_look (action : string) (args : list string) (o : TalkOracle) :
  In action ["look"; "l"; "看"; "查看"; "观察"] ->
  dispatch rt action args o = _handle_look_command.
Proof. verb_cases. Qed.

Lemma dispatch_where (action : string) (args : list string) (o : TalkOracle) :
  In action ["where"; "位置"; "我在哪"] ->
  dispatch rt action args o = _handle_where_command.
Proof. verb_cases. Qed.

Lemma dispatch_characters (action : string) (args : list string)
    (o : TalkOracle) :
  In action ["characters"; "chars"; "角色"; "人物"; "npc"] ->
  dispatch rt action args o = _handle_characters_command.
Proof. verb_cases. Qed.

Lemma dispatch_go (action : string) (args : list string) (o : TalkOracle) :
  In action ["go"; "move"; "走"; "去"; "移动"] ->
  dispatch rt action args o = _handle_move_command args.
Proof. verb_cases. Qed.

Lemma dispatch_direction (action : string) (args : list string)
    (o : TalkOracle) :
  In action direction_actions ->
  dispatch rt action args o = _handle_move_command [action].
Proof. unfold direction_actions. verb_cases. Qed.

Lemma dispatch_status (action : string) (args : list string)
    (o : TalkOracle) :
  In action ["status"; "stat"; "状态"] ->
  dispatch rt action args o = _handle_status_command.
Proof. verb_cases. Qed.

Lemma dispatch_unknown (action : string) (args : list string)
    (o : TalkOracle) :
  ~ In action known_verbs ->
  dispatch rt action args o
  = ret ("未知命令: " +:+ action +:+ nl +:+ "输入 'help' 查看可用命令。").
Proof.
  intros Hnot. apply mem_not_In in Hnot.
  change known_verbs
    with (["clear"; "清空"; "清屏"]
          ++ (["help"; "h"; "帮助"; "命令"]
              ++ ["look"; "l"; "看"; "查看"; "观察"]
              ++ ["where"; "位置"; "我在哪"]
              ++ ["characters"; "chars"; "角色"; "人物"; "npc"]
              ++ ["status"; "stat"; "状态"])
          ++ ["go"; "move"; "走"; "去"; "移动"] ++ direction_actions
          ++ ["talk"; "say"; "说"; "聊"; "对话"; "交谈"]) in Hnot.
  unfold mem in Hnot. rewrite !existsb_app, !orb_false_iff in Hnot.
  destruct Hnot as (Hc & (Hh & Hl & Hw & Hch & Hs) & Hg & Hd & Ht).
  unfold dispatch, mem. by rewrite Hc, Hh, Hl, Hw, Hch, Hg, Hd, Ht, Hs.
Qed.

Lemma where_run (g : Game) :
  _handle_where_command g
  = match World.get_current_location (world_service (svc g)) with
    | Some l => (inr ("Current Location: " +:+ World.name l), g)
    | None => (inl (Raised AttributeError), g)
    end.
Proof.
  unfold _handle_where_command, current_location_name, bind, get.
  by destruct (World.get_current_location (world_service (svc g))).
Qed.

Lemma status_state (g : Game) : snd (_handle_status_command g) = g.
Proof.
  unfold _handle_status_command, current_location_name, bind, get.
  by destruct (World.get_current_location (world_service (svc g))).
Qed.

Lemma characters_state (g : Game) : snd (_handle_characters_command g) = g.
Proof.
  unfold _handle_characters_command, bind, get. cbn.
  by destruct (Character.get_characters_in_location _ _).
Qed.

Lemma dispatch_reading (action : string) (args : list string)
    (o : TalkOracle) (g : Game) :
  In action reading_verbs ->
  snd (dispatch rt action args o g) = g.
Proof.
  unfold reading_verbs. intros H.
  change (In action (["help"; "h"; "帮助"; "命令"]
                     ++ ["look"; "l"; "看"; "查看"; "观察"]
                     ++ ["where"; "位置"; "我在哪"]
                     ++ ["characters"; "chars"; "角色"; "人物"; "npc"]
                     ++ ["status"; "stat"; "状态"])) in H.
  rewrite !in_app_iff in H.
  destruct H as [H|[H|[H|[H|H]]]].
  - by rewrite dispatch_help.
  - by rewrite dispatch_look.
  - rewrite dispatch_where, where_run by done.
    by destruct (World.get_current_location (world_service (svc g))).
  - rewrite dispatch_characters by done. apply characters_state.
  - rewrite dispatch_status by done. apply status_state.
Qed.

Lemma dispatch_reading_ends (action : string) (args : list string)
    (o : TalkOracle) (g : Game) (x : exit_exn) :
  In action reading_verbs ->
  fst (dispatch rt action args o g) <> inl (Exited x).
Proof.
  unfold reading_verbs. intros H.
  change (In action (["help"; "h"; "帮助"; "命令"]
                     ++ ["look"; "l"; "看"; "查看"; "观察"]
                     ++ ["where"; "位置"; "我在哪"]
                     ++ ["characters"; "chars"; "角色"; "人物"; "npc"]
                     ++ ["status"; "stat"; "状态"])) in H.
  rewrite !in_app_iff in H.
  destruct H as [H|[H|[H|[H|H]]]].
  - by rewrite dispatch_help.
  - by rewrite dispatch_look.
  - rewrite dispatch_where, where_run by done.
    by destruct (World.get_current_location (world_service (svc g))).
  - rewrite dispatch_characters by done.
    unfold _handle_characters_command, bind, get. cbn.
    by destruct (Character.get_characters_in_location _ _).
  - rewrite dispatch_status by done.
    unfold _handle_status_command, current_location_name, bind, get.
    by destruct (World.get_current_location (world_service (svc g))).
Qed.

(** X15: an empty command line is answered with a request to enter a
    command; a command that only reads (help, look, where, characters,
    status, in either language) is answered and leaves the service and
    the game state exactly as they were, also when its handler fails;
    and a verb that is not known is answered with the unknown-command
    message naming it, again with nothing changed. *)
Theorem reading_commands_change_nothing (command : string) (o : TalkOracle)
    (g : Game) :
  (lower rt (strip command) = EmptyString ->
   process_command rt command o g = (inr "请输入一个命令。", g))
  /\ (forall action args,
        split (lower rt (strip command)) = action :: args ->
        In action reading_verbs ->
        exists answer, process_command rt command o g = (inr answer, g))
  /\ (forall action args,
        split (lower rt (strip command)) = action :: args ->
        ~ In action known_verbs ->
        process_command rt command o g
        = (inr ("未知命令: " +:+ action +:+ nl
                +:+ "输入 'help' 查看可用命令。"), g)).
Proof.
  split; [|split].
  - intros E. unfold process_command. by rewrite E.
  - intros action args Hsplit Hverb.
    destruct (process_command_state command action args o g Hsplit)
      as (Hst & Hans).
    destruct Hans as (answer & Hans);
      [intros x; by apply dispatch_reading_ends|].
    exists answer. rewrite dispatch_reading in Hst by done.
    destruct (process_command rt command o g) as [r g']. cbn in *.
    by subst.
  - intros action args Hsplit Hverb.
    eapply process_command_returns; [exact Hsplit|].
    by rewrite dispatch_unknown.
Qed.

Lemma process_command_raises (command action : string) (args : list string)
    (o : TalkOracle) (g g' : Game) (e : exn) :
  split (lower rt (strip command)) = action :: args ->
  dispatch rt action args o g = (inl (Raised e), g') ->
  process_command rt command o g
  = (inr (if Config.is_debug_mode (config_service (svc g'))
          then "处理命令时出错: " +:+ str_exn rt e
          else "出现了一些问题，请重试。"), g').
Proof.
  intros Hsplit Hrun. unfold process_command.
  destruct (String.eqb_spec (lower rt (strip command)) EmptyString) as [E|_].
  { rewrite E in Hsplit. discriminate Hsplit. }
  rewrite Hsplit. unfold try_except. rewrite Hrun.
  unfold bind, get. cbn.
  by destruct (Config.is_debug_mode (config_service (svc g'))).
Qed.

Lemma move_to_lost (d : string) (w : World.WorldService) :
  World.get_current_location w = None ->
  World.move_to d w = ((false, "当前位置未知，无法移动。"), w).
Proof. intros H. unfold World.move_to. by rewrite H. Qed.

(** X16: when the location pointer names no location, look answers that
    the player is lost, go with a direction answers that the position is
    unknown, and where and status, whose handlers fail on the missing
    location, are answered with the generic error message (or, in debug
    mode, with the text of the error); nothing is changed and nothing is
    raised to the caller. *)
Theorem lost_player_gets_fallback_answers (command : string)
    (o : TalkOracle) (g : Game) :
  World.get_current_location (world_service (svc g)) = None ->
  (forall verb args,
     split (lower rt (strip command)) = verb :: args ->
     In verb ["look"; "l"; "看"; "查看"; "观察"] ->
     process_command rt command o g
     = (inr "你似乎迷失在了未知的地方...", g))
  /\ (forall verb args,
        split (lower rt (strip command)) = verb :: args ->
        In verb ["where"; "位置"; "我在哪"; "status"; "stat"; "状态"] ->
        process_command rt command o g
        = (inr (if Config.is_debug_mode (config_service (svc g))
                then "处理命令时出错: " +:+ exn_message rt AttributeError
                else "出现了一些问题，请重试。"), g))
  /\ (forall verb d rest,
        split (lower rt (strip command)) = verb :: d :: rest ->
        In verb ["go"; "move"; "走"; "去"; "移动"] ->
        process_command rt command o g
        = (inr "当前位置未知，无法移动。", g)).
Proof.
  intros Hlost. split; [|split].
  - intros verb args Hsplit Hverb.
    eapply process_command_returns; [exact Hsplit|].
    rewrite dispatch_look by done.
    unfold _handle_look_command, bind, get. cbn.
    unfold World.get_location_description. by rewrite Hlost.
  - intros verb args Hsplit Hverb.
    change (In verb (["where"; "位置"; "我在哪"] ++ ["status"; "stat"; "状态"]))
      in Hverb.
    apply in_app_iff in Hverb.
    rewrite (process_command_raises command verb args o g g AttributeError);
      [done|done|].
    destruct Hverb as [H|H].
    + rewrite dispatch_where, where_run by done. by rewrite Hlost.
    + rewrite dispatch_status by done.
      unfold _handle_status_command, current_location_name, bind, get.
      by rewrite Hlost.
  - intros verb d rest Hsplit Hverb.
    eapply process_command_returns; [exact Hsplit|].
    rewrite dispatch_go by done.
    unfold _handle_move_command, bind, get.
    rewrite move_to_lost by done. by destruct g as [[] ?].
Qed.

(** What the move command does, in terms of [move_to]. *)
Lemma move_command_run (d : string) (rest : list string) (g : Game) :
  _handle_move_command (d :: rest) g
  = let res := World.move_to d (world_service (svc g)) in
    if fst (fst res)
    then (inr (snd (fst res) +:+ nl +:+ nl
               +:+ World.get_location_description (snd res)),
          {| svc := with_world (snd res) (svc g);
             game_state :=
               {| current_location := World.current_location (snd res);
                  player_name := player_name (game_state g);
                  history := history (game_state g);
                  game_started := game_started (game_state g) |} |})
    else (inr (snd (fst res)), g).
Proof.
  unfold _handle_move_command, bind, get. cbn.
  destruct (World.move_to d (world_service (svc g))) as [[[|] message] w] eqn:E;
    cbn; [done|].
  assert (Hw : w = world_service (svc g)).
  { revert E. unfold World.move_to.
    destruct (World.get_current_location _) as [l|];
      [|by intros H; inversion H].
    destruct (assoc _ _) as [t|]; [|by intros H; inversion H].
    destruct (World.locations _ !! t); [done|by intros H; inversion H]. }
  subst w. by destruct g as [[] ?].
Qed.

(** X17: [go d] (with any of the go verbs, and whatever follows the
    direction) and the bare direction token [d] do what [move_to d] does:
    on success the world has moved, the game state's location is the new
    pointer, and the answer is the confirmation followed by the
    description of the new location; on failure the answer is the message
    of [move_to] and nothing is changed. With no direction the go command
    changes nothing and answers with the directions of the exits of the
    current location, in their order and separated by a comma and a
    space, each canonical direction under its Chinese name and any other
    as it is (no direction when the pointer names no location). *)
Theorem move_command_follows_move_to (command : string) (o : TalkOracle)
    (g : Game) (d : string) :
  let res := World.move_to d (world_service (svc g)) in
  let moved :=
    if fst (fst res)
    then (inr (snd (fst res) +:+ nl +:+ nl
               +:+ World.get_location_description (snd res)),
          {| svc := with_world (snd res) (svc g);
             game_state :=
               {| current_location := World.current_location (snd res);
                  player_name := player_name (game_state g);
                  history := history (game_state g);
                  game_started := game_started (game_state g) |} |})
    else (inr (snd (fst res)), g) in
  (forall verb rest,
     split (lower rt (strip command)) = verb :: d :: rest ->
     In verb ["go"; "move"; "走"; "去"; "移动"] ->
     process_command rt command o g = moved)
  /\ (forall rest,
        split (lower rt (strip command)) = d :: rest ->
        In d direction_actions ->
        process_command rt command o g = moved)
  /\ (forall verb,
        split (lower rt (strip command)) = [verb] ->
        In verb ["go"; "move"; "走"; "去"; "移动"] ->
        process_command rt command o g
        = (inr ("去哪里？可用方向: "
                +:+ join ", "
                      (map (fun direction =>
                              default direction
                                (assoc direction direction_names))
                           (World.get_available_directions
                              (world_service (svc g))))),
           g)).
Proof.
  intros res moved. subst moved res.
  pose proof (move_command_run d) as Hrun. cbv zeta in Hrun.
  split; [|split].
  - intros verb rest Hsplit Hverb.
    destruct (fst (fst (World.move_to d (world_service (svc g))))) eqn:Eok;
      (eapply process_command_returns; [exact Hsplit|];
       rewrite dispatch_go by done; rewrite Hrun, Eok; reflexivity).
  - intros rest Hsplit Hdir.
    destruct (fst (fst (World.move_to d (world_service (svc g))))) eqn:Eok;
      (eapply process_command_returns; [exact Hsplit|];
       rewrite dispatch_direction by done; rewrite Hrun, Eok; reflexivity).
  - intros verb Hsplit Hverb.
    eapply process_command_returns; [exact Hsplit|].
    rewrite dispatch_go by done. reflexivity.
Qed.

End CommandProperties.

(* ===================================================================== *)
(** * What a talk does *)
(* ===================================================================== *)

Section TalkProperties.
Import Py Eff Game Plays.
Context (rt : Builtins).

Lemma oset_oset {A} (k : string) (v v' : A) (d : list (string * A)) :
  oset k v' (oset k v d) = oset k v' d.
Proof.
  induction d as [|[k0 v0] d IH]; simpl.
  - by rewrite String.eqb_refl.
  - destruct (String.eqb k k0) eqn:E; simpl.
    + by rewrite String.eqb_refl.
    + by rewrite E, IH.
Qed.

Lemma on_character_twice (cid : string)
    (f f' : Character.Character -> Character.Character)
    (s : Character.CharacterService) :
  Character.on_character cid f' (Character.on_character cid f s)
  = Character.on_character cid (fun c => f' (f c)) s.
Proof.
  unfold Character.on_character.
  destruct (assoc cid (Character.characters s)) as [c|] eqn:E; cbn.
  - by rewrite assoc_oset_eq, oset_oset.
  - by rewrite E.
Qed.

(** The talk handler when the character is here and the coroutine runs. *)
Lemma talk_run (cid : string) (rest : list string) (o : TalkOracle)
    (g : Game) (c : Character.Character) (l : World.Location)
    (r : AI.Reply) :
  Character.get_character cid (character_service (svc g)) = Some c ->
  Character.location c = World.current_location (world_service (svc g)) ->
  World.get_current_location (world_service (svc g)) = Some l ->
  asyncio_error o = None ->
  let call :=
    AI.get_character_response rt (Character.name c)
      (Character.personality c) (talk_message rest) (World.name l)
      (Character.mood c) ("char_" +:+ cid) (api o) (ai_service (svc g)) in
  fst call = inr r ->
  _handle_talk_command rt (cid :: rest) o g
  = (inr ("You said to " +:+ Character.name c +:+ ": " +:+ dq
          +:+ talk_message rest +:+ dq +:+ nl +:+ nl
          +:+ Character.name c +:+ ": " +:+ dq
          +:+ str_of rt (AI.msg r) +:+ dq
          +:+ (if Config.is_debug_mode (config_service (svc g))
               then nl +:+ "[调试: " +:+ AI.status r +:+ ", 心情: "
                    +:+ format_2f rt
                          (Character.mood
                             (Character.update_mood (AI.mood r) c))
                    +:+ "]"
               else EmptyString)),
     with_svc
       (with_characters
          (Character.on_character cid
             (fun c =>
                Character.add_conversation (talk_message rest) (AI.msg r)
                  (Character.update_mood (AI.mood r) c))
             (character_service (svc g)))
          (with_ai (snd call) (svc g)))
       g).
Proof.
  intros Hc Hloc Hl Hrun call Hr. subst call.
  rewrite <- on_character_twice.
  unfold _handle_talk_command, bind, get. cbn beta iota zeta.
  change (match rest with [] => "你好" | _ :: _ => join " " rest end)
    with (talk_message rest).
  rewrite Hc. cbn beta iota. rewrite Hloc, String.eqb_refl. cbn [negb].
  unfold try_except, current_location_name, bind, get, asyncio_run, zoom.
  rewrite Hl, Hrun. cbn beta iota. unfold ret at 1.
  destruct (AI.get_character_response rt (Character.name c)
              (Character.personality c) (talk_message rest) (World.name l)
              (Character.mood c) ("char_" +:+ cid) (api o)
              (ai_service (svc g))) as [res a'].
  cbn [fst snd] in *. subst res. reflexivity.
Qed.

(** The talk handler when the character is here, the coroutine runs and
    the request is left by an exception outside [Exception]: no handler
    catches it. *)
Lemma talk_exit (cid : string) (rest : list string) (o : TalkOracle)
    (g : Game) (c : Character.Character) (l : World.Location)
    (x : exit_exn) :
  Character.get_character cid (character_service (svc g)) = Some c ->
  Character.location c = World.current_location (world_service (svc g)) ->
  World.get_current_location (world_service (svc g)) = Some l ->
  asyncio_error o = None ->
  let call :=
    AI.get_character_response rt (Character.name c)
      (Character.personality c) (talk_message rest) (World.name l)
      (Character.mood c) ("char_" +:+ cid) (api o) (ai_service (svc g)) in
  fst call = inl (Exited x) ->
  _handle_talk_command rt (cid :: rest) o g
  = (inl (Exited x), with_svc (with_ai (snd call) (svc g)) g).
Proof.
  intros Hc Hloc Hl Hrun call Hr. subst call.
  unfold _handle_talk_command, bind, get. cbn beta iota zeta.
  change (match rest with [] => "你好" | _ :: _ => join " " rest end)
    with (talk_message rest).
  rewrite Hc. cbn beta iota. rewrite Hloc, String.eqb_refl. cbn [negb].
  unfold try_except, current_location_name, bind, get, asyncio_run, zoom.
  rewrite Hl, Hrun. cbn beta iota. unfold ret at 1.
  destruct (AI.get_character_response rt (Character.name c)
              (Character.personality c) (talk_message rest) (World.name l)
              (Character.mood c) ("char_" +:+ cid) (api o)
              (ai_service (svc g))) as [res a'].
  cbn [fst snd] in *. subst res. reflexivity.
Qed.

(** The talk handler when [asyncio.run] raises. *)
Lemma talk_fallback (cid : string) (rest : list string) (o : TalkOracle)
    (g : Game) (c : Character.Character) (l : World.Location) (e : exn) :
  Character.get_character cid (character_service (svc g)) = Some c ->
  Character.location c = World.current_location (world_service (svc g)) ->
  World.get_current_location (world_service (svc g)) = Some l ->
  asyncio_error o = Some e ->
  _handle_talk_command rt (cid :: rest) o g
  = if Config.is_debug_mode (config_service (svc g))
    then (inr ("AI服务错误: " +:+ str_exn rt e +:+ nl +:+ "使用备用回复..."),
          g)
    else (inr ("You said to " +:+ Character.name c +:+ ": " +:+ dq
               +:+ talk_message rest +:+ dq +:+ nl +:+ nl
               +:+ Character.name c +:+ ": " +:+ dq
               +:+ _get_mock_ai_response c (talk_message rest) +:+ dq),
          with_svc
            (with_characters
               (Character.on_character cid
                  (Character.add_conversation (talk_message rest)
                     (JStr (_get_mock_ai_response c (talk_message rest))))
                  (character_service (svc g)))
               (svc g))
            g).
Proof.
  intros Hc Hloc Hl Hrun.
  unfold _handle_talk_command, bind, get. cbn beta iota zeta.
  change (match rest with [] => "你好" | _ :: _ => join " " rest end)
    with (talk_message rest).
  rewrite Hc. cbn beta iota. rewrite Hloc, String.eqb_refl. cbn [negb].
  unfold try_except, current_location_name, bind, get, asyncio_run, zoom.
  rewrite Hl, Hrun. cbn beta iota. unfold ret at 1, raise at 1.
  cbn beta iota.
  by destruct (Config.is_debug_mode (config_service (svc g))).
Qed.

(** X18: a talk to a character who is at the player's location, when
    the coroutine runs: the adapter is called once with the character's
    name, personality and mood, the name of the location, the words after
    the id joined by spaces (or the default greeting when there are
    none) and the session id char_ followed by the id. When the request
    is answered or raises an exception of class Exception, or the
    adapter has no client, the call returns a reply and the talk never
    takes the fallback path: the character's mood becomes the reply's
    mood clamped to [0, 1], the message and the reply's text are appended
    to its conversation history, the adapter's state is the one the call
    left, and every other character, the world and the game state are as
    before. When the adapter has a client and the request is left by an
    exception outside Exception, no handler catches it: the command
    raises it, no character is changed, and only the adapter's state is
    the one the call left. *)
Theorem talk_records_the_reply (command verb cid : string)
    (rest : list string) (o : TalkOracle) (g : Game)
    (c : Character.Character) (l : World.Location) :
  split (lower rt (strip command)) = verb :: cid :: rest ->
  In verb ["talk"; "say"; "说"; "聊"; "对话"; "交谈"] ->
  Character.get_character cid (character_service (svc g)) = Some c ->
  Character.location c = World.current_location (world_service (svc g)) ->
  World.get_current_location (world_service (svc g)) = Some l ->
  asyncio_error o = None ->
  let call :=
    AI.get_character_response rt (Character.name c)
      (Character.personality c) (talk_message rest) (World.name l)
      (Character.mood c) ("char_" +:+ cid) (api o) (ai_service (svc g)) in
  let g' := snd (process_command rt command o g) in
  (AI.client (ai_service (svc g)) = false
   \/ (forall x, api o <> AI.ApiExits x) ->
   exists r,
     fst call = inr r
     /\ fst (process_command rt command o g)
        = inr ("You said to " +:+ Character.name c +:+ ": " +:+ dq
               +:+ talk_message rest +:+ dq +:+ nl +:+ nl
               +:+ Character.name c +:+ ": " +:+ dq
               +:+ str_of rt (AI.msg r) +:+ dq
               +:+ (if Config.is_debug_mode (config_service (svc g))
                    then nl +:+ "[调试: " +:+ AI.status r +:+ ", 心情: "
                         +:+ format_2f rt
                               (Character.mood
                                  (Character.update_mood (AI.mood r) c))
                         +:+ "]"
                    else EmptyString))
     /\ Character.get_character cid (character_service (svc g'))
        = Some (Character.add_conversation (talk_message rest) (AI.msg r)
                  (Character.update_mood (AI.mood r) c))
     /\ (forall id, id <> cid ->
           Character.get_character id (character_service (svc g'))
           = Character.get_character id (character_service (svc g)))
     /\ ai_service (svc g') = snd call
     /\ world_service (svc g') = world_service (svc g)
     /\ config_service (svc g') = config_service (svc g)
     /\ game_state g' = game_state g)
  /\ (forall x,
        AI.client (ai_service (svc g)) = true ->
        api o = AI.ApiExits x ->
        fst call = inl (Exited x)
        /\ fst (process_command rt command o g) = inl (Exited x)
        /\ character_service (svc g') = character_service (svc g)
        /\ ai_service (svc g') = snd call
        /\ world_service (svc g') = world_service (svc g)
        /\ config_service (svc g') = config_service (svc g)
        /\ game_state g' = game_state g).
Proof.
  intros Hsplit Hverb Hc Hloc Hl Hrun call g'. split.
  - intros Hcase.
    destruct (call_returns rt (Character.name c) (Character.personality c)
                (talk_message rest) (World.name l) (Character.mood c)
                ("char_" +:+ cid) (api o) (ai_service (svc g)) Hcase)
      as (r & Hr & _).
    exists r. split; [exact Hr|].
    assert (Hp : process_command rt command o g
                 = _handle_talk_command rt (cid :: rest) o g).
    { rewrite (talk_run cid rest o g c l r Hc Hloc Hl Hrun Hr).
      eapply process_command_returns; [exact Hsplit|].
      rewrite dispatch_talk by done.
      apply (talk_run cid rest o g c l r Hc Hloc Hl Hrun Hr). }
    subst g'. rewrite Hp.
    rewrite (talk_run cid rest o g c l r Hc Hloc Hl Hrun Hr).
    cbn [fst snd svc with_svc character_service with_characters ai_service
         with_ai world_service config_service game_state].
    split; [done|].
    split; [by rewrite on_character_lookup, Hc|].
    split; [intros id Hne; by apply on_character_other|done].
  - intros x Hclient Hapi.
    assert (Hr : fst call = inl (Exited x)).
    { subst call. rewrite reply_with_client by done. by rewrite Hapi. }
    split; [exact Hr|].
    assert (Hp : process_command rt command o g
                 = _handle_talk_command rt (cid :: rest) o g).
    { rewrite (talk_exit cid rest o g c l x Hc Hloc Hl Hrun Hr).
      eapply process_command_exits; [exact Hsplit|].
      rewrite dispatch_talk by done.
      apply (talk_exit cid rest o g c l x Hc Hloc Hl Hrun Hr). }
    subst g'. rewrite Hp.
    rewrite (talk_exit cid rest o g c l x Hc Hloc Hl Hrun Hr).
    done.
Qed.

(** X19: when [asyncio.run] raises (as it does inside a running event
    loop), a talk to a character who is here does not reach the adapter:
    outside debug mode the canned reply for the character is shown and
    appended with the message to its conversation history, its mood and
    everything else staying as they were; in debug mode the text of the
    error is shown and nothing at all is changed. *)
Theorem talk_falls_back_to_canned_reply (command verb cid : string)
    (rest : list string) (o : TalkOracle) (g : Game)
    (c : Character.Character) (l : World.Location) (e : exn) :
  split (lower rt (strip command)) = verb :: cid :: rest ->
  In verb ["talk"; "say"; "说"; "聊"; "对话"; "交谈"] ->
  Character.get_character cid (character_service (svc g)) = Some c ->
  Character.location c = World.current_location (world_service (svc g)) ->
  World.get_current_location (world_service (svc g)) = Some l ->
  asyncio_error o = Some e ->
  let g' := snd (process_command rt command o g) in
  let canned := _get_mock_ai_response c (talk_message rest) in
  (Config.is_debug_mode (config_service (svc g)) = true ->
   process_command rt command o g
   = (inr ("AI服务错误: " +:+ str_exn rt e +:+ nl +:+ "使用备用回复..."), g))
  /\ (Config.is_debug_mode (config_service (svc g)) = false ->
      fst (process_command rt command o g)
      = inr ("You said to " +:+ Character.name c +:+ ": " +:+ dq
             +:+ talk_message rest +:+ dq +:+ nl +:+ nl
             +:+ Character.name c +:+ ": " +:+ dq +:+ canned +:+ dq)
      /\ Character.get_character cid (character_service (svc g'))
         = Some (Character.add_conversation (talk_message rest)
                   (JStr canned) c)
      /\ (forall id, id <> cid ->
            Character.get_character id (character_service (svc g'))
            = Character.get_character id (character_service (svc g)))
      /\ ai_service (svc g') = ai_service (svc g)
      /\ world_service (svc g') = world_service (svc g)
      /\ game_state g' = game_state g).
Proof.
  intros Hsplit Hverb Hc Hloc Hl Hrun g' canned.
  pose proof (talk_fallback cid rest o g c l e Hc Hloc Hl Hrun) as Htalk.
  assert (Hp : process_command rt command o g
               = _handle_talk_command rt (cid :: rest) o g).
  { destruct (_handle_talk_command rt (cid :: rest) o g) as [res g1] eqn:E.
    destruct (Config.is_debug_mode (config_service (svc g)));
      injection Htalk as -> ->;
      (eapply process_command_returns; [exact Hsplit|];
       rewrite dispatch_talk by done; exact E). }
  subst g'. rewrite Hp, Htalk. split; intros ->; [done|].
  cbn [fst snd svc with_svc character_service with_characters ai_service
       world_service game_state].
  split; [done|].
  split; [by rewrite on_character_lookup, Hc|].
  split; [intros id Hne; by apply on_character_other|done].
Qed.

End TalkProperties.

(* ===================================================================== *)
(** * Synchronising presence, and the state between commands *)
(* ===================================================================== *)

Section SyncProperties.
Import Py Game Plays.

(** The loop of [_sync_character_locations] on the world. *)
Lemma sync_world (g : GameService) :
  world_service (_sync_character_locations g)
  = fold_left
      (fun w kv =>
         World.add_character_to_location (fst kv)
           (Some (Character.location (snd kv))) w)
      (Character.characters (character_service g)) (world_service g).
Proof. reflexivity. Qed.

Lemma add_presence_at (cid id : string) (w : World.WorldService) :
  World.add_character_to_location cid (Some id) w
  = match World.locations w !! id with
    | Some l =>
        {| World.locations :=
             <[id := World.add_character cid l]> (World.locations w);
           World.current_location := World.current_location w |}
    | None => w
    end.
Proof. reflexivity. Qed.

Lemma add_presence_present (cid id : string) (w : World.WorldService)
    (x id' : string) :
  In x (present_at id' (World.add_character_to_location cid (Some id) w))
  <-> In x (present_at id' w)
      \/ (x = cid /\ id' = id /\ is_Some (World.locations w !! id)).
Proof.
  rewrite add_presence_at. unfold present_at.
  destruct (World.locations w !! id) as [l|] eqn:E; cbn [World.locations].
  - destruct (decide (id' = id)) as [->|Hne].
    + rewrite lookup_insert_eq, E. unfold World.add_character.
      destruct (mem cid (World.characters l)) eqn:Em.
      * apply mem_In in Em. split; [by left|].
        intros [H|(-> & _)]; done.
      * cbn. rewrite in_app_iff. cbn. split.
        -- intros [H|[<-|[]]]; [by left|right; by eauto].
        -- intros [H|(-> & _)]; [by left|right; by left].
    + rewrite lookup_insert_ne by done. split; [by left|].
      intros [H|(_ & ? & _)]; done.
  - split; [by left|]. intros [H|(_ & _ & [? ?])]; done.
Qed.

Lemma add_presence_locations (cid id : string) (w : World.WorldService)
    (i : string) :
  layout <$> (World.locations
                (World.add_character_to_location cid (Some id) w) !! i)
  = layout <$> (World.locations w !! i).
Proof.
  rewrite add_presence_at.
  destruct (World.locations w !! id) as [l|] eqn:E; cbn [World.locations];
    [|done].
  destruct (decide (i = id)) as [->|Hne].
  - rewrite lookup_insert_eq, E. cbn. f_equal. apply layout_add_character.
  - by rewrite lookup_insert_ne.
Qed.

Lemma add_presence_again (cid id : string) (w : World.WorldService) :
  World.locations w !! id = None \/ In cid (present_at id w) ->
  World.add_character_to_location cid (Some id) w = w.
Proof.
  rewrite add_presence_at. unfold present_at.
  destruct (World.locations w !! id) as [l|] eqn:E; [|done].
  intros [H|H]; [done|]. unfold World.add_character.
  apply mem_In in H. rewrite H, insert_id by done. by destruct w.
Qed.

Lemma sync_fold (chars : list (string * Character.Character)) :
  forall w,
    let w' := fold_left
                (fun w kv =>
                   World.add_character_to_location (fst kv)
                     (Some (Character.location (snd kv))) w)
                chars w in
    World.current_location w' = World.current_location w
    /\ (forall i,
          layout <$> (World.locations w' !! i)
          = layout <$> (World.locations w !! i))
    /\ (forall x i,
          In x (present_at i w')
          <-> In x (present_at i w)
              \/ (is_Some (World.locations w !! i)
                  /\ exists c, In (x, c) chars /\ Character.location c = i)).
Proof.
  induction chars as [|[cid c] chars IH]; intros w; cbn [fold_left].
  - split; [done|]. split; [done|]. intros x i. split; [by left|].
    by intros [H|(_ & ? & [] & _)].
  - destruct (IH (World.add_character_to_location cid
                    (Some (Character.location c)) w))
      as (Hp & Hl & Hin).
    cbn [fst snd] in *. split; [|split].
    + rewrite Hp, add_presence_at.
      by destruct (World.locations w !! Character.location c).
    + intros i. by rewrite Hl, add_presence_locations.
    + intros x i. rewrite Hin, add_presence_present.
      assert (Hsome : is_Some
                        (World.locations
                           (World.add_character_to_location cid
                              (Some (Character.location c)) w) !! i)
                      <-> is_Some (World.locations w !! i)).
      { rewrite <- !fmap_is_Some with (f := layout).
        by rewrite add_presence_locations. }
      rewrite Hsome. cbn [In]. split.
      * intros [[H|(-> & -> & Hs)]|(Hs & c' & Hc' & Hloc)].
        -- by left.
        -- right. split; [done|]. exists c. split; [by left|done].
        -- right. split; [done|]. exists c'. split; [by right|done].
      * intros [H|(Hs & c' & [Heq|Hc'] & Hloc)].
        -- left. by left.
        -- injection Heq as -> ->. left. right. by subst i.
        -- right. split; [done|]. by exists c'.
Qed.

Lemma sync_fold_again (chars : list (string * Character.Character)) :
  forall w,
    (forall cid c, In (cid, c) chars ->
       World.locations w !! Character.location c = None
       \/ In cid (present_at (Character.location c) w)) ->
    fold_left
      (fun w kv =>
         World.add_character_to_location (fst kv)
           (Some (Character.location (snd kv))) w)
      chars w = w.
Proof.
  induction chars as [|[cid c] chars IH]; intros w Hcov; cbn [fold_left];
    [done|].
  cbn [fst snd]. rewrite add_presence_again by (apply Hcov; by left).
  apply IH. intros cid' c' Hin. apply Hcov. by right.
Qed.

(** X21: [_sync_character_locations] only adds: afterwards every
    registered character whose location exists is listed there, whoever
    was listed somewhere is still listed there (so a character that has
    moved stays listed at the place it left), and nobody else is listed
    anywhere; the pointer, the locations' names, descriptions and exits,
    the registry, the adapter and the configuration are untouched, and
    synchronising twice is synchronising once. *)
Theorem sync_only_adds_presence (g : GameService) :
  let g' := _sync_character_locations g in
  let w := world_service g in
  let w' := world_service g' in
  (forall cid c,
     In (cid, c) (Character.characters (character_service g)) ->
     is_Some (World.locations w !! Character.location c) ->
     In cid (present_at (Character.location c) w'))
  /\ (forall cid id, In cid (present_at id w) -> In cid (present_at id w'))
  /\ (forall cid id,
        In cid (present_at id w') ->
        In cid (present_at id w)
        \/ exists c,
             In (cid, c) (Character.characters (character_service g))
             /\ Character.location c = id)
  /\ World.current_location w' = World.current_location w
  /\ (forall id,
        layout <$> (World.locations w' !! id)
        = layout <$> (World.locations w !! id))
  /\ character_service g' = character_service g
  /\ ai_service g' = ai_service g
  /\ config_service g' = config_service g
  /\ _sync_character_locations g' = g'.
Proof.
  intros g' w w'. subst g' w w'.
  destruct (sync_fold (Character.characters (character_service g))
              (world_service g)) as (Hp & Hl & Hin).
  rewrite <- sync_world in Hp, Hl, Hin.
  split; [|split; [|split; [|split; [|split; [|split; [|split; [|split]]]]]]];
    try done.
  - intros cid c Hc Hs. apply Hin. right. split; [done|]. by exists c.
  - intros cid id H. apply Hin. by left.
  - intros cid id H. apply Hin in H as [H|(_ & c & Hc & Hloc)];
      [by left|right; by exists c].
  - unfold _sync_character_locations at 1.
    change (Character.get_all_characters
              (character_service (_sync_character_locations g)))
      with (Character.characters (character_service g)).
    rewrite sync_fold_again.
    + by destruct (_sync_character_locations g).
    + intros cid c Hc.
      destruct (World.locations (world_service (_sync_character_locations g))
                !! Character.location c) as [l|] eqn:E; [|by left].
      right. apply Hin. right. split; [|by exists c].
      rewrite <- fmap_is_Some with (f := layout). rewrite <- Hl, E.
      by eexists.
Qed.

End SyncProperties.

Section GameInvariant.
Import Py Eff Game Plays.
Context (rt : Builtins).

Lemma character_ok_update_mood (x : pyfloat) (c : Character.Character) :
  character_ok c -> character_ok (Character.update_mood x c).
Proof. intros [_ Hlen]. split; [apply clamp_range|done]. Qed.

Lemma character_ok_add_conversation (u : string) (a : json)
    (c : Character.Character) :
  character_ok c -> character_ok (Character.add_conversation u a c).
Proof.
  intros [Hmood _]. split.
  - unfold Character.add_conversation. by case_decide.
  - rewrite add_conversation_history, length_lastn. lia.
Qed.

Lemma look_state (g : Game) : snd (_handle_look_command g) = g.
Proof. reflexivity. Qed.

Lemma move_keeps_ok (args : list string) (g : Game) :
  game_ok g -> game_ok (snd (_handle_move_command args g)).
Proof.
  intros Hok. destruct args as [|d rest]; [done|].
  rewrite move_command_run. cbv zeta.
  destruct (fst (fst (World.move_to d (world_service (svc g))))); [|done].
  destruct Hok as (Hlay & Hcur & Hgs & Hch & Hai).
  split; [|split; [|split; [|split]]]; cbn; try done.
  - intros id. rewrite move_to_keeps_locations. apply Hlay.
  - by apply move_to_keeps_pointer_valid.
Qed.

Lemma on_character_keeps_ok (cid : string)
    (f : Character.Character -> Character.Character)
    (a : AI.AIService) (g : Game) :
  (forall c, character_ok c -> character_ok (f c)) ->
  Runs.sessions_ok a ->
  game_ok g ->
  game_ok (with_svc
             (with_characters
                (Character.on_character cid f (character_service (svc g)))
                (with_ai a (svc g)))
             g).
Proof.
  intros Hf Ha (Hlay & Hcur & Hgs & Hch & Hai).
  split; [|split; [|split; [|split]]]; cbn; try done.
  by apply on_character_Forall.
Qed.

Lemma with_ai_same (s : GameService) : with_ai (ai_service s) s = s.
Proof. by destruct s. Qed.

Lemma talk_keeps_ok (args : list string) (o : TalkOracle) (g : Game) :
  game_ok g -> game_ok (snd (_handle_talk_command rt args o g)).
Proof.
  intros Hok. destruct args as [|cid rest]; [done|].
  destruct (Character.get_character cid (character_service (svc g)))
    as [c|] eqn:Hc; [|by rewrite talk_unknown_character].
  destruct (String.eqb_spec (Character.location c)
              (World.current_location (world_service (svc g))))
    as [Hloc|Hloc]; [|by rewrite (talk_character_elsewhere rt cid rest o g c)].
  pose proof Hok as (_ & [l Hl] & _ & _ & Hai).
  destruct (asyncio_error o) as [e|] eqn:Hrun.
  - rewrite (talk_fallback rt cid rest o g c l e) by done.
    destruct (Config.is_debug_mode (config_service (svc g))); [done|].
    cbn [snd]. rewrite <- (with_ai_same (svc g)) at 2.
    apply on_character_keeps_ok; [|done|done].
    intros c'. apply character_ok_add_conversation.
  - pose proof (call_keeps_sessions_ok rt (Character.name c)
                  (Character.personality c) (talk_message rest)
                  (World.name l) (Character.mood c) ("char_" +:+ cid)
                  (api o) (ai_service (svc g)) Hai) as Hai'.
    destruct (fst (AI.get_character_response rt (Character.name c)
                     (Character.personality c) (talk_message rest)
                     (World.name l) (Character.mood c) ("char_" +:+ cid)
                     (api o) (ai_service (svc g)))) as [e|r] eqn:Hr.
    + destruct (call_exits rt _ _ _ _ _ _ _ _ _ Hr) as (_ & x & _ & ->).
      rewrite (talk_exit rt cid rest o g c l x) by done. cbn [snd].
      destruct Hok as (Hlay & Hcur & Hgs & Hch & _).
      split; [|split; [|split; [|split]]]; done.
    + rewrite (talk_run rt cid rest o g c l r) by done. cbn [snd].
      apply on_character_keeps_ok; [|done|done].
      intros c' Hc'.
      by apply character_ok_add_conversation, character_ok_update_mood.
Qed.

Lemma dispatch_keeps_ok (action : string) (args : list string)
    (o : TalkOracle) (g : Game) :
  game_ok g -> game_ok (snd (dispatch rt action args o g)).
Proof.
  intros Hok. unfold dispatch.
  destruct (mem action ["clear"; "清空"; "清屏"]).
  { destruct Hok as (Hlay & Hcur & Hgs & Hch & Hai).
    split; [|split; [|split; [|split]]]; done. }
  destruct (mem action ["help"; "h"; "帮助"; "命令"]); [done|].
  destruct (mem action ["look"; "l"; "看"; "查看"; "观察"]); [done|].
  destruct (mem action ["where"; "位置"; "我在哪"]).
  { rewrite where_run.
    by destruct (World.get_current_location (world_service (svc g))). }
  destruct (mem action ["characters"; "chars"; "角色"; "人物"; "npc"]).
  { by rewrite characters_state. }
  destruct (mem action ["go"; "move"; "走"; "去"; "移动"]).
  { by apply move_keeps_ok. }
  destruct (mem action direction_actions).
  { by apply move_keeps_ok. }
  destruct (mem action ["talk"; "say"; "说"; "聊"; "对话"; "交谈"]).
  { by apply talk_keeps_ok. }
  destruct (mem action ["status"; "stat"; "状态"]); [|done].
  by rewrite status_state.
Qed.

Lemma process_command_keeps_ok (command : string) (o : TalkOracle)
    (g : Game) :
  game_ok g -> game_ok (snd (process_command rt command o g)).
Proof.
  intros Hok.
  destruct (split (lower rt (strip command))) as [|action args] eqn:E.
  - unfold process_command. rewrite E.
    by destruct (String.eqb (lower rt (strip command)) EmptyString).
  - destruct (process_command_state rt command action args o g E) as [-> _].
    by apply dispatch_keeps_ok.
Qed.

Lemma play_keeps_ok (cmds : list Command) :
  forall g, game_ok g -> game_ok (play rt cmds g).
Proof.
  induction cmds as [|c cmds IH]; intros g Hok; [done|].
  cbn [play fold_left]. apply IH. by apply process_command_keeps_ok.
Qed.

Lemma sync_keeps_layout (g : GameService) :
  same_layout (world_service g) ->
  same_layout (world_service (_sync_character_locations g)).
Proof.
  intros Hlay id.
  destruct (sync_fold (Character.characters (character_service g))
              (world_service g)) as (_ & Hl & _).
  rewrite sync_world, Hl. apply Hlay.
Qed.

Lemma new_layout (client_ok : bool) :
  same_layout (world_service (Game.new rt client_ok)).
Proof. by apply sync_keeps_layout. Qed.

Lemma start_ok (g : GameService) :
  same_layout (world_service g) ->
  Runs.sessions_ok (ai_service g) ->
  exists gs,
    fst (create_new_game rt g) = inr gs
    /\ game_ok {| svc := snd (create_new_game rt g); game_state := gs |}.
Proof.
  intros Hlay Hai.
  set (g' := _sync_character_locations
               (with_characters
                  (Character.reset_all_moods rt (character_service g))
                  (with_world (World.reset_to_start (world_service g)) g))).
  assert (Hrun : snd (create_new_game rt g) = g') by reflexivity.
  eexists. split; [reflexivity|]. rewrite Hrun.
  assert (Hlay' : same_layout (world_service g')).
  { by apply sync_keeps_layout. }
  split; [|split; [|split; [|split]]]; cbn [svc game_state]; try done.
  - unfold World.get_current_location.
    destruct (sync_keeps_pointer g') as [Hp _].
    replace (World.current_location (world_service g'))
      with "village_center".
    + by apply same_layout_start.
    + symmetry. subst g'.
      by destruct (sync_keeps_pointer
                     (with_characters
                        (Character.reset_all_moods rt (character_service g))
                        (with_world
                           (World.reset_to_start (world_service g)) g)))
        as [-> _].
  - change (character_service g')
      with (Character.reset_all_moods rt (character_service g)).
    unfold Character.reset_all_moods. cbn.
    apply Forall_forall. intros kv Hkv.
    apply list_elem_of_In, in_map_iff in Hkv as (kv0 & <- & _).
    split; [|cbn; lia].
    exists (5 # 10)%Q. split; [done|]. split; done.
Qed.

(** X20: between two commands the game stays well formed, whatever the
    commands, the replies of the endpoint and the errors are: the
    locations are those of the start with their exits, the pointer names
    a location (so where and status never fail), the game state's
    location is the pointer, every character's mood lies in [0, 1] and
    its conversation history holds at most ten turns, and the sessions of
    the adapter each name a list of their own. A started game is well
    formed. *)
Theorem game_stays_well_formed (cmds : list Command) :
  (forall g, game_ok g -> game_ok (play rt cmds g))
  /\ (forall client_ok,
        exists g0, start rt client_ok = Some g0
                   /\ game_ok g0
                   /\ game_ok (play rt cmds g0)).
Proof.
  split; [apply play_keeps_ok|]. intros client_ok.
  destruct (start_ok (Game.new rt client_ok) (new_layout client_ok)
              (sessions_ok_new rt client_ok)) as (gs & Hgs & Hok).
  exists {| svc := snd (create_new_game rt (Game.new rt client_ok));
            game_state := gs |}.
  split; [|split; [done|by apply play_keeps_ok]].
  unfold start.
  destruct (create_new_game rt (Game.new rt client_ok)) as [res s].
  cbn [fst snd] in *. by subst res.
Qed.

End GameInvariant.

(* ===================================================================== *)
(** * What the commands leave alone *)
(* ===================================================================== *)

Section FixedPart.
Import Py Eff Game Plays.
Context (rt : Builtins).

Lemma roster_on_character (cid : string)
    (f : Character.Character -> Character.Character)
    (s : Character.CharacterService) :
  (forall c, Character.name (f c) = Character.name c
             /\ Character.personality (f c) = Character.personality c
             /\ Character.location (f c) = Character.location c) ->
  roster (Character.on_character cid f s) = roster s.
Proof.
  intros Hf. unfold roster, Character.on_character.
  destruct (assoc cid (Character.characters s)) as [c|] eqn:E; [|done].
  cbn [Character.characters]. revert E.
  induction (Character.characters s) as [|[k v] d IH]; cbn; [done|].
  destruct (String.eqb_spec cid k) as [->|Hne]; cbn.
  - intros [= ->]. destruct (Hf c) as (-> & -> & ->). done.
  - intros E. by rewrite IH.
Qed.

Lemma static_add_conversation (u : string) (a : json)
    (c : Character.Character) :
  Character.name (Character.add_conversation u a c) = Character.name c
  /\ Character.personality (Character.add_conversation u a c)
     = Character.personality c
  /\ Character.location (Character.add_conversation u a c)
     = Character.location c.
Proof. unfold Character.add_conversation. by case_decide. Qed.

Lemma fixed_part_on_character (cid : string)
    (f : Character.Character -> Character.Character)
    (a : AI.AIService) (g : Game) :
  (forall c, Character.name (f c) = Character.name c
             /\ Character.personality (f c) = Character.personality c
             /\ Character.location (f c) = Character.location c) ->
  fixed_part
    (with_svc
       (with_characters
          (Character.on_character cid f (character_service (svc g)))
          (with_ai a (svc g)))
       g)
  = fixed_part g.
Proof.
  intros Hf. unfold fixed_part. cbn. by rewrite roster_on_character.
Qed.

(** The fixed part after a talk, whatever happens in it. *)
Lemma talk_fixed_part (args : list string) (o : TalkOracle) (g : Game) :
  fixed_part (snd (_handle_talk_command rt args o g)) = fixed_part g.
Proof.
  destruct args as [|cid rest]; [done|].
  destruct (Character.get_character cid (character_service (svc g)))
    as [c|] eqn:Hc; [|by rewrite talk_unknown_character].
  destruct (String.eqb_spec (Character.location c)
              (World.current_location (world_service (svc g))))
    as [Hloc|Hloc];
    [|by rewrite (talk_character_elsewhere rt cid rest o g c)].
  destruct (World.get_current_location (world_service (svc g)))
    as [l|] eqn:Hl.
  - destruct (asyncio_error o) as [e|] eqn:Hrun.
    + rewrite (talk_fallback rt cid rest o g c l e) by done.
      destruct (Config.is_debug_mode (config_service (svc g))); [done|].
      cbn [snd]. rewrite <- (with_ai_same (svc g)) at 1.
      apply fixed_part_on_character.
      intros c'. apply static_add_conversation.
    + destruct (fst (AI.get_character_response rt (Character.name c)
                       (Character.personality c) (talk_message rest)
                       (World.name l) (Character.mood c)
                       ("char_" +:+ cid) (api o) (ai_service (svc g))))
        as [e|r] eqn:Hr.
      * destruct (call_exits rt _ _ _ _ _ _ _ _ _ Hr) as (_ & x & _ & ->).
        by rewrite (talk_exit rt cid rest o g c l x).
      * rewrite (talk_run rt cid rest o g c l r) by done. cbn [snd].
        apply fixed_part_on_character. intros c'.
        destruct (static_add_conversation (talk_message rest) (AI.msg r)
                    (Character.update_mood (AI.mood r) c'))
          as (-> & -> & ->).
        done.
  - unfold _handle_talk_command, bind, get. cbn beta iota zeta.
    change (match rest with [] => "你好" | _ :: _ => join " " rest end)
      with (talk_message rest).
    rewrite Hc. cbn beta iota. rewrite Hloc, String.eqb_refl. cbn [negb].
    unfold try_except, current_location_name, bind, get.
    rewrite Hl. unfold raise. cbn beta iota.
    destruct (Config.is_debug_mode (config_service (svc g))); [done|].
    cbn [snd].
    change (fixed_part
              (with_svc
                 (with_characters
                    (Character.on_character cid
                       (Character.add_conversation (talk_message rest)
                          (JStr (_get_mock_ai_response c
                                   (talk_message rest))))
                       (character_service (svc g)))
                    (with_ai (ai_service (svc g)) (svc g)))
                 g)
            = fixed_part g).
    apply fixed_part_on_character.
    intros c'. apply static_add_conversation.
Qed.

Lemma move_fixed_part (args : list string) (g : Game) :
  fixed_part (snd (_handle_move_command args g)) = fixed_part g.
Proof.
  destruct args as [|d rest]; [done|].
  rewrite move_command_run. cbv zeta.
  destruct (fst (fst (World.move_to d (world_service (svc g))))); [|done].
  unfold fixed_part. cbn. by rewrite move_to_keeps_locations.
Qed.

Lemma dispatch_fixed_part (action : string) (args : list string)
    (o : TalkOracle) (g : Game) :
  fixed_part (snd (dispatch rt action args o g)) = fixed_part g.
Proof.
  unfold dispatch.
  destruct (mem action ["clear"; "清空"; "清屏"]); [done|].
  destruct (mem action ["help"; "h"; "帮助"; "命令"]); [done|].
  destruct (mem action ["look"; "l"; "看"; "查看"; "观察"]); [done|].
  destruct (mem action ["where"; "位置"; "我在哪"]).
  { rewrite where_run.
    by destruct (World.get_current_location (world_service (svc g))). }
  destruct (mem action ["characters"; "chars"; "角色"; "人物"; "npc"]).
  { by rewrite characters_state. }
  destruct (mem action ["go"; "move"; "走"; "去"; "移动"]).
  { apply move_fixed_part. }
  destruct (mem action direction_actions).
  { apply move_fixed_part. }
  destruct (mem action ["talk"; "say"; "说"; "聊"; "对话"; "交谈"]).
  { apply talk_fixed_part. }
  destruct (mem action ["status"; "stat"; "状态"]); [|done].
  by rewrite status_state.
Qed.

Lemma process_command_fixed_part (command : string) (o : TalkOracle)
    (g : Game) :
  fixed_part (snd (process_command rt command o g)) = fixed_part g.
Proof.
  destruct (split (lower rt (strip command))) as [|action args] eqn:E.
  - unfold process_command. rewrite E.
    by destruct (String.eqb (lower rt (strip command)) EmptyString).
  - destruct (process_command_state rt command action args o g E) as [-> _].
    apply dispatch_fixed_part.
Qed.

Lemma play_fixed_part (cmds : list Command) :
  forall g, fixed_part (play rt cmds g) = fixed_part g.
Proof.
  induction cmds as [|c cmds IH]; intros g; [done|].
  change (play rt (c :: cmds) g)
    with (play rt cmds (snd (process_command rt (text c) (oracle c) g))).
  rewrite IH. apply process_command_fixed_part.
Qed.

(** X22: no sequence of commands, whatever the endpoint replies and
    whatever fails, changes the configuration, the locations (their
    names, descriptions, exits and presence lists), the ids of the
    characters and their order, any character's name, personality or
    location, the player's name or the started flag: commands only move
    the pointer, change moods and conversation histories, the adapter's
    sessions and the displayed history. *)
Theorem commands_keep_the_fixed_part (cmds : list Command) (g : Game) :
  let g' := play rt cmds g in
  config_service (svc g') = config_service (svc g)
  /\ World.locations (world_service (svc g'))
     = World.locations (world_service (svc g))
  /\ map fst (Character.characters (character_service (svc g')))
     = map fst (Character.characters (character_service (svc g)))
  /\ roster (character_service (svc g')) = roster (character_service (svc g))
  /\ player_name (game_state g') = player_name (game_state g)
  /\ game_started (game_state g') = game_started (game_state g).
Proof.
  intros g'. subst g'.
  pose proof (play_fixed_part cmds g) as H. unfold fixed_part in H.
  injection H as Hconfig Hloc Hroster Hname Hstarted.
  split; [done|]. split; [done|]. split; [|done].
  apply (f_equal (map fst)) in Hroster. unfold roster in Hroster.
  by rewrite !map_map in Hroster.
Qed.

Lemma list_for_location_roster (id : string)
    (s : Character.CharacterService) :
  Character.get_character_list_for_location id s
  = map fst
      (filter (fun e => String.eqb (snd (snd e)) id = true) (roster s)).
Proof.
  unfold Character.get_character_list_for_location,
    Character.get_characters_in_location, roster.
  induction (Character.characters s) as [|[k c] d IH]; [done|].
  cbn [map]. rewrite !filter_cons. cbn [fst snd].
  destruct (decide ((Character.location c =? id)%string = true));
    cbn [map fst]; by rewrite IH.
Qed.

Lemma filter_places (id : string)
    (r : list (string * (string * string * string))) :
  map fst (filter (fun e => String.eqb (snd (snd e)) id = true) r)
  = map fst
      (filter (fun e : string * string => String.eqb (snd e) id = true)
         (map (fun e : string * (string * string * string) =>
                 (fst e, snd (snd e)))
              r)).
Proof.
  induction r as [|e r IH]; [done|].
  cbn [map]. rewrite !filter_cons. cbn [fst snd].
  destruct (decide ((e.2.2 =? id)%string = true)); cbn [map fst];
    by rewrite IH.
Qed.

Lemma filter_places_none (id : string) (l : list (string * string)) :
  (forall e, In e l -> snd e <> id) ->
  filter (fun e : string * string => String.eqb (snd e) id = true) l = [].
Proof.
  induction l as [|a l IH]; intros H; [done|].
  rewrite filter_cons. case_decide as Heq.
  - apply String.eqb_eq in Heq. exfalso. apply (H a); [by left|done].
  - apply IH. intros e He. apply H. by right.
Qed.

Lemma present_at_locations (id : string) (w w' : World.WorldService) :
  World.locations w' = World.locations w ->
  present_at id w' = present_at id w.
Proof. unfold present_at. by intros ->. Qed.

Lemma started_game (client_ok : bool) :
  exists g0,
    start rt client_ok = Some g0
    /\ game_ok g0
    /\ forall id,
         Character.get_character_list_for_location id
           (character_service (svc g0))
         = present_at id (world_service (svc g0)).
Proof.
  destruct (start_ok rt (Game.new rt client_ok) (new_layout rt client_ok)
              (sessions_ok_new rt client_ok)) as (gs & Hgs & Hok).
  exists {| svc := snd (create_new_game rt (Game.new rt client_ok));
            game_state := gs |}.
  split; [|split; [done|]].
  { unfold start.
    destruct (create_new_game rt (Game.new rt client_ok)) as [res s].
    cbn [fst snd] in *. by subst res. }
  cbn [svc]. intros id.
  destruct Hok as (Hlay & _). cbn [svc] in Hlay.
  destruct (decide (id = "village_center")) as [->|H1];
    [vm_compute; reflexivity|].
  destruct (decide (id = "forest_entrance")) as [->|H2];
    [vm_compute; reflexivity|].
  destruct (decide (id = "deep_forest")) as [->|H3];
    [vm_compute; reflexivity|].
  destruct (decide (id = "village_shop")) as [->|H4];
    [vm_compute; reflexivity|].
  destruct (decide (id = "village_house")) as [->|H5];
    [vm_compute; reflexivity|].
  destruct (decide (id = "river_bank")) as [->|H6];
    [vm_compute; reflexivity|].
  assert (Hnone : World.locations
                    (world_service
                       (snd (create_new_game rt (Game.new rt client_ok))))
                  !! id = None).
  { pose proof (Hlay id) as Hid. unfold World.new in Hid.
    cbn [World.locations] in Hid. unfold World._initialize_world in Hid.
    rewrite !lookup_insert_ne, lookup_empty in Hid by done.
    by destruct (World.locations _ !! id). }
  unfold present_at. rewrite Hnone.
  rewrite list_for_location_roster.
  assert (Hroster :
            roster (character_service
                      (snd (create_new_game rt (Game.new rt client_ok))))
            = roster (Character.new rt)) by reflexivity.
  rewrite Hroster, filter_places.
  assert (Hplaces :
            map (fun e : string * (string * string * string) =>
                   (fst e, snd (snd e)))
                (roster (Character.new rt))
            = [("elder", "village_center"); ("shopkeeper", "village_shop");
               ("traveler", "forest_entrance"); ("villager", "village_house");
               ("fisherman", "river_bank")]) by reflexivity.
  rewrite Hplaces, filter_places_none; [done|].
  cbn [In]. intros e [<-|[<-|[<-|[<-|[<-|[]]]]]]; cbn [snd]; congruence.
Qed.

(** X23: in a started game, after any sequence of commands, the world
    and the registry agree on who is where: at every location id the
    presence list that look shows is the list of the characters the
    registry places there, which is what the characters command lists
    and what talk checks. *)
Theorem presence_agrees_with_registry (client_ok : bool)
    (cmds : list Command) :
  exists g0,
    start rt client_ok = Some g0
    /\ forall id,
         Character.get_character_list_for_location id
           (character_service (svc (play rt cmds g0)))
         = present_at id (world_service (svc (play rt cmds g0))).
Proof.
  destruct (started_game client_ok) as (g0 & Hstart & _ & Hagree).
  exists g0. split; [exact Hstart|]. intros id.
  pose proof (play_fixed_part cmds g0) as H. unfold fixed_part in H.
  injection H as _ Hloc Hroster _ _.
  rewrite (present_at_locations id _ _ Hloc), <- Hagree.
  by rewrite !list_for_location_roster, Hroster.
Qed.

End FixedPart.

(* ===================================================================== *)
(** * Examples for the further properties *)
(* ===================================================================== *)

(** The elder joins the empty shop and is its only visitor. *)
Lemma add_character_is_idempotent_witness :
  ~ In "elder" (World.characters World.village_shop)
  /\ World.characters (World.add_character "elder" World.village_shop)
     = ["elder"].
Proof.
  assert (H : ~ In "elder" (World.characters World.village_shop))
    by (simpl; tauto).
  split; [exact H|].
  destruct (add_character_is_idempotent "elder" World.village_shop)
    as (_ & _ & _ & Hnew & _).
  exact (Hnew H).
Defined.

(** The elder joins the empty shop and leaves it again. *)
Lemma remove_character_undoes_add_witness :
  ~ In "elder" (World.characters World.village_shop)
  /\ World.remove_character "elder"
       (World.add_character "elder" World.village_shop)
     = World.village_shop.
Proof.
  assert (H : ~ In "elder" (World.characters World.village_shop))
    by (simpl; tauto).
  split; [exact H|].
  destruct (remove_character_undoes_add "elder" World.village_shop)
    as (Hback & _).
  exact (proj2 (Hback H)).
Defined.

(** The shop exists in the initial world: the elder is listed there after
    being added, and the pointer has not moved. *)
Lemma presence_touches_one_location_witness :
  is_Some (World.locations World.new !! "village_shop")
  /\ In "elder"
       (Plays.present_at "village_shop"
          (World.add_character_to_location "elder" (Some "village_shop")
             World.new)).
Proof.
  assert (H : is_Some (World.locations World.new !! "village_shop"))
    by (eexists; vm_compute; reflexivity).
  split; [exact H|].
  destruct (presence_touches_one_location "elder" (Some "village_shop")
              World.new) as (_ & _ & Hin & _).
  exact (Hin H).
Defined.

(** A mood of one half is kept as it is. *)
Lemma update_mood_stays_in_range_witness :
  (0 < 1 # 2)%Q /\ (1 # 2 < 1)%Q
  /\ Character.mood (Character.update_mood (Py.Fin (1 # 2)) Sample.elder)
     = Py.Fin (1 # 2).
Proof.
  split; [reflexivity|]. split; [reflexivity|].
  destruct (update_mood_stays_in_range (Py.Fin (1 # 2)) Sample.elder)
    as (_ & _ & _ & _ & _ & _ & _ & Hkeep).
  apply Hkeep; reflexivity.
Defined.

(** Nobody is registered under [nobody]: removing that id changes
    nothing. *)
Lemma registry_add_get_remove_witness :
  Character.get_character "nobody" (Character.new Sample.rt) = None
  /\ Character.remove_character "nobody" (Character.new Sample.rt)
     = Character.new Sample.rt.
Proof.
  split; [reflexivity|].
  destruct (registry_add_get_remove Sample.elder (Character.new Sample.rt))
    as (_ & _ & _ & Hnone & _).
  apply Hnone. reflexivity.
Defined.

(** The elder moves to the river bank and is listed there. *)
Lemma registry_updates_one_character_witness :
  Character.get_character "elder" (Character.new Sample.rt)
  = Some Sample.village_elder
  /\ In "elder"
       (Character.get_character_list_for_location "river_bank"
          (Character.move_character "elder" "river_bank"
             (Character.new Sample.rt))).
Proof.
  split; [reflexivity|].
  destruct (registry_updates_one_character "elder" (Py.Fin 5) "river_bank"
              (Character.new Sample.rt)) as (_ & Hfound & _).
  destruct (Hfound Sample.village_elder) as (_ & _ & Hin); [reflexivity|].
  exact Hin.
Defined.

(** The elder has not spoken yet: the context is empty. *)
Lemma conversation_context_shows_newest_turns_witness :
  Character.conversation_history Sample.elder = []
  /\ Character.get_conversation_context Sample.rt Sample.elder = EmptyString.
Proof.
  split; [reflexivity|].
  destruct (conversation_context_shows_newest_turns Sample.rt Sample.elder)
    as (Hempty & _).
  apply Hempty. reflexivity.
Defined.

(** With a client, a request that raises the 404 error of the client
    library is answered with an error reply, and a request whose task is
    cancelled leaves the call with CancelledError, the prompt and the
    user turn being stored. *)
Lemma call_returns_unless_exited_witness :
  (exists r,
     fst (AI.get_character_response Sample.rt
            "村庄长老" "智慧而和蔼的老人" "你好" "村庄中心" (Py.Fin (7 # 10))
            "char_elder" Sample.api_not_found Sample.ai0) = inr r
     /\ AI.status r = "error")
  /\ AI.client Sample.ai0 = true
  /\ fst (AI.get_character_response Sample.rt
            "村庄长老" "智慧而和蔼的老人" "你好" "村庄中心" (Py.Fin (7 # 10))
            "char_elder" (AI.ApiExits Py.CancelledError) Sample.ai0)
     = inl (Py.Exited Py.CancelledError)
  /\ length
       <$> AI.stored_history "char_elder"
             (snd (AI.get_character_response Sample.rt
                     "村庄长老" "智慧而和蔼的老人" "你好" "村庄中心"
                     (Py.Fin (7 # 10)) "char_elder"
                     (AI.ApiExits Py.CancelledError) Sample.ai0))
     = Some 2%nat.
Proof.
  split; [|split; [reflexivity|]].
  - destruct (call_returns_unless_exited Sample.rt
                "村庄长老" "智慧而和蔼的老人" "你好" "村庄中心" (Py.Fin (7 # 10))
                "char_elder" Sample.api_not_found Sample.ai0)
      as (Hreturns & _).
    destruct Hreturns as (r & Hr & _ & _ & _ & Herr & _);
      [right; discriminate|].
    exists r. split; [exact Hr|]. apply Herr.
    vm_compute in Hr. injection Hr as <-. by eexists.
  - destruct (call_returns_unless_exited Sample.rt
                "村庄长老" "智慧而和蔼的老人" "你好" "村庄中心" (Py.Fin (7 # 10))
                "char_elder" (AI.ApiExits Py.CancelledError) Sample.ai0)
      as (_ & Hexits).
    destruct (Hexits Py.CancelledError eq_refl eq_refl) as (Hr & Hst).
    split; [exact Hr|].
    rewrite (Hst (sessions_ok_new Sample.rt true)). reflexivity.
Defined.

(** The endpoint answers 404: the reply is the model-unavailable line
    with the elder's mood, and the stored history is the prompt and the
    user turn. *)
Lemma failed_call_keeps_the_user_turn_witness :
  AI.client Sample.ai0 = true
  /\ Runs.sessions_ok Sample.ai0
  /\ exists r,
       fst (AI.get_character_response Sample.rt
              "村庄长老" "智慧而和蔼的老人" "你好" "村庄中心" (Py.Fin (7 # 10))
              "char_elder" Sample.api_not_found Sample.ai0) = inr r
       /\ AI.status r = "error"
       /\ AI.mood r = Py.Fin (7 # 10)
       /\ AI.msg r = Py.JStr "模型暂时不可用，请稍后再试。"
       /\ length
            <$> AI.stored_history "char_elder"
                  (snd (AI.get_character_response Sample.rt
                          "村庄长老" "智慧而和蔼的老人" "你好" "村庄中心"
                          (Py.Fin (7 # 10)) "char_elder"
                          Sample.api_not_found Sample.ai0))
          = Some 2%nat.
Proof.
  split; [reflexivity|]. split; [apply sessions_ok_new|].
  destruct (fst (AI.get_character_response Sample.rt
                   "村庄长老" "智慧而和蔼的老人" "你好" "村庄中心"
                   (Py.Fin (7 # 10)) "char_elder" Sample.api_not_found
                   Sample.ai0)) as [e|r] eqn:Hr;
    [vm_compute in Hr; discriminate Hr|].
  assert (Herr : AI.status r = "error").
  { vm_compute in Hr. injection Hr as <-. reflexivity. }
  destruct (failed_call_keeps_the_user_turn Sample.rt
              "村庄长老" "智慧而和蔼的老人" "你好" "村庄中心" (Py.Fin (7 # 10))
              "char_elder" Sample.api_not_found Sample.ai0 r)
    as (Hst & Hmood & Hmsg);
    [reflexivity|apply sessions_ok_new|exact Hr|exact Herr|].
  exists r. split; [reflexivity|]. split; [exact Herr|].
  split; [exact Hmood|]. split.
  - apply (Hmsg "Error code: 404 - model Not Found"); reflexivity.
  - rewrite Hst. reflexivity.
Defined.

(** A call for the elder leaves the session of the shopkeeper, which has
    no history yet, without one. *)
Lemma sessions_are_isolated_witness :
  Runs.sessions_ok Sample.ai0
  /\ "char_shopkeeper" <> "char_elder"
  /\ AI.stored_history "char_shopkeeper"
       (snd (Sample.respond (Py.Fin (7 # 10)) Sample.reply_mood_half
               Sample.ai0))
     = None.
Proof.
  split; [apply sessions_ok_new|]. split; [discriminate|].
  destruct (sessions_are_isolated Sample.rt
              "村庄长老" "智慧而和蔼的老人" "你好" "村庄中心" (Py.Fin (7 # 10))
              "char_elder" (AI.ApiResponse [Some Sample.reply_mood_half])
              Sample.ai0 "char_shopkeeper")
    as (Hcall & _); [apply sessions_ok_new|discriminate|].
  unfold Sample.respond. rewrite Hcall. reflexivity.
Defined.

(** After a clear, the session of the elder reports no message. *)
Lemma session_info_after_clear_and_call_witness :
  Runs.sessions_ok Sample.ai0
  /\ fst (AI.get_session_info "char_elder"
            (snd (AI.clear_character_history "char_elder" Sample.ai0)))
     = inr {| AI.info_session_id := "char_elder"; AI.message_count := 0;
              AI.has_system_prompt := false |}.
Proof.
  split; [apply sessions_ok_new|].
  destruct (session_info_after_clear_and_call Sample.rt
              "村庄长老" "智慧而和蔼的老人" "你好" "村庄中心" (Py.Fin (7 # 10))
              "char_elder" (AI.ApiResponse [Some Sample.reply_mood_half])
              Sample.ai0) as (Hclear & _); [apply sessions_ok_new|].
  exact Hclear.
Defined.

(** The fenced reply [{"msg":"hi"}] gives status success with the mood of
    the caller. *)
Lemma fenced_reply_is_unwrapped_witness :
  fst (Sample.respond (Py.Fin (7 # 10))
         ("```json" +:+ Sample.reply_no_mood +:+ "```") Sample.ai0)
  = inr {| AI.msg := Py.JStr "hi"; AI.mood := Py.Fin (7 # 10);
           AI.status := "success"; AI.error := None |}.
Proof.
  destruct (fenced_reply_is_unwrapped Sample.rt
              "村庄长老" "智慧而和蔼的老人" "你好" "村庄中心" (Py.Fin (7 # 10))
              "char_elder" Sample.reply_no_mood) as (_ & _ & Hreply).
  unfold Sample.respond.
  rewrite (Hreply Sample.ai0
             ("```json" +:+ Sample.reply_no_mood +:+ "```") []
             [("msg", Py.JStr "hi")] (Py.JStr "hi"));
    [reflexivity|reflexivity|vm_compute; discriminate
    |vm_compute; reflexivity|vm_compute; reflexivity
    |reflexivity|reflexivity].
Defined.

(** [LOOK] is a reading command, and [dance] is not a command. *)
Lemma reading_commands_change_nothing_witness :
  Py.split (Py.lower Sample.rt (Py.strip " LOOK ")) = ["look"]
  /\ In "look" Plays.reading_verbs
  /\ (exists answer,
        Game.process_command Sample.rt " LOOK "
          (Sample.oracle Sample.reply_mood_half) Sample.game0
        = (inr answer, Sample.game0))
  /\ ~ In "dance" Plays.known_verbs
  /\ Game.process_command Sample.rt "dance"
       (Sample.oracle Sample.reply_mood_half) Sample.game0
     = (inr ("未知命令: dance" +:+ Py.nl +:+ "输入 'help' 查看可用命令。"),
        Sample.game0).
Proof.
  assert (Hlook : In "look" Plays.reading_verbs)
    by (do 4 right; left; reflexivity).
  assert (Hdance : ~ In "dance" Plays.known_verbs).
  { intros H. apply mem_In in H. vm_compute in H. discriminate H. }
  split; [reflexivity|]. split; [exact Hlook|]. split; [|split].
  - destruct (reading_commands_change_nothing Sample.rt " LOOK "
                (Sample.oracle Sample.reply_mood_half) Sample.game0)
      as (_ & Hread & _).
    exact (Hread "look" [] eq_refl Hlook).
  - exact Hdance.
  - destruct (reading_commands_change_nothing Sample.rt "dance"
                (Sample.oracle Sample.reply_mood_half) Sample.game0)
      as (_ & _ & Hunknown).
    exact (Hunknown "dance" [] eq_refl Hdance).
Defined.

(** With the pointer on [nowhere], [where] is answered with the generic
    error message. *)
Lemma lost_player_gets_fallback_answers_witness :
  World.get_current_location
    (Game.world_service (Game.svc Sample.game_lost)) = None
  /\ Game.process_command Sample.rt "where"
       (Sample.oracle Sample.reply_mood_half) Sample.game_lost
     = (inr "出现了一些问题，请重试。", Sample.game_lost).
Proof.
  split; [vm_compute; reflexivity|].
  destruct (lost_player_gets_fallback_answers Sample.rt "where"
              (Sample.oracle Sample.reply_mood_half) Sample.game_lost)
    as (_ & Hwhere & _); [vm_compute; reflexivity|].
  apply (Hwhere "where" []); [reflexivity|simpl; tauto].
Defined.

(** [go east] at the start leads to the shop, and [go] alone lists the
    four exits of the village centre. *)
Lemma move_command_follows_move_to_witness :
  Py.split (Py.lower Sample.rt (Py.strip "go east")) = ["go"; "east"]
  /\ World.current_location
       (Game.world_service
          (Game.svc
             (snd (Game.process_command Sample.rt "go east"
                     (Sample.oracle Sample.reply_mood_half) Sample.game0))))
     = "village_shop"
  /\ Game.current_location
       (Game.game_state
          (snd (Game.process_command Sample.rt "go east"
                  (Sample.oracle Sample.reply_mood_half) Sample.game0)))
     = "village_shop"
  /\ Py.split (Py.lower Sample.rt (Py.strip "go")) = ["go"]
  /\ Game.process_command Sample.rt "go"
       (Sample.oracle Sample.reply_mood_half) Sample.game0
     = (inr "去哪里？可用方向: 北方, 东方, 西方, 南方", Sample.game0).
Proof.
  split; [reflexivity|].
  destruct (move_command_follows_move_to Sample.rt "go east"
              (Sample.oracle Sample.reply_mood_half) Sample.game0 "east")
    as (Hgo & _).
  rewrite (Hgo "go" []); [|reflexivity|simpl; tauto].
  split; [vm_compute; reflexivity|]. split; [vm_compute; reflexivity|].
  split; [reflexivity|].
  destruct (move_command_follows_move_to Sample.rt "go"
              (Sample.oracle Sample.reply_mood_half) Sample.game0 "east")
    as (_ & _ & Hlist).
  rewrite (Hlist "go"); [|reflexivity|simpl; tauto].
  vm_compute. reflexivity.
Defined.

(** The elder is in the village centre, where the game starts: after
    [talk elder hello] answered with [{"msg":"hi","mood":1.7}] its mood
    is 1.0 and its history holds the turn; when the task of the request
    is cancelled instead, the command raises CancelledError and the
    elder is as before. *)
Lemma talk_records_the_reply_witness :
  Py.split (Py.lower Sample.rt (Py.strip "talk elder hello"))
  = ["talk"; "elder"; "hello"]
  /\ Character.get_character "elder"
       (Game.character_service (Game.svc Sample.game0))
     = Some Sample.village_elder
  /\ World.get_current_location (Game.world_service (Game.svc Sample.game0))
     = Some (World.add_character "elder" World.village_center)
  /\ Character.get_character "elder"
       (Game.character_service
          (Game.svc
             (snd (Game.process_command Sample.rt "talk elder hello"
                     (Sample.oracle Sample.reply_mood_high) Sample.game0))))
     = Some (Character.add_conversation "hello" (Py.JStr "hi")
               (Character.update_mood (Py.Fin (17 # 10))
                  Sample.village_elder))
  /\ fst (Game.process_command Sample.rt "talk elder hello"
            Sample.oracle_cancelled Sample.game0)
     = inl (Py.Exited Py.CancelledError)
  /\ Game.character_service
       (Game.svc
          (snd (Game.process_command Sample.rt "talk elder hello"
                  Sample.oracle_cancelled Sample.game0)))
     = Game.character_service (Game.svc Sample.game0).
Proof.
  split; [reflexivity|]. split; [reflexivity|].
  split; [vm_compute; reflexivity|]. split.
  - destruct (talk_records_the_reply Sample.rt "talk elder hello" "talk"
                "elder" ["hello"] (Sample.oracle Sample.reply_mood_high)
                Sample.game0 Sample.village_elder
                (World.add_character "elder" World.village_center))
      as (Hreturns & _);
      [reflexivity|simpl; tauto|reflexivity|reflexivity
      |vm_compute; reflexivity|reflexivity|].
    destruct Hreturns as (r & Hr & _ & Hc & _); [right; discriminate|].
    rewrite Hc. vm_compute in Hr. injection Hr as <-. reflexivity.
  - destruct (talk_records_the_reply Sample.rt "talk elder hello" "talk"
                "elder" ["hello"] Sample.oracle_cancelled
                Sample.game0 Sample.village_elder
                (World.add_character "elder" World.village_center))
      as (_ & Hexits);
      [reflexivity|simpl; tauto|reflexivity|reflexivity
      |vm_compute; reflexivity|reflexivity|].
    destruct (Hexits Py.CancelledError eq_refl eq_refl)
      as (_ & Hraised & Hsame & _).
    split; [exact Hraised|exact Hsame].
Defined.

(** Inside a running event loop [talk elder hello] is answered with the
    canned reply of the elder, and its mood stays 0.7. *)
Lemma talk_falls_back_to_canned_reply_witness :
  Game.asyncio_error Sample.oracle_no_loop
  = Some (Py.RuntimeError
            "asyncio.run() cannot be called from a running event loop")
  /\ Config.is_debug_mode
       (Game.config_service (Game.svc Sample.game0)) = false
  /\ Character.get_character "elder"
       (Game.character_service
          (Game.svc
             (snd (Game.process_command Sample.rt "talk elder hello"
                     Sample.oracle_no_loop Sample.game0))))
     = Some (Character.add_conversation "hello"
               (Py.JStr (Game._get_mock_ai_response Sample.village_elder "hello"))
               Sample.village_elder).
Proof.
  split; [reflexivity|]. split; [reflexivity|].
  destruct (talk_falls_back_to_canned_reply Sample.rt "talk elder hello"
              "talk" "elder" ["hello"] Sample.oracle_no_loop Sample.game0
              Sample.village_elder (World.add_character "elder" World.village_center)
              (Py.RuntimeError
                 "asyncio.run() cannot be called from a running event loop"))
    as (_ & Hmock);
    [reflexivity|simpl; tauto|reflexivity|reflexivity
    |vm_compute; reflexivity|reflexivity|].
  destruct Hmock as (_ & Hc & _); [reflexivity|].
  exact Hc.
Defined.

(** The game of the examples is well formed, and stays so after a walk
    and a talk. *)
Lemma game_stays_well_formed_witness :
  Plays.game_ok Sample.game0
  /\ Plays.game_ok
       (Plays.play Sample.rt
          [{| Plays.text := "go east";
              Plays.oracle := Sample.oracle Sample.reply_mood_half |};
           {| Plays.text := "talk shopkeeper hello";
              Plays.oracle := Sample.oracle Sample.reply_mood_high |}]
          Sample.game0).
Proof.
  assert (Hok : Plays.game_ok Sample.game0).
  { split; [apply new_layout|].
    split; [eexists; vm_compute; reflexivity|].
    split; [reflexivity|].
    split; [|apply sessions_ok_new].
    repeat (apply Forall_cons; split;
            [split; [eexists; split; [reflexivity|split; discriminate]
                    |simpl; lia]|]).
    apply Forall_nil_2. }
  split; [exact Hok|].
  destruct (game_stays_well_formed Sample.rt
              [{| Plays.text := "go east";
                  Plays.oracle := Sample.oracle Sample.reply_mood_half |};
               {| Plays.text := "talk shopkeeper hello";
                  Plays.oracle := Sample.oracle Sample.reply_mood_high |}])
    as (Hkeep & _).
  exact (Hkeep Sample.game0 Hok).
Defined.

(** At the start the elder is registered in the village centre, which
    exists: synchronising lists it there. *)
Lemma sync_only_adds_presence_witness :
  In ("elder", Sample.village_elder)
    (Character.characters (Game.character_service (Game.svc Sample.game0)))
  /\ In "elder"
       (Plays.present_at "village_center"
          (Game.world_service
             (Game._sync_character_locations (Game.svc Sample.game0)))).
Proof.
  assert (Hin : In ("elder", Sample.village_elder)
                  (Character.characters
                     (Game.character_service (Game.svc Sample.game0))))
    by (left; reflexivity).
  split; [exact Hin|].
  destruct (sync_only_adds_presence (Game.svc Sample.game0))
    as (Hcover & _).
  apply (Hcover "elder" Sample.village_elder Hin).
  eexists. vm_compute. reflexivity.
Defined.
